(** * sd-webui ControlNet extension: hosting wrapper, control network and annotators

    A shallow embedding of [scripts/cldm.py] and [scripts/processor.py],
    with the properties of the specification stated over it.

    Conventions.
    - Python [str] is [string]; slicing, [startswith] and [replace] are
      written out in [PyStr].
    - A state dict is an insertion-ordered Python [dict]: an association
      list whose keys are set with [dict_set] (module [PyDict]).
    - Code that can raise returns a [result]; [x ← e; k] sequences it.
    - Tensors, time embeddings and the host framework's modules are not
      part of the repository: they are the variables of the sections, and
      every operation on them can raise. *)

From Stdlib Require Import ZArith String Ascii List Bool Lia.
From stdpp Require Import base option list strings gmap.
Import ListNotations.

(* ================================================================== *)
(** ** Exceptions and fallible computations *)

Inductive exn : Type :=
| KeyError (k : string)
| IndexError
| AssertionError
| ValueError
| AttributeError
| ZeroDivisionError
| RuntimeError.

Inductive result (A : Type) : Type :=
| Ok (a : A)
| Raise (e : exn).

Arguments Ok {A} a.
Arguments Raise {A} e.

Global Instance result_ret : MRet result := fun A a => Ok a.

Global Instance result_bind : MBind result := fun A B k r =>
  match r with
  | Ok a => k a
  | Raise e => Raise e
  end.

(** [for x in l: s = f(s, x)], stopping at the first exception. *)
Fixpoint for_each {S A : Type} (f : S -> A -> result S) (l : list A) (s : S)
  : result S :=
  match l with
  | [] => Ok s
  | a :: l' => s' ← f s a; for_each f l' s'
  end.

Definition succeeds {A : Type} (r : result A) : Prop := exists a, r = Ok a.

(* ================================================================== *)
(** ** Python strings *)

Module PyStr.

(** [s.startswith(p)] *)
Definition startswith (s p : string) : bool := String.prefix p s.

(** [s[n:]] *)
Fixpoint slice_from (n : nat) (s : string) : string :=
  match n, s with
  | O, _ => s
  | S _, EmptyString => EmptyString
  | S n', String _ s' => slice_from n' s'
  end.

(** [s[:n]] *)
Fixpoint slice_to (n : nat) (s : string) : string :=
  match n, s with
  | O, _ => EmptyString
  | S _, EmptyString => EmptyString
  | S n', String c s' => String c (slice_to n' s')
  end.

(** [s.replace(old, new)] for a non-empty [old]: the occurrences of [old]
    are found scanning from the left and do not overlap.  [skip] counts the
    characters of a matched occurrence that are still to be passed over. *)
Fixpoint replace_from (old new s : string) (skip : nat) : string :=
  match s with
  | EmptyString => EmptyString
  | String c s' =>
      match skip with
      | S k => replace_from old new s' k
      | O =>
          if String.prefix old s
          then new +:+ replace_from old new s' (String.length old - 1)
          else String c (replace_from old new s' 0)
      end
  end.

(** With an empty [old] Python puts [new] before every character and at the
    end. *)
Fixpoint interleave (new s : string) : string :=
  match s with
  | EmptyString => new
  | String c s' => new +:+ String c (interleave new s')
  end.

Definition replace (s old new : string) : string :=
  match old with
  | EmptyString => interleave new s
  | String _ _ => replace_from old new s 0
  end.

End PyStr.

(* ================================================================== *)
(** ** Python dicts with string keys, in insertion order *)

Module PyDict.
Section Dict.
Context {V : Type}.

Definition dict : Type := list (string * V).

Definition keys (d : dict) : list string := map fst d.

(** [d.get(k)] *)
Fixpoint dict_get (d : dict) (k : string) : option V :=
  match d with
  | [] => None
  | (k', v) :: d' => if String.eqb k' k then Some v else dict_get d' k
  end.

(** [k in d] *)
Definition dict_mem (k : string) (d : dict) : bool :=
  match dict_get d k with Some _ => true | None => false end.

(** [d[k]] *)
Definition getitem (d : dict) (k : string) : result V :=
  match dict_get d k with
  | Some v => Ok v
  | None => Raise (KeyError k)
  end.

(** [d[k] = v]: an existing key keeps its place, a new one goes last. *)
Fixpoint dict_set (d : dict) (k : string) (v : V) : dict :=
  match d with
  | [] => [(k, v)]
  | (k', v') :: d' =>
      if String.eqb k' k then (k', v) :: d' else (k', v') :: dict_set d' k v
  end.

(** What a Python dict guarantees of its keys. *)
Definition well_formed (d : dict) : Prop := NoDup (keys d).

End Dict.
Arguments dict V : clear implicits.
End PyDict.
Import PyDict.

(* ================================================================== *)
(** ** Python lists and integers *)

Module PyList.

(** [l.pop()]: the last element and the list without it. *)
Fixpoint pop {A : Type} (l : list A) : result (A * list A) :=
  match l with
  | [] => Raise IndexError
  | [x] => Ok (x, [])
  | x :: l' => '(y, r) ← pop l'; Ok (y, x :: r)
  end.

(** [l[i]] for [0 <= i]. *)
Definition index {A : Type} (l : list A) (i : nat) : result A :=
  match l !! i with
  | Some x => Ok x
  | None => Raise IndexError
  end.

(** [enumerate(l)] *)
Definition enumerate {A : Type} (l : list A) : list (nat * A) :=
  zip (seq 0 (length l)) l.

(** [range(n)] *)
Definition range (n : Z) : list nat := seq 0 (Z.to_nat n).

(** [a // b] *)
Definition floordiv (a b : Z) : result Z :=
  if (b =? 0)%Z then Raise ZeroDivisionError else Ok (a / b)%Z.

(** [assert c] *)
Definition assert (c : bool) : result unit :=
  if c then Ok tt else Raise AssertionError.

End PyList.

(* ================================================================== *)
(** ** The tensor library, as far as the code relies on it *)

Module Torch.
Section Tensors.
(** The numbers held by a tensor, with their zero, sum and product:
    floating-point numbers in the program, so that a number need not be
    finite and a zero can carry a sign. *)
Variable Scalar : Type.
Variable szero : Scalar.
Variables sadd smul : Scalar -> Scalar -> Scalar.

Record Tensor : Type := { shape : list nat; entry : list nat -> Scalar }.

Definition all_zero (t : Tensor) : Prop := forall idx, entry t idx = szero.

(** Every entry of the tensor satisfies [P]. *)
Definition valued (P : Scalar -> Prop) (t : Tensor) : Prop :=
  forall idx, P (entry t idx).

(** [p.zero_()] *)
Definition zero_ (t : Tensor) : Tensor :=
  {| shape := shape t; entry := fun _ => szero |}.

(** [nn.Conv1d], [nn.Conv2d], [nn.Conv3d]: [conv_weight] has shape
    [out; in; k; ..; k] and [conv_bias] has shape [out]. *)
Record conv : Type := {
  conv_dims : nat;
  conv_in : nat;
  conv_out : nat;
  conv_kernel : nat;
  conv_padding : nat;
  conv_stride : nat;
  conv_weight : Tensor;
  conv_bias : Tensor
}.

(** [module.parameters()] *)
Definition parameters (c : conv) : list Tensor := [conv_weight c; conv_bias c].

(** Modelled from the spec: [conv_nd] of the host framework
    (ldm.modules.diffusionmodules.util) is not under src/.  It builds the
    convolution of the given spatial dimensionality, with freshly
    initialised parameters ([init], by shape), and rejects any other
    dimensionality. *)
Definition conv_nd (init : list nat -> Tensor)
    (dims cin cout k padding stride : Z) : result conv :=
  if ((dims =? 1) || (dims =? 2) || (dims =? 3))%Z then
    Ok {| conv_dims := Z.to_nat dims;
          conv_in := Z.to_nat cin;
          conv_out := Z.to_nat cout;
          conv_kernel := Z.to_nat k;
          conv_padding := Z.to_nat padding;
          conv_stride := Z.to_nat stride;
          conv_weight :=
            init (Z.to_nat cout :: Z.to_nat cin
                    :: replicate (Z.to_nat dims) (Z.to_nat k));
          conv_bias := init [Z.to_nat cout] |}
  else Raise ValueError.

(** Modelled from the spec: [zero_module] of the host framework
    (ldm.modules.diffusionmodules.util) is not under src/.  It zeroes every
    parameter of the module and returns the module: a zero convolution is
    "a convolutional projection initialized to all-zero weights and
    bias". *)
Definition zero_module (c : conv) : conv :=
  {| conv_dims := conv_dims c;
     conv_in := conv_in c;
     conv_out := conv_out c;
     conv_kernel := conv_kernel c;
     conv_padding := conv_padding c;
     conv_stride := conv_stride c;
     conv_weight := zero_ (conv_weight c);
     conv_bias := zero_ (conv_bias c) |}.

(** The kernel offsets [[0,k)^dims]. *)
Fixpoint offsets (dims k : nat) : list (list nat) :=
  match dims with
  | O => [[]]
  | S d => flat_map (fun i => map (cons i) (offsets d k)) (seq 0 k)
  end.

(** Along one axis of size [n]: the input position read at output position
    [pos] through kernel offset [off], or [None] inside the zero padding. *)
Definition tap (n stride padding pos off : nat) : option nat :=
  let i := pos * stride + off in
  if (padding <=? i) && (i - padding <? n) then Some (i - padding) else None.

Fixpoint taps (sizes : list nat) (stride padding : nat) (pos off : list nat)
  : option (list nat) :=
  match sizes, pos, off with
  | [], [], [] => Some []
  | n :: sizes', x :: pos', o :: off' =>
      i ← tap n stride padding x o;
      r ← taps sizes' stride padding pos' off';
      Some (i :: r)
  | _, _, _ => None
  end.

Definition sum (l : list Scalar) : Scalar := fold_right sadd szero l.

(** One entry of the convolution's output: output channel [o] at position
    [pos], for the leading (batch) indices [lead]. *)
Definition conv_entry (c : conv) (x : Tensor) (lead : list nat) (o : nat)
    (pos : list nat) : Scalar :=
  let spatial := drop (S (length lead)) (shape x) in
  sadd
    (sum (flat_map
            (fun ci =>
               map (fun off =>
                      smul (entry (conv_weight c) (o :: ci :: off))
                           (match taps spatial (conv_stride c)
                                       (conv_padding c) pos off with
                            | Some i => entry x (lead ++ ci :: i)
                            | None => szero
                            end))
                   (offsets (conv_dims c) (conv_kernel c)))
            (seq 0 (conv_in c))))
    (entry (conv_bias c) [o]).

(** Modelled from the spec: the tensor that the framework's convolution
    module, which is not under src/, gives on an input [C; spatial..] or
    [B; C; spatial..]. *)
Definition conv_output (c : conv) (x : Tensor) : Tensor :=
  let nlead := length (shape x) - S (conv_dims c) in
  {| shape :=
       take nlead (shape x)
         ++ conv_out c
         :: map (fun n => (n + 2 * conv_padding c - conv_kernel c)
                            / conv_stride c + 1)
                (drop (S nlead) (shape x));
     entry := fun idx =>
       match drop nlead idx with
       | o :: pos => conv_entry c x (take nlead idx) o pos
       | [] => szero
       end |}.

(** Modelled from the spec: the forward pass of the framework's
    convolution module, which is not under src/.  An input that is not
    [C; spatial..] or [B; C; spatial..] with [C] the convolution's input
    channels is a [RuntimeError]. *)
Definition conv_forward (c : conv) (x : Tensor) : result Tensor :=
  let rank := length (shape x) in
  let nlead := rank - S (conv_dims c) in
  let channels_fit :=
    match shape x !! nlead with
    | Some n => n =? conv_in c
    | None => false
    end in
  if ((rank =? S (conv_dims c)) || (rank =? S (S (conv_dims c))))
     && channels_fit
  then Ok (conv_output c x)
  else Raise RuntimeError.

(** [t.unsqueeze(0)] *)
Definition unsqueeze0 (t : Tensor) : Tensor :=
  {| shape := 1 :: shape t; entry := fun idx => entry t (tail idx) |}.

(** [t.squeeze(0)] *)
Definition squeeze0 (t : Tensor) : Tensor :=
  match shape t with
  | 1 :: sh => {| shape := sh; entry := fun idx => entry t (0 :: idx) |}
  | _ => t
  end.

(** [t.shape[-2:]] *)
Definition last2 (sh : list nat) : list nat := drop (length sh - 2) sh.

(** [t.shape[-1]] *)
Definition last_dim (sh : list nat) : result nat :=
  match last sh with
  | Some n => Ok n
  | None => Raise IndexError
  end.

End Tensors.

Arguments shape {Scalar} t.
Arguments unsqueeze0 {Scalar} t.
Arguments squeeze0 {Scalar} t.
Arguments entry {Scalar} t idx.
Arguments all_zero {Scalar} szero t.
Arguments valued {Scalar} P t.
Arguments zero_ {Scalar} szero t.
Arguments conv_dims {Scalar} c.
Arguments conv_in {Scalar} c.
Arguments conv_out {Scalar} c.
Arguments conv_kernel {Scalar} c.
Arguments conv_padding {Scalar} c.
Arguments conv_stride {Scalar} c.
Arguments conv_weight {Scalar} c.
Arguments conv_bias {Scalar} c.
Arguments parameters {Scalar} c.
Arguments conv_nd {Scalar} init dims cin cout k padding stride.
Arguments zero_module {Scalar} szero c.
Arguments conv_output {Scalar} szero sadd smul c x.
Arguments conv_forward {Scalar} szero sadd smul c x.
End Torch.

(* ================================================================== *)
(** ** scripts/cldm.py: checkpoint reconciliation *)

Module Cldm.

Import PyStr.

(** [shared.opts.data.get(key, default)] for a boolean setting. *)
Definition opts_get (data : gmap string bool) (key : string) (dflt : bool)
  : bool :=
  default dflt (data !! key).

Definition get_node_name (name parent_name : string) : bool * string :=
  if String.length name <=? String.length parent_name then (false, "")
  else
    let p := slice_to (String.length parent_name) name in
    if negb (String.eqb p parent_name) then (false, "")
    else (true, slice_from (String.length parent_name) name).

Section Reconcile.
(** Tensors.  [tadd p b] is [p + b.clone().cpu()] and [tsub s r] is
    [s - r]: the tensor library raises where the operands do not fit (a
    [RuntimeError] on shapes that do not broadcast). *)
Variable Tensor : Type.
Variable tadd tsub : Tensor -> Tensor -> result Tensor.

(** Lines 81-82: the name looked up in the base model's state dict. *)
Definition key_name_of (key : string) : string :=
  let '(is_control, node_name) := get_node_name key "control_" in
  if is_control then replace node_name "model." "" else key.

(** Body of the loop of lines 76-94; the state is
    [(final_state_dict, counter)]. *)
Definition transfer_entry (is_diff_model : bool)
    (state_dict unet_state_dict : dict Tensor)
    (st : dict Tensor * nat) (key : string) : result (dict Tensor * nat) :=
  let '(final_state_dict, counter) := st in
  if negb (startswith key "control_model.") then Ok st
  else
    p ← getitem state_dict key;
    let key_name := key_name_of key in
    if dict_mem key_name unet_state_dict then
      b ← getitem unet_state_dict key_name;
      if is_diff_model then
        p_new ← tadd p b;
        Ok (dict_set final_state_dict key p_new, S counter)
      else
        s ← tadd p b;
        r ← getitem state_dict ("model.diffusion_model." +:+ key_name);
        p_new ← tsub s r;
        Ok (dict_set final_state_dict key p_new, S counter)
    else
      Ok (dict_set final_state_dict key p, counter).

(** Lines 72-97. *)
Definition transfer_control (is_diff_model : bool)
    (state_dict unet_state_dict : dict Tensor)
  : result (dict Tensor * nat) :=
  for_each (transfer_entry is_diff_model state_dict unet_state_dict)
           (keys state_dict) ([], 0).

(** Line 99: the dict comprehension. *)
Definition strip_control_prefix (state_dict : dict Tensor) : dict Tensor :=
  fold_left
    (fun acc (kv : string * Tensor) =>
       if startswith (fst kv) "control_model."
       then dict_set acc (replace (fst kv) "control_model." "") (snd kv)
       else acc)
    state_dict [].

(** Lines 63-102 of [PlugableControlModel.__init__]: from the loaded
    state dict to the one given to [control_model.load_state_dict].
    [base_model] is the base model's [state_dict()], when supplied. *)
Definition reconcile (opts : gmap string bool)
    (base_model : option (dict Tensor)) (state_dict : dict Tensor)
  : result (dict Tensor) :=
  if existsb (fun k => startswith k "control_model.") (keys state_dict) then
    let is_diff_model := dict_mem "difference" state_dict in
    let transfer_ctrl_opt :=
      opts_get opts "control_net_control_transfer" false
      && existsb (fun k => startswith k "model.diffusion_model.")
                 (keys state_dict) in
    state_dict' ←
      (match base_model with
       | Some unet_state_dict =>
           if is_diff_model || transfer_ctrl_opt then
             '(final_state_dict, _) ←
               transfer_control is_diff_model state_dict unet_state_dict;
             Ok final_state_dict
           else Ok state_dict
       | None => Ok state_dict
       end);
    Ok (strip_control_prefix state_dict')
  else
    Ok state_dict.

(** *** Vocabulary for the properties of reconciliation *)

(** [control_key k]: the checkpoint key [k] is prefixed [control_model.]. *)
Definition control_key (k : string) : Prop :=
  startswith k "control_model." = true.

(** [reconciled d sd unet key v]: [v] is the value [p_new] of lines 80-93
    for [key]. *)
Definition reconciled (is_diff_model : bool)
    (state_dict unet_state_dict : dict Tensor) (key : string) (v : Tensor)
  : Prop :=
  exists p, dict_get state_dict key = Some p /\
    match dict_get unet_state_dict (key_name_of key) with
    | None => v = p
    | Some b =>
        if is_diff_model then tadd p b = Ok v
        else exists s r,
            tadd p b = Ok s /\
            dict_get state_dict ("model.diffusion_model." +:+ key_name_of key)
              = Some r /\ tsub s r = Ok v
    end.

(** The name under which line 99 stores a control key. *)
Definition stripped (k : string) : string := replace k "control_model." "".

(** One step of line 99. *)
Definition strip_step (acc : dict Tensor) (kv : string * Tensor) : dict Tensor :=
  if startswith kv.1 "control_model." then dict_set acc (stripped kv.1) kv.2
  else acc.

(** A checkpoint is bundled when some key is prefixed [control_model.]
    (line 63). *)
Definition bundled (state_dict : dict Tensor) : Prop :=
  existsb (fun k => startswith k "control_model.") (keys state_dict) = true.

(** The checkpoint also holds base-model keys (line 67). *)
Definition has_base_keys (state_dict : dict Tensor) : Prop :=
  existsb (fun k => startswith k "model.diffusion_model.") (keys state_dict)
  = true.

(** [old] occurs in [s]. *)
Definition occurs_in (old s : string) : Prop :=
  exists i, startswith (slice_from i s) old = true.

End Reconcile.

(* ---------------------------------------------------------------- *)
(** *** Loading a checkpoint *)

(** What a checkpoint file deserialises to: a tensor, or a dict of such
    values under string keys. *)
#[warnings="-register-all"]
Inductive pyobj (V : Type) : Type :=
| PyTensor (t : V)
| PyDict (items : list (string * pyobj V)).
Arguments PyTensor {V} t.
Arguments PyDict {V} items.

(** [get_state_dict], lines 34-35: [d.get('state_dict', d)]; only a dict
    has [get]. *)
Definition get_state_dict {V : Type} (d : pyobj V) : result (pyobj V) :=
  match d with
  | PyDict items => Ok (default d (dict_get items "state_dict"))
  | PyTensor _ => Raise AttributeError
  end.

(** A dict that holds [d] under ['state_dict'] only. *)
Definition wrapped {V : Type} (d : pyobj V) : pyobj V :=
  PyDict [("state_dict", d)].

Section Loading.
Variable V : Type.
(** [os.path.splitext], [str.lower], [safetensors.torch.load_file] and
    [torch.load] (with the path and the location). *)
Variable splitext : string -> string * string.
Variable lower : string -> string.
Variable load_file : string -> string -> pyobj V.
Variable torch_load : string -> string -> pyobj V.

(** [load_state_dict], lines 21-31. *)
Definition load_state_dict (ckpt_path location : string)
  : result (pyobj V) :=
  let '(_, extension) := splitext ckpt_path in
  state_dict ←
    (if String.eqb (lower extension) ".safetensors"
     then Ok (load_file ckpt_path location)
     else get_state_dict (torch_load ckpt_path location));
  get_state_dict state_dict.

End Loading.

(* ---------------------------------------------------------------- *)
(** *** The control network: [class ControlNet] *)

Import PyList Torch.

(** Constructor arguments, read from
    [model.params.control_stage_config.params]. *)
Module Cfg.
Record t (Scalar : Type) : Type := {
  image_size : Z;
  in_channels : Z;
  model_channels : Z;
  hint_channels : Z;
  num_res_blocks : Z + list Z;
  attention_resolutions : list Z;
  dropout : Scalar;
  channel_mult : list Z;
  conv_resample : bool;
  dims : Z;
  use_checkpoint : bool;
  use_fp16 : bool;
  num_heads : Z;
  num_head_channels : Z;
  num_heads_upsample : Z;
  use_scale_shift_norm : bool;
  resblock_updown : bool;
  use_new_attention_order : bool;
  use_spatial_transformer : bool;
  transformer_depth : Z;
  context_dim : option (Z + list Z);
  n_embed : option Z;
  legacy : bool;
  disable_self_attentions : option (list bool);
  num_attention_blocks : option (list Z);
  disable_middle_self_attn : bool;
  use_linear_in_transformer : bool
}.
Arguments image_size {Scalar} _.
Arguments in_channels {Scalar} _.
Arguments model_channels {Scalar} _.
Arguments hint_channels {Scalar} _.
Arguments num_res_blocks {Scalar} _.
Arguments attention_resolutions {Scalar} _.
Arguments dropout {Scalar} _.
Arguments channel_mult {Scalar} _.
Arguments conv_resample {Scalar} _.
Arguments dims {Scalar} _.
Arguments use_checkpoint {Scalar} _.
Arguments use_fp16 {Scalar} _.
Arguments num_heads {Scalar} _.
Arguments num_head_channels {Scalar} _.
Arguments num_heads_upsample {Scalar} _.
Arguments use_scale_shift_norm {Scalar} _.
Arguments resblock_updown {Scalar} _.
Arguments use_new_attention_order {Scalar} _.
Arguments use_spatial_transformer {Scalar} _.
Arguments transformer_depth {Scalar} _.
Arguments context_dim {Scalar} _.
Arguments n_embed {Scalar} _.
Arguments legacy {Scalar} _.
Arguments disable_self_attentions {Scalar} _.
Arguments num_attention_blocks {Scalar} _.
Arguments disable_middle_self_attn {Scalar} _.
Arguments use_linear_in_transformer {Scalar} _.
End Cfg.

(** [th.float16], [th.float32] *)
Inductive torch_dtype : Type := float16 | float32.

Section Network.
Variable Scalar : Type.
Variable szero : Scalar.
Variables sadd smul : Scalar -> Scalar -> Scalar.

Abbreviation Tensor := (Torch.Tensor Scalar).
Abbreviation conv := (Torch.conv Scalar).

(** The framework's initialiser of a fresh parameter of a given shape. *)
Variable init : list nat -> Tensor.

(** The sub-modules the constructor assembles.  A convolution is held
    with its parameters; the other modules belong to the host framework
    and are held as the constructor calls that make them. *)
Inductive layer : Type :=
| Conv (c : conv)
| SiLU
| Linear (n_in n_out : Z)
| ResBlock (channels emb_channels : Z) (p_dropout : Scalar)
    (out_channels : option Z) (n_dims : Z)
    (checkpoint scale_shift_norm down : bool)
| AttentionBlock (channels : Z) (checkpoint : bool)
    (heads head_channels : Z) (new_attention_order : bool)
| SpatialTransformer (channels heads dim_head depth : Z)
    (ctx_dim : option (Z + list Z))
    (disable_self_attn use_linear checkpoint : bool)
| Downsample (channels : Z) (use_conv : bool) (n_dims : Z)
    (out_channels : Z).

(** A [TimestepEmbedSequential] or [nn.Sequential] of layers. *)
Definition sequential : Type := list layer.

Record ControlNet : Type := {
  dims : Z;
  model_channels : Z;
  num_res_blocks : list Z;
  dtype : torch_dtype;
  time_embed : sequential;
  input_blocks : list sequential;
  zero_convs : list sequential;
  input_hint_block : sequential;
  _feature_size : Z;
  middle_block : sequential;
  middle_block_out : sequential
}.

(** [make_zero_conv], lines 419-420. *)
Definition make_zero_conv (n_dims channels : Z) : result sequential :=
  c ← conv_nd init n_dims channels channels 1 0 1;
  Ok [Conv (zero_module szero c)].

(** The local variables of the constructor that its loops update. *)
Record locals : Type := {
  l_input_blocks : list sequential;
  l_zero_convs : list sequential;
  l_feature_size : Z;
  l_input_block_chans : list Z;
  l_ch : Z;
  l_ds : Z;
  l_num_heads : Z
}.

Definition exists_ {A : Type} (x : option A) : bool :=
  match x with Some _ => true | None => false end.

(** Lines 321-328 and 378-385: [(num_heads, dim_head)] at an attention
    site. *)
Definition head_dims (cfg : Cfg.t Scalar) (ch num_heads : Z)
  : result (Z * Z) :=
  '(num_heads, dim_head) ←
    (if (Cfg.num_head_channels cfg =? -1)%Z then
       d ← floordiv ch num_heads; Ok (num_heads, d)
     else
       n ← floordiv ch (Cfg.num_head_channels cfg);
       Ok (n, Cfg.num_head_channels cfg));
  if Cfg.legacy cfg then
    d ← (if Cfg.use_spatial_transformer cfg then floordiv ch num_heads
         else Ok (Cfg.num_head_channels cfg));
    Ok (num_heads, d)
  else Ok (num_heads, dim_head).

(** [AttentionBlock(..) if not use_spatial_transformer else
    SpatialTransformer(..)] *)
Definition attention (cfg : Cfg.t Scalar) (ch num_heads dim_head : Z)
    (disable_self_attn : bool) : layer :=
  if negb (Cfg.use_spatial_transformer cfg) then
    AttentionBlock ch (Cfg.use_checkpoint cfg) num_heads dim_head
                   (Cfg.use_new_attention_order cfg)
  else
    SpatialTransformer ch num_heads dim_head (Cfg.transformer_depth cfg)
                       (Cfg.context_dim cfg) disable_self_attn
                       (Cfg.use_linear_in_transformer cfg)
                       (Cfg.use_checkpoint cfg).

(** Lines 308-351: one residual block of a level. *)
Definition res_step (cfg : Cfg.t Scalar) (time_embed_dim : Z)
    (level : nat) (mult : Z) (st : locals) (nr : nat) : result locals :=
  let layers :=
    [ResBlock (l_ch st) time_embed_dim (Cfg.dropout cfg)
              (Some (mult * Cfg.model_channels cfg)%Z) (Cfg.dims cfg)
              (Cfg.use_checkpoint cfg) (Cfg.use_scale_shift_norm cfg)
              false] in
  let ch := (mult * Cfg.model_channels cfg)%Z in
  '(layers, num_heads) ←
    (if bool_decide (l_ds st ∈ Cfg.attention_resolutions cfg) then
       '(num_heads, dim_head) ← head_dims cfg ch (l_num_heads st);
       disabled_sa ←
         (match Cfg.disable_self_attentions cfg with
          | Some dsa => index dsa level
          | None => Ok false
          end);
       attach ←
         (match Cfg.num_attention_blocks cfg with
          | None => Ok true
          | Some nab => n ← index nab level; Ok (Z.of_nat nr <? n)%Z
          end);
       if attach : bool then
         Ok (layers ++ [attention cfg ch num_heads dim_head disabled_sa],
             num_heads)
       else Ok (layers, num_heads)
     else Ok (layers, l_num_heads st));
  zc ← make_zero_conv (Cfg.dims cfg) ch;
  Ok {| l_input_blocks := l_input_blocks st ++ [layers];
        l_zero_convs := l_zero_convs st ++ [zc];
        l_feature_size := (l_feature_size st + ch)%Z;
        l_input_block_chans := l_input_block_chans st ++ [ch];
        l_ch := ch;
        l_ds := l_ds st;
        l_num_heads := num_heads |}.

(** Lines 352-376: the downsampling block that ends every level but the
    last. *)
Definition down_step (cfg : Cfg.t Scalar) (time_embed_dim : Z)
    (st : locals) : result locals :=
  let ch := l_ch st in
  let out_ch := ch in
  let block :=
    if Cfg.resblock_updown cfg then
      ResBlock ch time_embed_dim (Cfg.dropout cfg) (Some out_ch)
               (Cfg.dims cfg) (Cfg.use_checkpoint cfg)
               (Cfg.use_scale_shift_norm cfg) true
    else Downsample ch (Cfg.conv_resample cfg) (Cfg.dims cfg) out_ch in
  let ch := out_ch in
  zc ← make_zero_conv (Cfg.dims cfg) ch;
  Ok {| l_input_blocks := l_input_blocks st ++ [[block]];
        l_zero_convs := l_zero_convs st ++ [zc];
        l_feature_size := (l_feature_size st + ch)%Z;
        l_input_block_chans := l_input_block_chans st ++ [ch];
        l_ch := ch;
        l_ds := (l_ds st * 2)%Z;
        l_num_heads := l_num_heads st |}.

(** Lines 306-376: one level of the encoder. *)
Definition level_step (cfg : Cfg.t Scalar) (time_embed_dim : Z)
    (res_blocks : list Z) (st : locals) (lm : nat * Z) : result locals :=
  let '(level, mult) := lm in
  n ← index res_blocks level;
  st ← for_each (res_step cfg time_embed_dim level mult) (range n) st;
  if negb (Z.of_nat level =? Z.of_nat (length (Cfg.channel_mult cfg)) - 1)%Z
  then down_step cfg time_embed_dim st
  else Ok st.

(** Lines 284-300. *)
Definition make_input_hint_block (cfg : Cfg.t Scalar) : result sequential :=
  let d := Cfg.dims cfg in
  c1 ← conv_nd init d (Cfg.hint_channels cfg) 16 3 1 1;
  c2 ← conv_nd init d 16 16 3 1 1;
  c3 ← conv_nd init d 16 32 3 1 2;
  c4 ← conv_nd init d 32 32 3 1 1;
  c5 ← conv_nd init d 32 96 3 1 2;
  c6 ← conv_nd init d 96 96 3 1 1;
  c7 ← conv_nd init d 96 256 3 1 2;
  c8 ← conv_nd init d 256 (Cfg.model_channels cfg) 3 1 1;
  Ok [Conv c1; SiLU; Conv c2; SiLU; Conv c3; SiLU; Conv c4; SiLU;
      Conv c5; SiLU; Conv c6; SiLU; Conv c7; SiLU;
      Conv (zero_module szero c8)].

(** Lines 216-255: the checks of the arguments; the result is
    [self.num_res_blocks]. *)
Definition check_config (cfg : Cfg.t Scalar) : result (list Z) :=
  _ ← (if Cfg.use_spatial_transformer cfg
       then assert (exists_ (Cfg.context_dim cfg)) else Ok tt);
  _ ← (if exists_ (Cfg.context_dim cfg)
       then assert (Cfg.use_spatial_transformer cfg) else Ok tt);
  _ ← (if (Cfg.num_heads cfg =? -1)%Z
       then assert (negb (Cfg.num_head_channels cfg =? -1)%Z) else Ok tt);
  _ ← (if (Cfg.num_head_channels cfg =? -1)%Z
       then assert (negb (Cfg.num_heads cfg =? -1)%Z) else Ok tt);
  res_blocks ←
    (match Cfg.num_res_blocks cfg with
     | inl n => Ok (replicate (length (Cfg.channel_mult cfg)) n)
     | inr l =>
         if negb (length l =? length (Cfg.channel_mult cfg))
         then Raise ValueError else Ok l
     end);
  _ ← (match Cfg.disable_self_attentions cfg with
       | Some dsa => assert (length dsa =? length (Cfg.channel_mult cfg))
       | None => Ok tt
       end);
  _ ← (match Cfg.num_attention_blocks cfg with
       | Some nab =>
           _ ← assert (length nab =? length res_blocks);
           for_each
             (fun (_ : unit) i =>
                r ← index res_blocks i;
                a ← index nab i;
                assert (a <=? r)%Z)
             (seq 0 (length nab)) tt
       | None => Ok tt
       end);
  Ok res_blocks.

(** [ControlNet.__init__], lines 184-417. *)
Definition ControlNet_init (cfg : Cfg.t Scalar) : result ControlNet :=
  res_blocks ← check_config cfg;
  let mc := Cfg.model_channels cfg in
  let time_embed_dim := (mc * 4)%Z in
  let time_embed :=
    [Linear mc time_embed_dim; SiLU;
     Linear time_embed_dim time_embed_dim] in
  c0 ← conv_nd init (Cfg.dims cfg) (Cfg.in_channels cfg) mc 3 1 1;
  zc0 ← make_zero_conv (Cfg.dims cfg) mc;
  hint_block ← make_input_hint_block cfg;
  st ← for_each (level_step cfg time_embed_dim res_blocks)
         (enumerate (Cfg.channel_mult cfg))
         {| l_input_blocks := [[Conv c0]];
            l_zero_convs := [zc0];
            l_feature_size := mc;
            l_input_block_chans := [mc];
            l_ch := mc;
            l_ds := 1;
            l_num_heads := Cfg.num_heads cfg |};
  let ch := l_ch st in
  '(num_heads, dim_head) ← head_dims cfg ch (l_num_heads st);
  let middle :=
    [ResBlock ch time_embed_dim (Cfg.dropout cfg) None (Cfg.dims cfg)
              (Cfg.use_checkpoint cfg) (Cfg.use_scale_shift_norm cfg)
              false;
     attention cfg ch num_heads dim_head
               (Cfg.disable_middle_self_attn cfg);
     ResBlock ch time_embed_dim (Cfg.dropout cfg) None (Cfg.dims cfg)
              (Cfg.use_checkpoint cfg) (Cfg.use_scale_shift_norm cfg)
              false] in
  zc_mid ← make_zero_conv (Cfg.dims cfg) ch;
  Ok {| dims := Cfg.dims cfg;
        model_channels := mc;
        num_res_blocks := res_blocks;
        dtype := if Cfg.use_fp16 cfg then float16 else float32;
        time_embed := time_embed;
        input_blocks := l_input_blocks st;
        zero_convs := l_zero_convs st;
        input_hint_block := hint_block;
        _feature_size := (l_feature_size st + ch)%Z;
        middle_block := middle;
        middle_block_out := zc_mid |}.

(* ---------------------------------------------------------------- *)
(** *** The forward pass of the control network *)

(** What the code takes from the host framework and the tensor library:
    timestep embeddings, the application of the framework's own modules,
    casts, and the tensor operations [+], [*], [torch.cat] and
    [torch.nn.functional.interpolate].  Each of them can raise: on
    [timesteps = None], on shapes that do not fit, and so on. *)
Variables Timesteps TEmb Emb Ctx : Type.
Variable timestep_embedding : option Timesteps -> Z -> result TEmb.
Variable run_embed : sequential -> TEmb -> result Emb.
Variable run_ext : layer -> Tensor -> Emb -> Ctx -> result Tensor.
Variable cast : torch_dtype -> Tensor -> result Tensor.
Variable dtype_of : Tensor -> torch_dtype.
Variable tadd : Tensor -> Tensor -> result Tensor.
Variable tscale : Tensor -> Scalar -> result Tensor.
Variable cat : Tensor -> Tensor -> result Tensor.
Variable interpolate : Tensor -> list nat -> result Tensor.

(** A [TimestepEmbedSequential] applies its layers in turn. *)
Definition run_layer (l : layer) (x : Tensor) (emb : Emb) (context : Ctx)
  : result Tensor :=
  match l with
  | Conv c => conv_forward szero sadd smul c x
  | _ => run_ext l x emb context
  end.

Definition run (m : sequential) (x : Tensor) (emb : Emb) (context : Ctx)
  : result Tensor :=
  for_each (fun h l => run_layer l h emb context) m x.

(** [align], lines 38-43. *)
Definition align (hint : Tensor) (size : list nat) : result Tensor :=
  match shape hint with
  | [b; c; h1; w1] =>
      match size with
      | [h; w] =>
          if negb (h =? h1) || negb (w =? w1)
          then interpolate hint size else Ok hint
      | _ => Raise ValueError
      end
  | _ => Raise ValueError
  end.

(** [ControlNet.align], lines 422-427. *)
Definition ControlNet_align (hint : Tensor) (h w : nat) : result Tensor :=
  match shape hint with
  | [c; h1; w1] =>
      if negb (h =? h1) || negb (w =? w1) then
        hint ← align (unsqueeze0 hint) [h; w];
        Ok (squeeze0 hint)
      else Ok hint
  | _ => Raise ValueError
  end.

(** Body of the loop of lines 442-449; the state is
    [(h, guided_hint, outs)]. *)
Definition encoder_step (emb : Emb) (context : Ctx)
    (st : Tensor * option Tensor * list Tensor)
    (mz : sequential * sequential)
  : result (Tensor * option Tensor * list Tensor) :=
  let '(h, guided_hint, outs) := st in
  let '(module, zero_conv) := mz in
  h ← run module h emb context;
  h ← (match guided_hint with
       | Some g => tadd h g
       | None => Ok h
       end);
  o ← run zero_conv h emb context;
  Ok (h, None, outs ++ [o]).

(** [ControlNet.forward], lines 429-454. *)
Definition ControlNet_forward (self : ControlNet) (x hint : Tensor)
    (timesteps : option Timesteps) (context : Ctx) : result (list Tensor) :=
  t_emb ← timestep_embedding timesteps (model_channels self);
  emb ← run_embed (time_embed self) t_emb;
  guided_hint ← run (input_hint_block self) hint emb context;
  '(h1, w1) ←
    (match last2 (shape x) with
     | [h1; w1] => Ok (h1, w1)
     | _ => Raise ValueError
     end);
  guided_hint ← ControlNet_align guided_hint h1 w1;
  h ← cast (dtype self) x;
  '(h, _, outs) ←
    for_each (encoder_step emb context)
             (zip (input_blocks self) (zero_convs self))
             (h, Some guided_hint, []);
  h ← run (middle_block self) h emb context;
  o ← run (middle_block_out self) h emb context;
  Ok (outs ++ [o]).

(* ---------------------------------------------------------------- *)
(** *** The hosting wrapper: [class PlugableControlModel] *)

Record PlugableControlModel : Type := {
  control_model : ControlNet;
  lowvram : bool;
  weight : Scalar;
  only_mid_control : bool;
  control : option Tensor;
  hint_cond : option Tensor
}.

(** The callables that can be the host network's [forward]: the wrapper's
    [forward2] bound to the network, or any callable [f] that is not this
    repository's (the class's own [forward] among them). *)
Variable Fwd : Type.
Variable run_foreign :
  Fwd -> Tensor -> option Timesteps -> Ctx -> result Tensor.

Inductive callable : Type :=
| Foreign (f : Fwd)
| Forward2.

(** A module of the host network. *)
Definition block : Type := Tensor -> Emb -> Ctx -> result Tensor.

(** The host network: what the hook reads of it, the [forward] of its
    class, and the attributes set on the instance. *)
Record UNetModel : Type := {
  u_model_channels : Z;
  u_dtype : torch_dtype;
  u_time_embed : TEmb -> result Emb;
  u_input_blocks : list block;
  u_middle_block : block;
  u_output_blocks : list block;
  u_out : Tensor -> result Tensor;
  class_forward : callable;
  attrs : gmap string callable
}.

Definition with_attrs (model : UNetModel) (a : gmap string callable)
  : UNetModel :=
  {| u_model_channels := u_model_channels model;
     u_dtype := u_dtype model;
     u_time_embed := u_time_embed model;
     u_input_blocks := u_input_blocks model;
     u_middle_block := u_middle_block model;
     u_output_blocks := u_output_blocks model;
     u_out := u_out model;
     class_forward := class_forward model;
     attrs := a |}.

(** [model.forward]: the instance attribute, else the class's method. *)
Definition get_forward (model : UNetModel) : callable :=
  default (class_forward model) (attrs model !! "forward").

(** Lines 118-123: [only_mid_control] for one call. *)
Definition hires_only_mid_control (opts : gmap string bool)
    (outer : PlugableControlModel) (x : Tensor) : result bool :=
  let only_mid_control := only_mid_control outer in
  xw ← last_dim (shape x);
  hint ← (match hint_cond outer with
          | Some t => Ok t
          | None => Raise AttributeError
          end);
  hw ← last_dim (shape hint);
  if (Z.abs (Z.of_nat xw - Z.of_nat hw / 8) >? 8)%Z
  then Ok (opts_get opts "control_net_only_midctrl_hires" true)
  else Ok only_mid_control.

(** Body of the loop of lines 142-149; the state is [(h, hs, control)]. *)
Definition decoder_step (outer : PlugableControlModel)
    (only_mid_control : bool) (emb : Emb) (context : Ctx)
    (st : Tensor * list Tensor * list Tensor) (module : block)
  : result (Tensor * list Tensor * list Tensor) :=
  let '(h, hs, control) := st in
  '(h, hs, control) ←
    (if only_mid_control then
       '(e, hs) ← pop hs;
       h ← cat h e;
       Ok (h, hs, control)
     else
       '(hs_input, hs) ← pop hs;
       '(control_input, control) ← pop control;
       h ← align h (last2 (shape hs_input));
       scaled ← tscale control_input (weight outer);
       added ← tadd hs_input scaled;
       h ← cat h added;
       Ok (h, hs, control));
  h ← module h emb context;
  Ok (h, hs, control).

(** One pass of the loop of lines 135-137; the state is [(h, hs)]. *)
Definition host_step (emb : Emb) (context : Ctx)
    (st : Tensor * list Tensor) (module : block)
  : result (Tensor * list Tensor) :=
  h ← module st.1 emb context;
  Ok (h, st.2 ++ [h]).

(** Lines 118-140 of the hook's [forward]: up to the decoder loop.  The
    result is [only_mid_control], [emb] and the locals [(h, hs, control)]
    with which the loop starts. *)
Definition forward_encoder (opts : gmap string bool)
    (outer : PlugableControlModel) (self : UNetModel) (x : Tensor)
    (timesteps : option Timesteps) (context : Ctx)
  : result (bool * Emb * (Tensor * list Tensor * list Tensor)) :=
  only_mid_control ← hires_only_mid_control opts outer x;
  hint ← (match hint_cond outer with
          | Some t => Ok t
          | None => Raise AttributeError
          end);
  control ← ControlNet_forward (control_model outer) x hint timesteps context;
  _ ← assert (exists_ timesteps);
  t_emb ← timestep_embedding timesteps (u_model_channels self);
  emb ← u_time_embed self t_emb;
  h ← cast (u_dtype self) x;
  '(h, hs) ← for_each (host_step emb context) (u_input_blocks self) (h, []);
  h ← u_middle_block self h emb context;
  '(c, control) ← pop control;
  h ← tadd h c;
  Ok (only_mid_control, emb, (h, hs, control)).

(** Lines 118-149: up to the end of the decoder loop, with the local lists
    [hs] and [control] as the loop leaves them. *)
Definition forward_decoder (opts : gmap string bool)
    (outer : PlugableControlModel) (self : UNetModel) (x : Tensor)
    (timesteps : option Timesteps) (context : Ctx)
  : result (Tensor * list Tensor * list Tensor) :=
  '(only_mid_control, emb, st) ←
    forward_encoder opts outer self x timesteps context;
  for_each (decoder_step outer only_mid_control emb context)
           (u_output_blocks self) st.

(** The hook's [forward], lines 117-152. *)
Definition forward (opts : gmap string bool) (outer : PlugableControlModel)
    (self : UNetModel) (x : Tensor) (timesteps : option Timesteps)
    (context : Ctx) : result Tensor :=
  '(h, _, _) ← forward_decoder opts outer self x timesteps context;
  h ← cast (dtype_of x) h;
  u_out self h.

(** The two objects the methods work on, and the device the control
    network is on. *)
Variable device : Type.
Variable cpu : device.
Variable get_device_for : string -> device.

Record world : Type := {
  wrapper : PlugableControlModel;
  unet : UNetModel;
  control_device : device
}.

(** Lines 104-112 of [PlugableControlModel.__init__], after the reconciled
    state dict is loaded into [control_model]: the fields of the wrapper and
    the device the control network is left on. *)
Definition init_fields (control_model : ControlNet) (weight : Scalar)
    (lowvram : bool) : PlugableControlModel * device :=
  ({| control_model := control_model;
      lowvram := lowvram;
      weight := weight;
      only_mid_control := false;
      control := None;
      hint_cond := None |},
   if negb lowvram then get_device_for "controlnet" else cpu).

(** The hook's [forward2], lines 154-164.  The eviction of the host's other
    components under [shared.cmd_opts.lowvram] touches nothing of [world]. *)
Definition forward2 (opts : gmap string bool) (w : world) (x : Tensor)
    (timesteps : option Timesteps) (context : Ctx) : world * result Tensor :=
  let self := wrapper w in
  let r := forward opts self (unet w) x timesteps context in
  ({| wrapper := wrapper w;
      unet := unet w;
      control_device := if lowvram self then cpu else control_device w |},
   r).

(** Calling the host network. *)
Definition call (c : callable) (opts : gmap string bool) (w : world)
    (x : Tensor) (timesteps : option Timesteps) (context : Ctx)
  : world * result Tensor :=
  match c with
  | Foreign f => (w, run_foreign f x timesteps context)
  | Forward2 => forward2 opts w x timesteps context
  end.

(** [hook], lines 166-167. *)
Definition hook (model : UNetModel) : UNetModel :=
  let model :=
    with_attrs model (<["_original_forward" := get_forward model]> (attrs model)) in
  with_attrs model (<["forward" := Forward2]> (attrs model)).

(** [notify], lines 169-172. *)
Definition notify (self : PlugableControlModel) (cond_like : option Tensor)
    (weight : Scalar) : PlugableControlModel :=
  {| control_model := control_model self;
     lowvram := lowvram self;
     weight := weight;
     only_mid_control := only_mid_control self;
     control := control self;
     hint_cond := cond_like |}.

(** [restore], lines 174-180. *)
Definition restore (model : UNetModel) : UNetModel :=
  match attrs model !! "_original_forward" with
  | None => model
  | Some original_forward =>
      let model :=
        with_attrs model (<["forward" := original_forward]> (attrs model)) in
      with_attrs model (delete "_original_forward" (attrs model))
  end.

(** The methods as steps of the program: [self] is the wrapper and [model]
    the host network. *)
Definition do_hook (w : world) : world :=
  {| wrapper := wrapper w; unet := hook (unet w);
     control_device := control_device w |}.

Definition do_notify (cond_like : option Tensor) (weight : Scalar) (w : world)
  : world :=
  {| wrapper := notify (wrapper w) cond_like weight; unet := unet w;
     control_device := control_device w |}.

Definition do_restore (w : world) : world :=
  {| wrapper := wrapper w; unet := restore (unet w);
     control_device := control_device w |}.

(* ---------------------------------------------------------------- *)
(** *** Vocabulary for the properties of the network and the hook *)

(** Every parameter of the convolution is zero. *)
Definition zeroed (c : conv) : Prop :=
  Forall (all_zero szero) (parameters c).

(** The module is one zero convolution, as [make_zero_conv] builds it. *)
Definition is_zero_conv (m : sequential) : Prop :=
  exists c, m = [Conv c] /\ zeroed c.

(** The invariant of the constructor's loops: one zero convolution per
    encoder block. *)
Definition paired (st : locals) : Prop :=
  length (l_zero_convs st) = length (l_input_blocks st) /\
  Forall is_zero_conv (l_zero_convs st).

(** The heads are given: not both [num_heads] and [num_head_channels] are
    [-1]. *)
Definition heads_given (cfg : Cfg.t Scalar) : Prop :=
  ~ (Cfg.num_heads cfg = (-1)%Z /\ Cfg.num_head_channels cfg = (-1)%Z).

(** The activations of the encoder: the output of each encoder block in
    turn, the guided hint being added to the first one only. *)
Fixpoint activations (emb : Emb) (context : Ctx) (h : Tensor)
    (guided_hint : option Tensor) (blocks : list sequential)
  : result (list Tensor) :=
  match blocks with
  | [] => Ok []
  | b :: bs =>
      h' ← run b h emb context;
      h' ← (match guided_hint with
            | Some g => tadd h' g
            | None => Ok h'
            end);
      rest ← activations emb context h' None bs;
      Ok (h' :: rest)
  end.

(** The [emb] of a call of the control network. *)
Definition control_emb (net : ControlNet) (timesteps : option Timesteps)
  : result Emb :=
  t_emb ← timestep_embedding timesteps (model_channels net);
  run_embed (time_embed net) t_emb.

(** The tensors from which the control network computes its outputs: the
    activation of each encoder block, in the order of the blocks, then the
    middle block's. *)
Definition output_activations (net : ControlNet) (x : Tensor)
    (guided_hint : Tensor) (emb : Emb) (context : Ctx)
  : result (list Tensor) :=
  h0 ← cast (dtype net) x;
  acts ← activations emb context h0 (Some guided_hint) (input_blocks net);
  hm ← run (middle_block net) (default h0 (last acts)) emb context;
  Ok (acts ++ [hm]).

(** The outputs of the control network for a given guided hint: the zero
    convolution of each encoder block on that block's activation, in the
    order of the blocks, then the middle block's zero convolution on the
    middle block's activation. *)
Definition ordered_outputs (net : ControlNet) (x : Tensor)
    (guided_hint : Tensor) (emb : Emb) (context : Ctx)
  : result (list Tensor) :=
  acts ← output_activations net x guided_hint emb context;
  mapM (fun za : sequential * Tensor => run za.1 za.2 emb context)
       (zip (zero_convs net ++ [middle_block_out net]) acts).

(** The host's encoder pass and middle block, lines 134-138. *)
Definition host_middle (self : UNetModel) (x : Tensor) (emb : Emb)
    (context : Ctx) : result Tensor :=
  h ← cast (u_dtype self) x;
  st ← for_each (host_step emb context) (u_input_blocks self) (h, []);
  u_middle_block self st.1 emb context.

End Network.

Arguments dims {Scalar} _.
Arguments model_channels {Scalar} _.
Arguments num_res_blocks {Scalar} _.
Arguments dtype {Scalar} _.
Arguments time_embed {Scalar} _.
Arguments input_blocks {Scalar} _.
Arguments zero_convs {Scalar} _.
Arguments input_hint_block {Scalar} _.
Arguments _feature_size {Scalar} _.
Arguments middle_block {Scalar} _.
Arguments middle_block_out {Scalar} _.
Arguments Conv {Scalar} c.
Arguments SiLU {Scalar}.
Arguments control_model {Scalar} _.
Arguments lowvram {Scalar} _.
Arguments weight {Scalar} _.
Arguments only_mid_control {Scalar} _.
Arguments control {Scalar} _.
Arguments hint_cond {Scalar} _.
Arguments Foreign {Fwd} f.
Arguments Forward2 {Fwd}.
Arguments u_model_channels {Scalar TEmb Emb Ctx Fwd} _.
Arguments u_dtype {Scalar TEmb Emb Ctx Fwd} _.
Arguments u_time_embed {Scalar TEmb Emb Ctx Fwd} _.
Arguments u_input_blocks {Scalar TEmb Emb Ctx Fwd} _.
Arguments u_middle_block {Scalar TEmb Emb Ctx Fwd} _.
Arguments u_output_blocks {Scalar TEmb Emb Ctx Fwd} _.
Arguments u_out {Scalar TEmb Emb Ctx Fwd} _.
Arguments class_forward {Scalar TEmb Emb Ctx Fwd} _.
Arguments attrs {Scalar TEmb Emb Ctx Fwd} _.
Arguments with_attrs {Scalar TEmb Emb Ctx Fwd} model a.
Arguments get_forward {Scalar TEmb Emb Ctx Fwd} model.
Arguments hires_only_mid_control {Scalar} opts outer x.
Arguments wrapper {Scalar TEmb Emb Ctx Fwd device} _.
Arguments unet {Scalar TEmb Emb Ctx Fwd device} _.
Arguments control_device {Scalar TEmb Emb Ctx Fwd device} _.
Arguments hook {Scalar TEmb Emb Ctx Fwd} model.
Arguments notify {Scalar} self cond_like weight.
Arguments restore {Scalar TEmb Emb Ctx Fwd} model.
Arguments do_hook {Scalar TEmb Emb Ctx Fwd device} w.
Arguments do_notify {Scalar TEmb Emb Ctx Fwd device} cond_like weight w.
Arguments do_restore {Scalar TEmb Emb Ctx Fwd device} w.

End Cldm.

(* ================================================================== *)
(** ** scripts/processor.py: the annotators *)

Module Processor.

(** An image is a [H x W x C] array of [uint8] values. *)
Definition image : Type := list (list (list Z)).

(** The [apply_*] callables of the [annotator] package. *)
Inductive detector : Type :=
| apply_canny
| apply_hed
| apply_mlsd
| apply_midas
| apply_openpose
| apply_uniformer.

(** What leaves the module: an import of a detector on first use, a call of
    a detector, a call of a detector's [unload_*_model]. *)
Inductive event : Type :=
| Import (d : detector)
| Call (d : detector)
| UnloadModel (d : detector).

(** The module's global variables [model_*] (a name bound to [None] is
    absent from [slots]) and what has left the module so far. *)
Record globals : Type := {
  slots : gmap string detector;
  trace : list event
}.

(** The state after the module is imported. *)
Definition initial : globals := {| slots := ∅; trace := [] |}.

Definition emit (e : event) (g : globals) : globals :=
  {| slots := slots g; trace := trace g ++ [e] |}.

Definition assign (name : string) (d : detector) (g : globals) : globals :=
  {| slots := <[name := d]> (slots g); trace := trace g |}.

(** [if model_x is None: from annotator.x import apply_x; model_x = apply_x] *)
Definition load_once (name : string) (d : detector) (g : globals) : globals :=
  match slots g !! name with
  | None => assign name d (emit (Import d) g)
  | Some _ => g
  end.

(** [if model_x is not None: from annotator.x import unload_x_model;
    unload_x_model()] *)
Definition unload_if_loaded (name : string) (d : detector) (g : globals)
  : globals :=
  match slots g !! name with
  | Some _ => emit (UnloadModel d) g
  | None => g
  end.

(** [np.min(px)] over the channels of one pixel. *)
Definition np_min (px : list Z) : result Z :=
  match px with
  | [] => Raise ValueError
  | v :: r => Ok (fold_left Z.min r v)
  end.

(** [np.zeros_like(img, dtype=np.uint8)] *)
Definition zeros_like (img : image) : image :=
  map (map (map (fun _ => 0%Z))) img.

(** [result[mask] = v] for a [H x W] mask. *)
Definition set_where (mask : list (list bool)) (v : Z) (result : image)
  : image :=
  zip_with (zip_with (fun (m : bool) px => if m then map (fun _ => v) px else px))
           mask result.

(** [a[a > t] = v] and [a[a < t] = v] on every entry. *)
Definition set_above (t v : Z) (a : image) : image :=
  map (map (map (fun x => if (x >? t)%Z then v else x))) a.

Definition set_below (t v : Z) (a : image) : image :=
  map (map (map (fun x => if (x <? t)%Z then v else x))) a.

(** *** Vocabulary for the properties of the annotators *)

(** One pixel of the output: 255 on every channel where the least channel of
    the input pixel is below 127, else 0 on every channel. *)
Definition scribble_pixel (px : list Z) : list Z :=
  match np_min px with
  | Ok m => map (fun _ => if (m <? 127)%Z then 255%Z else 0%Z) px
  | Raise _ => []
  end.

(** The complement of an image: [255 - v] at every entry. *)
Definition invert (img : image) : image :=
  map (map (map (fun v => (255 - v)%Z))) img.

(** The image has at least one pixel. *)
Definition has_pixel (img : image) : Prop :=
  exists row px, row ∈ img /\ px ∈ row.

(** The modalities that have an unload operation, and the detection
    operations that use each one's cache slot. *)
Inductive modality : Type := Hed | Mlsd | Midas | Openpose | Uniformer.

Inductive detection : Type :=
| DHed | DFakeScribble | DMlsd | DMidas | DMidasNormal
| DOpenpose | DOpenposeHand | DUniformer.

(** The cache slot a detection operation uses. *)
Definition modality_of (op : detection) : modality :=
  match op with
  | DHed | DFakeScribble => Hed
  | DMlsd => Mlsd
  | DMidas | DMidasNormal => Midas
  | DOpenpose | DOpenposeHand => Openpose
  | DUniformer => Uniformer
  end.

Definition slot_name (m : modality) : string :=
  match m with
  | Hed => "model_hed"
  | Mlsd => "model_mlsd"
  | Midas => "model_midas"
  | Openpose => "model_openpose"
  | Uniformer => "model_uniformer"
  end.

Definition detector_of (m : modality) : detector :=
  match m with
  | Hed => apply_hed
  | Mlsd => apply_mlsd
  | Midas => apply_midas
  | Openpose => apply_openpose
  | Uniformer => apply_uniformer
  end.

(** The global variable that caches a detector. *)
Definition slot_of (d : detector) : string :=
  match d with
  | apply_canny => "model_canny"
  | apply_hed => "model_hed"
  | apply_mlsd => "model_mlsd"
  | apply_midas => "model_midas"
  | apply_openpose => "model_openpose"
  | apply_uniformer => "model_uniformer"
  end.

(** 255 where an entry is above 10, else 0. *)
Definition binarise (a : image) : image :=
  map (map (map (fun x => if (x >? 10)%Z then 255%Z else 0%Z))) a.

(** The globals of a module whose detectors are loaded on first use: a
    slot holds nothing but its own detector, it holds it exactly when the
    detector's import has left the module, no detector is imported twice, and
    a detector or its [unload_*_model] is called only after the detector's
    import. *)
Definition lazily_loaded (g : globals) : Prop :=
  (forall name d, slots g !! name = Some d -> name = slot_of d) /\
  (forall d, is_Some (slots g !! slot_of d) <-> Import d ∈ trace g) /\
  (forall d i j,
     trace g !! i = Some (Import d) -> trace g !! j = Some (Import d) ->
     i = j) /\
  (forall i d e,
     trace g !! i = Some e -> e = Call d \/ e = UnloadModel d ->
     exists j, j < i /\ trace g !! j = Some (Import d)).

(** One pixel and its output agree with the threshold of line 21: as many
    channels, all 255 where some channel of the pixel is below 127, all 0
    where none is. *)
Definition thresholded (px out : list Z) : Prop :=
  length out = length px /\
  ((Exists (fun v => (v < 127)%Z) px /\ Forall (fun v => v = 255%Z) out) \/
   (Forall (fun v => (127 <= v)%Z) px /\ Forall (fun v => v = 0%Z) out)).

Section Annotators.
(** [annotator.util]. *)
Variable HWC3 : image -> image.
Variable resize_image : image -> Z -> image.

(** The detectors, and the two OpenCV helpers of [fake_scribble]. *)
Variable Float : Type.
Variable Pose : Type.
Variable canny_fn : image -> Z -> Z -> image.
Variable hed_fn : image -> image.
Variable mlsd_fn : image -> Float -> Float -> image.
Variable midas_fn : image -> Float -> option Float -> image * image.
Variable openpose_fn : image -> bool -> image * Pose.
Variable uniformer_fn : image -> image.
Variable nms : image -> Z -> Float -> image.
Variable GaussianBlur : image -> Float -> image.
(** The float [3.0]. *)
Variable f3_0 : Float.

Definition canny (img : image) (res l h : Z) (g : globals) : globals * image :=
  let img := resize_image (HWC3 img) res in
  let g := load_once "model_canny" apply_canny g in
  (emit (Call apply_canny) g, canny_fn img l h).

Definition simple_scribble (img : image) (res : Z) : result image :=
  let img := resize_image (HWC3 img) res in
  let result := zeros_like img in
  mins ← mapM (mapM np_min) img;
  Ok (set_where (map (map (fun m => (m <? 127)%Z)) mins) 255 result).

Definition hed (img : image) (res : Z) (g : globals) : globals * image :=
  let img := resize_image (HWC3 img) res in
  let g := load_once "model_hed" apply_hed g in
  (emit (Call apply_hed) g, hed_fn img).

Definition unload_hed (g : globals) : globals :=
  unload_if_loaded "model_hed" apply_hed g.

Definition fake_scribble (img : image) (res : Z) (g : globals)
  : globals * image :=
  let '(g, result) := hed img res g in
  let result := nms result 127 f3_0 in
  let result := GaussianBlur result f3_0 in
  let result := set_above 10 255 result in
  let result := set_below 255 0 result in
  (g, result).

Definition mlsd (img : image) (res : Z) (thr_v thr_d : Float) (g : globals)
  : globals * image :=
  let img := resize_image (HWC3 img) res in
  let g := load_once "model_mlsd" apply_mlsd g in
  (emit (Call apply_mlsd) g, mlsd_fn img thr_v thr_d).

Definition unload_mlsd (g : globals) : globals :=
  unload_if_loaded "model_mlsd" apply_mlsd g.

Definition midas (img : image) (res : Z) (a : Float) (g : globals)
  : globals * image :=
  let img := resize_image (HWC3 img) res in
  let g := load_once "model_midas" apply_midas g in
  (emit (Call apply_midas) g, fst (midas_fn img a None)).

Definition midas_normal (img : image) (res : Z) (a bg_th : Float)
    (g : globals) : globals * image :=
  let img := resize_image (HWC3 img) res in
  let g := load_once "model_midas" apply_midas g in
  (emit (Call apply_midas) g, snd (midas_fn img a (Some bg_th))).

Definition unload_midas (g : globals) : globals :=
  unload_if_loaded "model_midas" apply_midas g.

Definition openpose (img : image) (res : Z) (has_hand : bool) (g : globals)
  : globals * image :=
  let img := resize_image (HWC3 img) res in
  let g := load_once "model_openpose" apply_openpose g in
  (emit (Call apply_openpose) g, fst (openpose_fn img has_hand)).

Definition openpose_hand (img : image) (res : Z) (has_hand : bool)
    (g : globals) : globals * image :=
  let img := resize_image (HWC3 img) res in
  let g := load_once "model_openpose" apply_openpose g in
  (emit (Call apply_openpose) g, fst (openpose_fn img has_hand)).

Definition unload_openpose (g : globals) : globals :=
  unload_if_loaded "model_openpose" apply_openpose g.

Definition uniformer (img : image) (res : Z) (g : globals) : globals * image :=
  let img := resize_image (HWC3 img) res in
  let g := load_once "model_uniformer" apply_uniformer g in
  (emit (Call apply_uniformer) g, uniformer_fn img).

Definition unload_uniformer (g : globals) : globals :=
  unload_if_loaded "model_uniformer" apply_uniformer g.

(** The unload operation of a modality. *)
Definition unload (m : modality) : globals -> globals :=
  match m with
  | Hed => unload_hed
  | Mlsd => unload_mlsd
  | Midas => unload_midas
  | Openpose => unload_openpose
  | Uniformer => unload_uniformer
  end.

(** The globals after a detection operation, whatever its arguments. *)
Definition detect (op : detection) (img : image) (res : Z) (a b : Float)
    (has_hand : bool) (g : globals) : globals :=
  match op with
  | DHed => (hed img res g).1
  | DFakeScribble =>
      (fake_scribble img res g).1
  | DMlsd => (mlsd img res a b g).1
  | DMidas => (midas img res a g).1
  | DMidasNormal => (midas_normal img res a b g).1
  | DOpenpose => (openpose img res has_hand g).1
  | DOpenposeHand => (openpose_hand img res has_hand g).1
  | DUniformer => (uniformer img res g).1
  end.

(** A call into the module that reads or writes its globals. *)
Inductive call : Type :=
| CallCanny (img : image) (res l h : Z)
| CallDetect (op : detection) (img : image) (res : Z) (a b : Float)
    (has_hand : bool)
| CallUnload (m : modality).

Definition step (g : globals) (c : call) : globals :=
  match c with
  | CallCanny img res l h => (canny img res l h g).1
  | CallDetect op img res a b has_hand => detect op img res a b has_hand g
  | CallUnload m => unload m g
  end.

(** The globals after a sequence of calls. *)
Definition run_calls (cs : list call) (g : globals) : globals :=
  fold_left step cs g.

(** The call is a detection operation of modality [m]. *)
Definition detects (m : modality) (c : call) : Prop :=
  match c with
  | CallDetect op _ _ _ _ _ => modality_of op = m
  | _ => False
  end.

End Annotators.

End Processor.

(* ================================================================== *)
(** ** Concrete checkpoints, with integers for tensors *)

Module ReconcileExamples.
Import PyStr Cldm.

Definition transfer_on : gmap string bool :=
  {["control_net_control_transfer" := true]}.

(** Integers for tensors: [+] and [-] never raise on them. *)
Definition zadd (a b : Z) : result Z := Ok (a + b)%Z.
Definition zsub (a b : Z) : result Z := Ok (a - b)%Z.

(** One-dimensional tensors: [+] raises where the lengths differ. *)
Definition vadd (a b : list Z) : result (list Z) :=
  if length a =? length b then Ok (zip_with Z.add a b)
  else Raise RuntimeError.
Definition vsub (a b : list Z) : result (list Z) :=
  if length a =? length b then Ok (zip_with Z.sub a b)
  else Raise RuntimeError.

(** A bare checkpoint. *)
Definition bare_sd : dict Z :=
  [("input_blocks.0.0.weight", 3%Z); ("zero_convs.0.0.bias", 0%Z)].

(** A difference checkpoint; [time_embed.0.weight] is in the base model,
    [zero_convs.0.0.weight] is not. *)
Definition diff_sd : dict Z :=
  [("control_model.time_embed.0.weight", 5%Z);
   ("control_model.zero_convs.0.0.weight", 7%Z);
   ("difference", 1%Z)].

Definition base_sd : dict Z :=
  [("time_embed.0.weight", 10%Z); ("out.2.bias", 4%Z)].

(** A checkpoint that bundles control and base weights. *)
Definition bundled_sd : dict Z :=
  [("control_model.time_embed.0.weight", 5%Z);
   ("control_model.zero_convs.0.0.weight", 7%Z);
   ("model.diffusion_model.time_embed.0.weight", 2%Z)].

(** A control key with a further [model.] in it. *)
Definition inner_sd : dict Z :=
  [("control_model.a.model.b", 5%Z);
   ("model.diffusion_model.a.model.b", 1%Z)].

Definition inner_base_sd : dict Z := [("a.model.b", 10%Z)].

(** The same control key in a difference checkpoint. *)
Definition inner_diff_sd : dict Z :=
  [("control_model.a.model.b", 5%Z); ("difference", 1%Z)].

(** A checkpoint whose control weight has another length than the base
    model's. *)
Definition short_sd : dict (list Z) :=
  [("control_model.w", [5%Z]);
   ("model.diffusion_model.w", [1%Z; 1%Z])].
Definition long_base_sd : dict (list Z) := [("w", [10%Z; 10%Z])].

(** Following the spec's words: "the derived lookup key (prefix stripped,
    with the following literal [model.] sub-segment also stripped)". *)
Definition spec_lookup_key (key : string) : string :=
  let rest := slice_from (String.length "control_") key in
  if startswith rest "model." then slice_from (String.length "model.") rest
  else rest.

End ReconcileExamples.

(* ================================================================== *)
(** ** A small control network and host, with integers for numbers *)

Module NetworkExamples.
Import PyList Torch Cldm.

Abbreviation Tensor := (Torch.Tensor Z).

Definition ones (sh : list nat) : Tensor :=
  {| shape := sh; entry := fun _ => 1%Z |}.

Definition add (a b : Tensor) : result Tensor :=
  Ok {| shape := shape a; entry := fun idx => (entry a idx + entry b idx)%Z |}.

Definition scale (a : Tensor) (w : Z) : result Tensor :=
  Ok {| shape := shape a; entry := fun idx => (entry a idx * w)%Z |}.

(** Concatenation along dimension 1. *)
Definition cat1 (a b : Tensor) : result Tensor :=
  match shape a, shape b with
  | n :: ca :: rest, _ :: cb :: _ =>
      Ok {| shape := n :: (ca + cb) :: rest;
            entry := fun idx =>
              match idx with
              | i :: c :: r =>
                  if c <? ca then entry a idx
                  else entry b (i :: (c - ca) :: r)
              | _ => 0%Z
              end |}
  | _, _ => Raise RuntimeError
  end.

(** Nearest-neighbour resampling of the last two dimensions. *)
Definition nearest (t : Tensor) (size : list nat) : result Tensor :=
  match shape t, size with
  | [n; c; h1; w1], [h; w] =>
      Ok {| shape := [n; c; h; w];
            entry := fun idx =>
              match idx with
              | [i; k; y; x] => entry t [i; k; y * h1 / h; x * w1 / w]
              | _ => 0%Z
              end |}
  | _, _ => Raise ValueError
  end.

(** Timestep embeddings without content; no timesteps is an error. *)
Definition timestep_embedding (timesteps : option nat) (dim : Z)
  : result unit :=
  match timesteps with
  | Some _ => Ok tt
  | None => Raise AttributeError
  end.

Definition run_embed {Scalar : Type} (m : sequential Scalar) (t_emb : unit)
  : result unit := Ok tt.

Definition cast {Scalar : Type} (d : torch_dtype) (t : Torch.Tensor Scalar)
  : result (Torch.Tensor Scalar) := Ok t.

(** The framework's own layers pass their input on. *)
Definition run_ext {Scalar : Type} (l : layer Scalar)
    (x : Torch.Tensor Scalar) (_ _ : unit) : result (Torch.Tensor Scalar) :=
  Ok x.

(** One level, one residual block, 32 channels. *)
Definition cfg_over {Scalar : Type} (dropout : Scalar) : Cfg.t Scalar :=
  {| Cfg.image_size := (32)%Z;
     Cfg.in_channels := (4)%Z;
     Cfg.model_channels := (32)%Z;
     Cfg.hint_channels := (3)%Z;
     Cfg.num_res_blocks := inl 1%Z;
     Cfg.attention_resolutions := [];
     Cfg.dropout := dropout;
     Cfg.channel_mult := [1%Z];
     Cfg.conv_resample := true;
     Cfg.dims := (2)%Z;
     Cfg.use_checkpoint := false;
     Cfg.use_fp16 := false;
     Cfg.num_heads := (1)%Z;
     Cfg.num_head_channels := (-1)%Z;
     Cfg.num_heads_upsample := (-1)%Z;
     Cfg.use_scale_shift_norm := false;
     Cfg.resblock_updown := false;
     Cfg.use_new_attention_order := false;
     Cfg.use_spatial_transformer := false;
     Cfg.transformer_depth := (1)%Z;
     Cfg.context_dim := None;
     Cfg.n_embed := None;
     Cfg.legacy := true;
     Cfg.disable_self_attentions := None;
     Cfg.num_attention_blocks := None;
     Cfg.disable_middle_self_attn := false;
     Cfg.use_linear_in_transformer := false |}.

Definition cfg : Cfg.t Z := cfg_over 0%Z.

Definition no_net {Scalar : Type} : ControlNet Scalar :=
  {| dims := 0%Z; model_channels := 0%Z; num_res_blocks := [];
     dtype := float32; time_embed := []; input_blocks := [];
     zero_convs := []; input_hint_block := []; _feature_size := 0%Z;
     middle_block := []; middle_block_out := [] |}.

(** The network that the constructor builds from [cfg]. *)
Definition net : ControlNet Z :=
  match ControlNet_init Z 0%Z ones cfg with
  | Ok n => n
  | Raise _ => no_net
  end.

(** A wrapper after [notify] with a [3 x 64 x 64] hint. *)
Definition hint : Tensor := ones [3; 64; 64].

Definition outer : PlugableControlModel Z :=
  {| control_model := net;
     lowvram := false;
     weight := 1%Z;
     only_mid_control := false;
     control := None;
     hint_cond := Some hint |}.

(** A host with two encoder and two decoder blocks that pass their input
    on. *)
Definition pass : block Z unit unit := fun h _ _ => Ok h.

Definition host : UNetModel Z unit unit unit unit :=
  {| u_model_channels := 320%Z;
     u_dtype := float32;
     u_time_embed := fun _ => Ok tt;
     u_input_blocks := [pass; pass];
     u_middle_block := pass;
     u_output_blocks := [pass; pass];
     u_out := fun h => Ok h;
     class_forward := Foreign tt;
     attrs := ∅ |}.

(** A latent at the hint's resolution, and one at four times that. *)
Definition latent : Tensor := ones [1; 4; 8; 8].
Definition latent_hires : Tensor := ones [1; 4; 32; 32].

Definition forward_encoder :=
  Cldm.forward_encoder Z 0%Z Z.add Z.mul nat unit unit unit
    timestep_embedding run_embed run_ext cast add nearest unit.

Definition forward_decoder :=
  Cldm.forward_decoder Z 0%Z Z.add Z.mul nat unit unit unit
    timestep_embedding run_embed run_ext cast add scale cat1 nearest unit.

Definition ControlNet_forward :=
  Cldm.ControlNet_forward Z 0%Z Z.add Z.mul nat unit unit unit
    timestep_embedding run_embed run_ext cast add nearest.

(** How many elements of [control] a run of the hook's decoder leaves. *)
Definition control_left
    (r : result (Tensor * list Tensor * list Tensor)) : result nat :=
  st ← r; Ok (length st.2).

(** *** Numbers that need not be finite

    The numbers of a floating-point tensor, without the rounding: the
    integers, the two infinities and not-a-number, with the sums and
    products of the IEEE 754 standard on them. *)
Inductive fp : Type := Num (z : Z) | PInf | NInf | NaN.

Definition fp_finite (a : fp) : Prop :=
  match a with Num _ => True | _ => False end.

Definition fp_add (a b : fp) : fp :=
  match a, b with
  | NaN, _ | _, NaN => NaN
  | PInf, NInf | NInf, PInf => NaN
  | PInf, _ | _, PInf => PInf
  | NInf, _ | _, NInf => NInf
  | Num x, Num y => Num (x + y)
  end.

(** The infinity of the sign of [z], for [z] other than 0. *)
Definition fp_inf (z : Z) : fp := if (0 <? z)%Z then PInf else NInf.

Definition fp_mul (a b : fp) : fp :=
  match a, b with
  | NaN, _ | _, NaN => NaN
  | Num x, Num y => Num (x * y)
  | Num x, PInf | PInf, Num x => if (x =? 0)%Z then NaN else fp_inf x
  | Num x, NInf | NInf, Num x => if (x =? 0)%Z then NaN else fp_inf (- x)
  | PInf, PInf | NInf, NInf => PInf
  | PInf, NInf | NInf, PInf => NInf
  end.

(** The network that the constructor builds from the same configuration
    over these numbers, and a latent that is infinite everywhere. *)
Definition fp_ones (sh : list nat) : Torch.Tensor fp :=
  {| shape := sh; entry := fun _ => Num 1 |}.

Definition fp_net : ControlNet fp :=
  match ControlNet_init fp (Num 0) fp_ones (cfg_over (Num 0)) with
  | Ok n => n
  | Raise _ => no_net
  end.

Definition fp_activation : Torch.Tensor fp := fp_ones [1; 32; 8; 8].

Definition infinite : Torch.Tensor fp :=
  {| shape := [1; 32; 1; 1]; entry := fun _ => PInf |}.

Definition fp_run (m : sequential fp) (x : Torch.Tensor fp)
  : result (Torch.Tensor fp) :=
  Cldm.run fp (Num 0) fp_add fp_mul unit unit run_ext m x tt tt.

(** One entry of a result. *)
Definition entry_at {Scalar : Type} (idx : list nat)
    (r : result (Torch.Tensor Scalar)) : result Scalar :=
  t ← r; Ok (entry t idx).

End NetworkExamples.

(* ================================================================== *)
(** ** The annotators on small inputs *)

Module ProcessorExamples.
Import Processor.

(** Utilities that leave a 3-channel image of the target size as it is. *)
Definition HWC3 (img : image) : image := img.
Definition resize_image (img : image) (res : Z) : image := img.

(** One dark and one light pixel. *)
Definition two_pixels : image := [[[0; 0; 0]; [200; 180; 210]]]%Z.
Definition scribble_once : image := [[[255; 255; 255]; [0; 0; 0]]]%Z.
Definition scribble_twice : image := [[[0; 0; 0]; [255; 255; 255]]]%Z.

Definition simple_scribble := Processor.simple_scribble HWC3 resize_image.

(** A holistically-nested edge detector that returns its input. *)
Definition hed := Processor.hed HWC3 resize_image (fun img => img).

End ProcessorExamples.

(* ================================================================== *)
(** ** More small inputs *)

Module ExtraExamples.
Import PyStr Cldm.

(** Two control keys that line 99 stores under the same name. *)
Definition colliding_sd : dict Z :=
  [("control_model.a", 1%Z); ("x", 2%Z);
   ("control_model.control_model.a", 3%Z)].

(** A wrapper under [lowvram] on which [notify] was never called, in a
    world where the control network was left on the accelerator ([true];
    [false] is the cpu). *)
Definition unnotified : PlugableControlModel Z :=
  {| control_model := NetworkExamples.net;
     lowvram := true;
     weight := 1%Z;
     only_mid_control := false;
     control := None;
     hint_cond := None |}.

Definition lowvram_world : world Z unit unit unit unit bool :=
  {| wrapper := unnotified;
     unet := NetworkExamples.host;
     control_device := true |}.

Definition forward2 :=
  Cldm.forward2 Z 0%Z Z.add Z.mul nat unit unit unit
    NetworkExamples.timestep_embedding NetworkExamples.run_embed
    NetworkExamples.run_ext NetworkExamples.cast
    (fun _ => float32) NetworkExamples.add NetworkExamples.scale
    NetworkExamples.cat1 NetworkExamples.nearest unit bool false.

(** A host with two encoder blocks and three decoder blocks. *)
Definition tall_host : UNetModel Z unit unit unit unit :=
  {| u_model_channels := 320%Z;
     u_dtype := float32;
     u_time_embed := fun _ => Ok tt;
     u_input_blocks := [NetworkExamples.pass; NetworkExamples.pass];
     u_middle_block := NetworkExamples.pass;
     u_output_blocks :=
       [NetworkExamples.pass; NetworkExamples.pass; NetworkExamples.pass];
     u_out := fun h => Ok h;
     class_forward := Foreign tt;
     attrs := ∅ |}.

(** The configuration of [NetworkExamples.cfg] with other levels, block
    counts and heads. *)
Definition cfg_of (channel_mult : list Z) (num_res_blocks : Z + list Z)
    (num_heads num_head_channels : Z) : Cfg.t Z :=
  {| Cfg.image_size := (32)%Z;
     Cfg.in_channels := (4)%Z;
     Cfg.model_channels := (32)%Z;
     Cfg.hint_channels := (3)%Z;
     Cfg.num_res_blocks := num_res_blocks;
     Cfg.attention_resolutions := [];
     Cfg.dropout := (0)%Z;
     Cfg.channel_mult := channel_mult;
     Cfg.conv_resample := true;
     Cfg.dims := (2)%Z;
     Cfg.use_checkpoint := false;
     Cfg.use_fp16 := false;
     Cfg.num_heads := num_heads;
     Cfg.num_head_channels := num_head_channels;
     Cfg.num_heads_upsample := (-1)%Z;
     Cfg.use_scale_shift_norm := false;
     Cfg.resblock_updown := false;
     Cfg.use_new_attention_order := false;
     Cfg.use_spatial_transformer := false;
     Cfg.transformer_depth := (1)%Z;
     Cfg.context_dim := None;
     Cfg.n_embed := None;
     Cfg.legacy := true;
     Cfg.disable_self_attentions := None;
     Cfg.num_attention_blocks := None;
     Cfg.disable_middle_self_attn := false;
     Cfg.use_linear_in_transformer := false |}.

(** A file with the extension [.pth] that holds a training checkpoint: the
    state dict under ['state_dict'], beside the epoch. *)
Definition pth_splitext (p : string) : string * string := (p, ".pth").
Definition flat_sd : list (string * pyobj Z) := [("w", PyTensor 5%Z)].
Definition training_ckpt : list (string * pyobj Z) :=
  [("epoch", PyTensor 3%Z); ("state_dict", PyDict flat_sd)].

(** Detectors that return the image they are given, and a session that
    detects edges, unloads, scribbles and detects edges again. *)
Definition run_calls :=
  Processor.run_calls ProcessorExamples.HWC3 ProcessorExamples.resize_image
    unit unit (fun img _ _ => img) (fun img => img) (fun img _ _ => img)
    (fun img _ _ => (img, img)) (fun img _ => (img, tt)) (fun img => img)
    (fun img _ _ => img) (fun img _ => img) tt.

Definition session : list (Processor.call unit) :=
  [Processor.CallDetect unit Processor.DHed ProcessorExamples.two_pixels 512 tt tt
     false;
   Processor.CallUnload unit Processor.Hed;
   Processor.CallDetect unit Processor.DFakeScribble ProcessorExamples.two_pixels
     512 tt tt false;
   Processor.CallCanny unit ProcessorExamples.two_pixels 512 100 200].

End ExtraExamples.

(* ================================================================== *)
(** * Properties *)

(** ** Fallible computations *)

Lemma bind_Ok {A B : Type} (r : result A) (k : A -> result B) (b : B) :
  r ≫= k = Ok b -> exists a, r = Ok a /\ k a = Ok b.
Proof. destruct r as [a|e]; simpl; [eauto | discriminate]. Qed.

Lemma mapM_Ok {A B : Type} (f : A -> result B) (l : list A) (k : list B) :
  mapM f l = Ok k <-> Forall2 (fun x y => f x = Ok y) l k.
Proof.
  revert k. induction l as [|x l IH]; intros k; simpl.
  - split; [by intros [= <-]; constructor | by inversion 1].
  - split.
    + intros H. apply bind_Ok in H as (y & Hy & H).
      apply bind_Ok in H as (k' & Hk & [= <-]).
      constructor; [done | by apply IH].
    + inversion 1 as [|? y ? k' Hy Hk]; subst.
      rewrite Hy. simpl. apply IH in Hk. rewrite Hk. done.
Qed.

Lemma for_each_Raise {S A : Type} (f : S -> A -> result S) (l : list A)
    (s : S) (e : exn) :
  for_each f l s = Raise e -> exists a s', a ∈ l /\ f s' a = Raise e.
Proof.
  revert s. induction l as [|a l IH]; intros s H; simpl in H; [discriminate|].
  destruct (f s a) as [s1|e1] eqn:E; simpl in H.
  - destruct (IH _ H) as (a' & s' & Hin & Hf).
    exists a', s'. split; [apply elem_of_cons; by right | done].
  - injection H as ->. exists a, s. split; [apply elem_of_cons; by left | done].
Qed.

(** ** Strings *)

Section StrFacts.
Import PyStr.

Lemma startswith_split (s p : string) :
  startswith s p = true -> s = p +:+ slice_from (String.length p) s.
Proof.
  unfold startswith. revert s.
  induction p as [|c p IH]; intros s H; [by destruct s|].
  destruct s as [|d s]; simpl in *; [discriminate|].
  destruct (ascii_dec c d) as [Hcd|]; [|discriminate].
  rewrite Hcd. change (String d s = String d (p +:+ slice_from (String.length p) s)).
  f_equal. by apply IH.
Qed.

Lemma startswith_app (p r : string) : startswith (p +:+ r) p = true.
Proof.
  unfold startswith. induction p as [|c p IH]; simpl; [by destruct r|].
  destruct (ascii_dec c c); [done | congruence].
Qed.

End StrFacts.

(** ** Dicts *)

Section DictFacts.
Context {V : Type}.
Implicit Types (d : dict V) (k : string) (v : V).

Lemma dict_get_set d k v k' :
  dict_get (dict_set d k v) k' = if String.eqb k k' then Some v else dict_get d k'.
Proof.
  induction d as [|[k0 v0] d IH]; simpl; [done|].
  destruct (String.eqb_spec k0 k) as [->|Hne]; simpl.
  - destruct (String.eqb_spec k k'); done.
  - rewrite IH. destruct (String.eqb_spec k0 k') as [->|]; [|done].
    destruct (String.eqb_spec k k'); congruence.
Qed.

Lemma dict_get_set_eq d k v : dict_get (dict_set d k v) k = Some v.
Proof. by rewrite dict_get_set, String.eqb_refl. Qed.

Lemma dict_get_set_ne d k v k' :
  k <> k' -> dict_get (dict_set d k v) k' = dict_get d k'.
Proof. intros. rewrite dict_get_set. by destruct (String.eqb_spec k k'). Qed.

Lemma elem_of_keys d k : k ∈ keys d <-> is_Some (dict_get d k).
Proof.
  unfold keys. induction d as [|[k0 v0] d IH]; simpl.
  - split; [by intros ?%elem_of_nil | by intros [? ?]].
  - rewrite elem_of_cons, IH.
    destruct (String.eqb_spec k0 k) as [->|]; [split; eauto|].
    split; [intros [->|]; [congruence | done] | by right].
Qed.

Lemma dict_mem_true d k : dict_mem k d = true <-> k ∈ keys d.
Proof.
  rewrite elem_of_keys. unfold dict_mem.
  destruct (dict_get d k); split; eauto; [discriminate | by intros [? ?]].
Qed.

Lemma keys_dict_set d k v :
  keys (dict_set d k v) = if dict_mem k d then keys d else keys d ++ [k].
Proof.
  unfold dict_mem, keys. induction d as [|[k0 v0] d IH]; simpl; [done|].
  destruct (String.eqb_spec k0 k) as [->|]; simpl; [done|].
  rewrite IH. by destruct (dict_get d k).
Qed.

Lemma well_formed_dict_set d k v :
  well_formed d -> well_formed (dict_set d k v).
Proof.
  unfold well_formed. intros Hd. rewrite keys_dict_set.
  destruct (dict_mem k d) eqn:E; [done|].
  apply NoDup_app. split_and!; [done | | apply NoDup_singleton].
  intros x Hx ->%list_elem_of_singleton.
  apply dict_mem_true in Hx. congruence.
Qed.

End DictFacts.

(** ** Checkpoint reconciliation *)

Section ReconcileFacts.
Import PyStr Cldm.
Variable Tensor : Type.
Variables tadd tsub : Tensor -> Tensor -> result Tensor.

#[local] Abbreviation transfer_entry := (Cldm.transfer_entry Tensor tadd tsub).
#[local] Abbreviation transfer_control := (Cldm.transfer_control Tensor tadd tsub).
#[local] Abbreviation strip_control_prefix := (Cldm.strip_control_prefix Tensor).
#[local] Abbreviation reconcile := (Cldm.reconcile Tensor tadd tsub).
#[local] Abbreviation reconciled := (Cldm.reconciled Tensor tadd tsub).
#[local] Abbreviation strip_step := (Cldm.strip_step Tensor).
#[local] Abbreviation bundled := (Cldm.bundled Tensor).
#[local] Abbreviation has_base_keys := (Cldm.has_base_keys Tensor).

(** Every key prefixed [control_model.] passes the test of
    [get_node_name key 'control_'], so its lookup key is what is left of the
    key after [control_] once every [model.] is taken out. *)
Lemma key_name_of_control (key : string) :
  control_key key ->
  key_name_of key = replace (slice_from 8 key) "model." "".
Proof.
  intros H. apply startswith_split in H. rewrite H.
  generalize (slice_from (String.length "control_model.") key). intros r.
  reflexivity.
Qed.

Lemma transfer_entry_skip d sd unet st key :
  startswith key "control_model." = false ->
  transfer_entry d sd unet st key = Ok st.
Proof. intros H. unfold Cldm.transfer_entry. destruct st. by rewrite H. Qed.

Lemma transfer_entry_Ok d sd unet final counter key st' :
  control_key key ->
  transfer_entry d sd unet (final, counter) key = Ok st' ->
  exists v, reconciled d sd unet key v /\ st'.1 = dict_set final key v.
Proof.
  unfold control_key, Cldm.transfer_entry, reconciled, getitem, dict_mem.
  intros -> H. simpl in H.
  destruct (dict_get sd key) as [p|]; simpl in H; [|discriminate].
  destruct (dict_get unet (key_name_of key)) as [b|]; simpl in H.
  - destruct d; simpl in H.
    + destruct (tadd p b) as [v|] eqn:Ea; simpl in H; [|discriminate].
      inversion H; subst. eauto.
    + destruct (tadd p b) as [s|] eqn:Ea; simpl in H; [|discriminate].
      destruct (dict_get sd _) as [r|]; simpl in H; [|discriminate].
      destruct (tsub s r) as [v|] eqn:Es; simpl in H; [|discriminate].
      inversion H; subst. eauto 10.
  - inversion H; subst. eauto.
Qed.

(** The loop of lines 76-94, over any list of keys and from any state. *)
Lemma transfer_loop_Ok d sd unet ks st st' :
  for_each (transfer_entry d sd unet) ks st = Ok st' ->
  forall key,
    (key ∈ ks -> control_key key ->
     exists v, reconciled d sd unet key v /\ dict_get st'.1 key = Some v) /\
    (~ (key ∈ ks /\ control_key key) ->
     dict_get st'.1 key = dict_get st.1 key).
Proof.
  revert st. induction ks as [|a ks IH]; intros st H key; simpl in H.
  - inversion H; subst. split; [by intros ?%elem_of_nil | done].
  - apply bind_Ok in H as (st1 & Ha & H).
    specialize (IH _ H key) as [IH1 IH2].
    destruct (startswith a "control_model.") eqn:Ea.
    + destruct st as [final counter].
      apply transfer_entry_Ok in Ha as (v & Hv & Hst1); [|done].
      split.
      * intros Hin Hk.
        destruct (decide (key ∈ ks)) as [Hks|Hks]; [by apply IH1|].
        apply elem_of_cons in Hin as [->|]; [|done].
        exists v. split; [done|].
        rewrite IH2 by tauto. rewrite Hst1. apply dict_get_set_eq.
      * intros Hn. rewrite IH2.
        -- rewrite Hst1. simpl. apply dict_get_set_ne.
           intros ->. apply Hn. split; [apply elem_of_cons; by left | done].
        -- intros [? ?]. apply Hn. split; [apply elem_of_cons; by right | done].
    + rewrite transfer_entry_skip in Ha by done. inversion Ha; subst st1.
      split.
      * intros Hin Hk. apply IH1; [|done].
        apply elem_of_cons in Hin as [->|]; [|done].
        unfold control_key in Hk. congruence.
      * intros Hn. apply IH2. intros [? ?]. apply Hn.
        split; [apply elem_of_cons; by right | done].
Qed.

Lemma transfer_loop_well_formed d sd unet ks st st' :
  for_each (transfer_entry d sd unet) ks st = Ok st' ->
  well_formed st.1 -> well_formed st'.1.
Proof.
  revert st. induction ks as [|a ks IH]; intros st H Hwf; simpl in H.
  - by inversion H; subst.
  - apply bind_Ok in H as (st1 & Ha & H). apply (IH _ H).
    destruct (startswith a "control_model.") eqn:Ea.
    + destruct st as [final counter].
      apply transfer_entry_Ok in Ha as (v & _ & ->); [|done].
      by apply well_formed_dict_set.
    + rewrite transfer_entry_skip in Ha by done. by inversion Ha; subst.
Qed.

(** The keys of [final_state_dict] are the checkpoint's control keys. *)
Lemma transfer_control_keys d sd unet final counter key :
  transfer_control d sd unet = Ok (final, counter) ->
  key ∈ keys final <-> key ∈ keys sd /\ control_key key.
Proof.
  intros H. destruct (transfer_loop_Ok _ _ _ _ _ _ H key) as [H1 H2].
  simpl in *. rewrite elem_of_keys. split.
  - intros Hs. destruct (decide (key ∈ keys sd)) as [Hin|Hin].
    + destruct (startswith key "control_model.") eqn:E; [done|].
      rewrite H2 in Hs; [by destruct Hs | unfold control_key; intros [? ?]; congruence].
    + rewrite H2 in Hs by tauto. by destruct Hs.
  - intros [Hin Hk]. destruct (H1 Hin Hk) as (v & _ & ->). eauto.
Qed.

Lemma strip_control_prefix_fold (d : dict Tensor) :
  strip_control_prefix d = fold_left strip_step d [].
Proof. reflexivity. Qed.

Lemma strip_fold_other (d acc : dict Tensor) (n : string) :
  (forall k, k ∈ keys d -> control_key k -> stripped k <> n) ->
  dict_get (fold_left strip_step d acc) n = dict_get acc n.
Proof.
  revert acc. induction d as [|[k v] d IH]; intros acc H; simpl; [done|].
  rewrite IH.
  - unfold strip_step; simpl.
    destruct (startswith k "control_model.") eqn:E; [|done].
    apply dict_get_set_ne, H; [apply elem_of_cons; by left | done].
  - intros k' ? ?. apply H; [apply elem_of_cons; by right | done].
Qed.

(** Line 99 keeps the value of a control key whose stripped name no other
    control key shares. *)
Lemma strip_fold_get (d acc : dict Tensor) (key : string) (v : Tensor) :
  well_formed d ->
  control_key key ->
  dict_get d key = Some v ->
  (forall k, k ∈ keys d -> control_key k -> stripped k = stripped key -> k = key) ->
  dict_get (fold_left strip_step d acc) (stripped key) = Some v.
Proof.
  unfold well_formed. revert acc.
  induction d as [|[k0 v0] d IH]; intros acc Hwf Hk Hget Huniq;
    simpl in *; [discriminate|].
  apply NoDup_cons in Hwf as [Hk0 Hwf].
  destruct (String.eqb_spec k0 key) as [->|Hne].
  - inversion Hget; subst v0. rewrite strip_fold_other.
    + unfold strip_step; simpl. unfold control_key in Hk. rewrite Hk.
      apply dict_get_set_eq.
    + intros k Hin Hck Heq. apply Hk0.
      rewrite <- (Huniq k); [done | apply elem_of_cons; by right | done..].
  - apply IH; [done..|].
    intros k ? ? ?. apply Huniq; [apply elem_of_cons; by right | done..].
Qed.

Lemma reconcile_transfer opts unet sd :
  bundled sd ->
  dict_mem "difference" sd
  || opts_get opts "control_net_control_transfer" false
     && existsb (fun k => startswith k "model.diffusion_model.") (keys sd)
  = true ->
  reconcile opts (Some unet) sd
  = st ← transfer_control (dict_mem "difference" sd) sd unet;
    Ok (strip_control_prefix st.1).
Proof.
  unfold bundled, Cldm.reconcile. intros -> ->.
  destruct (transfer_control _ sd unet) as [[final c]|e]; reflexivity.
Qed.

Lemma transfer_control_stripped d sd unet final counter key :
  transfer_control d sd unet = Ok (final, counter) ->
  control_key key ->
  (forall k, k ∈ keys sd -> control_key k -> stripped k = stripped key -> k = key) ->
  key ∈ keys sd ->
  dict_get (strip_control_prefix final) (stripped key) = dict_get final key.
Proof.
  intros H Hk Huniq Hin.
  assert (is_Some (dict_get final key)) as [v Hv].
  { apply elem_of_keys. by apply (transfer_control_keys _ _ _ _ _ _ H). }
  rewrite Hv, strip_control_prefix_fold. apply strip_fold_get; [|done..|].
  - by apply (transfer_loop_well_formed _ _ _ _ _ _ H), NoDup_nil.
  - intros k Hin' ?. apply Huniq; [|done].
    by apply (transfer_control_keys _ _ _ _ _ _ H) in Hin' as [? _].
Qed.

Lemma existsb_false_Forall {A : Type} (f : A -> bool) (l : list A) :
  Forall (fun x => f x = false) l -> existsb f l = false.
Proof. induction 1 as [|x l Hx _ IH]; simpl; [done | by rewrite Hx, IH]. Qed.

(** The lookup key of a control key, read off the key: what follows the
    prefix [control_model.], with every [model.] in it taken out. *)
Lemma key_name_of_stripped (key : string) :
  control_key key ->
  key_name_of key = replace (slice_from 14 key) "model." "".
Proof.
  intros H. rewrite key_name_of_control by done.
  apply startswith_split in H. rewrite H.
  generalize (slice_from (String.length "control_model.") key). intros r.
  change (slice_from 8 ("control_model." +:+ r)) with ("model." +:+ r).
  change (slice_from 14 ("control_model." +:+ r)) with r.
  unfold replace.
  change (replace_from "model." "" ("model." +:+ r) 0)
    with (if startswith ("model." +:+ r) "model."
          then "" +:+ replace_from "model." "" r 0
          else "m" +:+ replace_from "model." "" ("odel." +:+ r) 0).
  by rewrite startswith_app.
Qed.

Lemma replace_absent (s old new : string) :
  old <> "" -> ~ occurs_in old s -> replace s old new = s.
Proof.
  intros Hold. destruct old as [|c old]; [done|]. unfold replace.
  induction s as [|a s IH]; intros Hno; [done|].
  change (replace_from (String c old) new (String a s) 0)
    with (if String.prefix (String c old) (String a s)
          then new +:+ replace_from (String c old) new s
                         (String.length (String c old) - 1)
          else String a (replace_from (String c old) new s 0)).
  destruct (String.prefix (String c old) (String a s)) eqn:E.
  - exfalso. apply Hno. by exists 0.
  - f_equal. apply IH. intros [i Hi]. apply Hno. by exists (S i).
Qed.

(** Where the rest of a control key holds no further [model.], the lookup
    key is the key without its prefix. *)
Lemma key_name_of_plain (key : string) :
  control_key key ->
  ~ occurs_in "model." (slice_from 14 key) ->
  key_name_of key = slice_from 14 key.
Proof.
  intros H Hno. rewrite key_name_of_stripped by done.
  by apply replace_absent.
Qed.

(** What an entry of the loop raises: the addition of line 87 or 90, the
    lookup of the recorded base value of line 90, or the subtraction of
    line 90, in the order in which line 90 evaluates them. *)
Lemma transfer_entry_Raise d sd unet st key e :
  key ∈ keys sd ->
  transfer_entry d sd unet st key = Raise e ->
  control_key key /\
  exists p b,
    dict_get sd key = Some p /\
    dict_get unet (key_name_of key) = Some b /\
    (tadd p b = Raise e \/
     exists s,
       tadd p b = Ok s /\ d = false /\
       match dict_get sd ("model.diffusion_model." +:+ key_name_of key) with
       | None => e = KeyError ("model.diffusion_model." +:+ key_name_of key)
       | Some r => tsub s r = Raise e
       end).
Proof.
  intros [p Hp]%elem_of_keys. destruct st as [final counter].
  unfold Cldm.transfer_entry, control_key, getitem, dict_mem.
  destruct (startswith key "control_model."); simpl; [|discriminate].
  rewrite Hp. simpl.
  destruct (dict_get unet (key_name_of key)) as [b|]; simpl; [|discriminate].
  intros H. split; [done|]. exists p, b. split_and!; [done..|].
  destruct (tadd p b) as [s|e1] eqn:Ea.
  - right. exists s. destruct d; simpl in H; [discriminate|].
    split_and!; [done..|].
    destruct (dict_get sd ("model.diffusion_model." +:+ key_name_of key))
      as [r|]; simpl in H.
    + destruct (tsub s r) as [v|e2]; simpl in H; [discriminate|].
      by injection H as ->.
    + by injection H as <-.
  - left. destruct d; simpl in H; by injection H as ->.
Qed.

(** C8.  For a checkpoint in which no key starts with [control_model.],
    reconciliation changes nothing: the state dict given to
    [control_model.load_state_dict] is the state dict that
    [load_state_dict] returned, whatever the settings and the base model. *)
Theorem bare_checkpoint_unmodified
    (opts : gmap string bool) (base_model : option (dict Tensor))
    (state_dict : dict Tensor) :
  Forall (fun k => startswith k "control_model." = false) (keys state_dict) ->
  reconcile opts base_model state_dict = Ok state_dict.
Proof.
  intros H. unfold Cldm.reconcile.
  by rewrite (existsb_false_Forall _ _ H).
Qed.

(** C3, amended.  For a bundled checkpoint with a key [difference] and a
    supplied base model, the lookup key of a control key is what follows
    [control_model.] with every occurrence of [model.] taken out.  When
    reconciliation completes, for every key prefixed [control_model.] with
    stored value [p]: if the lookup key is in the base model's state dict
    with value [B], the reconciled value is [p + B]; if it is not, the
    reconciled value is [p].  The value is then loaded under the key without
    its prefix, provided no other control key gets the same name. *)
Theorem difference_checkpoint_offsets
    (opts : gmap string bool) (unet_state_dict state_dict : dict Tensor) :
  bundled state_dict ->
  dict_mem "difference" state_dict = true ->
  let lookup_key key := replace (slice_from 14 key) "model." "" in
  forall loaded,
    reconcile opts (Some unet_state_dict) state_dict = Ok loaded ->
    exists final_state_dict counter,
      transfer_control true state_dict unet_state_dict
        = Ok (final_state_dict, counter) /\
      loaded = strip_control_prefix final_state_dict /\
      forall key p,
        control_key key ->
        dict_get state_dict key = Some p ->
        (forall B, dict_get unet_state_dict (lookup_key key) = Some B ->
                   exists v, tadd p B = Ok v /\
                             dict_get final_state_dict key = Some v) /\
        (dict_get unet_state_dict (lookup_key key) = None ->
         dict_get final_state_dict key = Some p) /\
        ((forall k, k ∈ keys state_dict -> control_key k ->
                    stripped k = stripped key -> k = key) ->
         dict_get loaded (stripped key) = dict_get final_state_dict key).
Proof.
  intros Hb Hd lookup_key.
  assert (Hrec : reconcile opts (Some unet_state_dict) state_dict
                 = st ← transfer_control true state_dict unet_state_dict;
                   Ok (strip_control_prefix st.1)).
  { rewrite reconcile_transfer by (by rewrite ?Hd). by rewrite Hd. }
  assert (Hlk : forall key, control_key key -> key_name_of key = lookup_key key)
    by (intros; by apply key_name_of_stripped).
  intros loaded Hl. rewrite Hrec in Hl.
  apply bind_Ok in Hl as ([final counter] & Hrun & Hl).
  inversion Hl; subst loaded. exists final, counter.
  split; [done|]. split; [done|].
  intros key p Hk Hp.
  assert (key ∈ keys state_dict) as Hin by (apply elem_of_keys; eauto).
  destruct (transfer_loop_Ok _ _ _ _ _ _ Hrun key) as [H1 _].
  destruct (H1 Hin Hk) as (v & (p' & Hp' & Hv) & Hget). simpl in Hget.
  assert (p' = p) as -> by congruence.
  rewrite (Hlk key Hk) in Hv.
  split_and!.
  - intros B HB. rewrite HB in Hv. by exists v.
  - intros HB. rewrite HB in Hv. by subst.
  - intros Huniq. by apply (transfer_control_stripped true state_dict
                              unet_state_dict final counter).
Qed.

(** C2, amended.  For a bundled checkpoint with no key [difference], with
    [control_net_control_transfer] set, some key prefixed
    [model.diffusion_model.], and a supplied base model: the lookup key of a
    control key is what follows [control_model.] with every occurrence of
    [model.] taken out.  Reconciliation does not complete when the
    checkpoint lacks the recorded base value of a control key whose lookup
    key is in the base model; and when it completes, a control key with
    stored value [p], current base value [B_cur] and recorded base value
    [B_ref] has the reconciled value [(p + B_cur) - B_ref], loaded under the
    key without its prefix provided no other control key gets the same
    name. *)
Theorem transfer_checkpoint_offsets
    (opts : gmap string bool) (unet_state_dict state_dict : dict Tensor) :
  bundled state_dict ->
  dict_mem "difference" state_dict = false ->
  opts_get opts "control_net_control_transfer" false = true ->
  has_base_keys state_dict ->
  let lookup_key key := replace (slice_from 14 key) "model." "" in
  (forall key,
     key ∈ keys state_dict -> control_key key ->
     dict_mem (lookup_key key) unet_state_dict = true ->
     dict_mem ("model.diffusion_model." +:+ lookup_key key) state_dict = false ->
     ~ succeeds (reconcile opts (Some unet_state_dict) state_dict))
  /\
  forall loaded,
    reconcile opts (Some unet_state_dict) state_dict = Ok loaded ->
    exists final_state_dict counter,
      transfer_control false state_dict unet_state_dict
        = Ok (final_state_dict, counter) /\
      loaded = strip_control_prefix final_state_dict /\
      forall key p B_cur B_ref,
        control_key key ->
        dict_get state_dict key = Some p ->
        dict_get unet_state_dict (lookup_key key) = Some B_cur ->
        dict_get state_dict ("model.diffusion_model." +:+ lookup_key key)
          = Some B_ref ->
        exists s v,
          tadd p B_cur = Ok s /\ tsub s B_ref = Ok v /\
          dict_get final_state_dict key = Some v /\
          ((forall k, k ∈ keys state_dict -> control_key k ->
                      stripped k = stripped key -> k = key) ->
           dict_get loaded (stripped key) = Some v).
Proof.
  intros Hb Hd Ho Hbase lookup_key.
  assert (Hrec : reconcile opts (Some unet_state_dict) state_dict
                 = st ← transfer_control false state_dict unet_state_dict;
                   Ok (strip_control_prefix st.1)).
  { rewrite reconcile_transfer; [by rewrite Hd | done |].
    rewrite Hd, Ho. exact Hbase. }
  assert (Hlk : forall key, control_key key -> key_name_of key = lookup_key key)
    by (intros; by apply key_name_of_stripped).
  split.
  - intros key Hin Hk Hmem Hno [loaded Hl]. rewrite Hrec in Hl.
    apply bind_Ok in Hl as (st & Hrun & _).
    destruct (transfer_loop_Ok _ _ _ _ _ _ Hrun key) as [H1 _].
    destruct (H1 Hin Hk) as (v & (p & Hp & Hv) & _).
    rewrite (Hlk key Hk) in Hv. unfold dict_mem in *.
    destruct (dict_get unet_state_dict (lookup_key key)); [|discriminate].
    destruct Hv as (s & r & _ & Hr & _). by rewrite Hr in Hno.
  - intros loaded Hl. rewrite Hrec in Hl.
    apply bind_Ok in Hl as ([final counter] & Hrun & Hl).
    inversion Hl; subst loaded. exists final, counter.
    split; [done|]. split; [done|].
    intros key p B_cur B_ref Hk Hp HB Hr.
    assert (key ∈ keys state_dict) as Hin by (apply elem_of_keys; eauto).
    destruct (transfer_loop_Ok _ _ _ _ _ _ Hrun key) as [H1 _].
    destruct (H1 Hin Hk) as (v & (p' & Hp' & Hv) & Hget). simpl in Hget.
    rewrite (Hlk key Hk), HB in Hv. destruct Hv as (s & r & Ha & Hr' & Hs).
    assert (p' = p) as -> by congruence.
    assert (r = B_ref) as -> by congruence.
    exists s, v. split_and!; [done..|]. intros Huniq.
    rewrite <- Hget. by apply (transfer_control_stripped false state_dict
                                 unet_state_dict final counter).
Qed.

End ReconcileFacts.

(** *** Reconciliation on concrete checkpoints *)

Lemma bare_checkpoint_unmodified_witness :
  Cldm.reconcile Z ReconcileExamples.zadd ReconcileExamples.zsub
    ReconcileExamples.transfer_on
    (Some ReconcileExamples.base_sd) ReconcileExamples.bare_sd
  = Ok ReconcileExamples.bare_sd.
Proof.
  apply (bare_checkpoint_unmodified Z ReconcileExamples.zadd
           ReconcileExamples.zsub).
  repeat constructor.
Defined.

Lemma difference_checkpoint_offsets_witness :
  exists final counter,
    Cldm.transfer_control Z ReconcileExamples.zadd ReconcileExamples.zsub true
      ReconcileExamples.diff_sd ReconcileExamples.base_sd
    = Ok (final, counter) /\
    dict_get final "control_model.time_embed.0.weight" = Some (5 + 10)%Z /\
    dict_get final "control_model.zero_convs.0.0.weight" = Some 7%Z.
Proof.
  destruct (difference_checkpoint_offsets Z ReconcileExamples.zadd
              ReconcileExamples.zsub ∅
              ReconcileExamples.base_sd ReconcileExamples.diff_sd
              eq_refl eq_refl
              [("time_embed.0.weight", 15%Z); ("zero_convs.0.0.weight", 7%Z)]
              eq_refl)
    as (final & counter & Hrun & _ & Hv).
  exists final, counter. split; [exact Hrun|]. split.
  - destruct (Hv "control_model.time_embed.0.weight" 5%Z eq_refl eq_refl)
      as (H1 & _).
    destruct (H1 10%Z eq_refl) as (v & Hadd & Hget).
    injection Hadd as <-. exact Hget.
  - destruct (Hv "control_model.zero_convs.0.0.weight" 7%Z eq_refl eq_refl)
      as (_ & H2 & _).
    exact (H2 eq_refl).
Defined.

(** C3 as stated fails where the rest of a control key holds a further
    [model.]: the key below has the stored value 5 and its lookup key as the
    claim derives it is in the base model with value 10, yet the reconciled
    value is 5, not [5 + 10]. *)
Lemma difference_lookup_key_counterexample :
  let key := "control_model.a.model.b" in
  let sd := ReconcileExamples.inner_diff_sd in
  let unet := ReconcileExamples.inner_base_sd in
  Cldm.bundled Z sd /\
  dict_mem "difference" sd = true /\
  Cldm.control_key key /\
  dict_get sd key = Some 5%Z /\
  dict_get unet (ReconcileExamples.spec_lookup_key key) = Some 10%Z /\
  Cldm.transfer_control Z ReconcileExamples.zadd ReconcileExamples.zsub true
    sd unet = Ok ([(key, 5%Z)], 0) /\
  Cldm.reconcile Z ReconcileExamples.zadd ReconcileExamples.zsub ∅
    (Some unet) sd
  = Ok [("a.model.b", 5%Z)] /\
  (5 <> 5 + 10)%Z.
Proof. repeat split; try reflexivity. discriminate. Qed.

Lemma transfer_checkpoint_offsets_witness :
  exists final counter,
    Cldm.transfer_control Z ReconcileExamples.zadd ReconcileExamples.zsub
      false ReconcileExamples.bundled_sd ReconcileExamples.base_sd
    = Ok (final, counter) /\
    dict_get final "control_model.time_embed.0.weight"
    = Some (5 + 10 - 2)%Z.
Proof.
  destruct (transfer_checkpoint_offsets Z ReconcileExamples.zadd
              ReconcileExamples.zsub
              ReconcileExamples.transfer_on ReconcileExamples.base_sd
              ReconcileExamples.bundled_sd)
    as (_ & H); [reflexivity | reflexivity | reflexivity | reflexivity |].
  destruct (H [("time_embed.0.weight", 13%Z); ("zero_convs.0.0.weight", 7%Z)]
              eq_refl)
    as (final & counter & Hrun & _ & Hv).
  exists final, counter. split; [exact Hrun|].
  destruct (Hv "control_model.time_embed.0.weight" 5%Z 10%Z 2%Z
              eq_refl eq_refl eq_refl eq_refl)
    as (s & v & Hadd & Hsub & Hget & _).
  injection Hadd as <-. injection Hsub as <-. exact Hget.
Defined.

(** C2 as stated fails where the rest of a control key holds a further
    [model.]: the key below has the stored value 5, its lookup key as the
    claim derives it is in the base model with value 10, the checkpoint
    records the base value 1 for it, and the reconciled value is 5, not
    [5 + 10 - 1]. *)
Lemma transfer_lookup_key_counterexample :
  let key := "control_model.a.model.b" in
  let sd := ReconcileExamples.inner_sd in
  let unet := ReconcileExamples.inner_base_sd in
  Cldm.bundled Z sd /\
  dict_mem "difference" sd = false /\
  Cldm.opts_get ReconcileExamples.transfer_on
    "control_net_control_transfer" false = true /\
  Cldm.has_base_keys Z sd /\
  Cldm.control_key key /\
  dict_get sd key = Some 5%Z /\
  dict_get unet (ReconcileExamples.spec_lookup_key key) = Some 10%Z /\
  dict_get sd ("model.diffusion_model."
               +:+ ReconcileExamples.spec_lookup_key key) = Some 1%Z /\
  Cldm.transfer_control Z ReconcileExamples.zadd ReconcileExamples.zsub false
    sd unet = Ok ([(key, 5%Z)], 0) /\
  Cldm.reconcile Z ReconcileExamples.zadd ReconcileExamples.zsub
    ReconcileExamples.transfer_on (Some unet) sd
  = Ok [("a.model.b", 5%Z)] /\
  (5 <> 5 + 10 - 1)%Z.
Proof. repeat split; try reflexivity. discriminate. Qed.

(** ** The hosting wrapper *)

Section HostingFacts.
Import PyList Torch Cldm.
Variable Scalar : Type.
Variable szero : Scalar.
Variables sadd smul : Scalar -> Scalar -> Scalar.
Variables Timesteps TEmb Emb Ctx : Type.
Variable timestep_embedding : option Timesteps -> Z -> result TEmb.
Variable run_embed : sequential Scalar -> TEmb -> result Emb.
Variable run_ext :
  layer Scalar -> Tensor Scalar -> Emb -> Ctx -> result (Tensor Scalar).
Variable cast : torch_dtype -> Tensor Scalar -> result (Tensor Scalar).
Variable dtype_of : Tensor Scalar -> torch_dtype.
Variable tadd : Tensor Scalar -> Tensor Scalar -> result (Tensor Scalar).
Variable tscale : Tensor Scalar -> Scalar -> result (Tensor Scalar).
Variable cat : Tensor Scalar -> Tensor Scalar -> result (Tensor Scalar).
Variable interpolate : Tensor Scalar -> list nat -> result (Tensor Scalar).
Variable Fwd : Type.
Variable run_foreign :
  Fwd -> Tensor Scalar -> option Timesteps -> Ctx -> result (Tensor Scalar).
Variable device : Type.
Variable cpu : device.

#[local] Abbreviation UNetModel := (Cldm.UNetModel Scalar TEmb Emb Ctx Fwd).
#[local] Abbreviation world := (Cldm.world Scalar TEmb Emb Ctx Fwd device).
#[local] Abbreviation call :=
  (Cldm.call Scalar szero sadd smul Timesteps TEmb Emb Ctx timestep_embedding
     run_embed run_ext cast dtype_of tadd tscale cat interpolate Fwd
     run_foreign device cpu).

Lemma original_forward_hook (model : UNetModel) :
  attrs (hook model) !! "_original_forward" = Some (get_forward model).
Proof.
  unfold hook; simpl. rewrite lookup_insert_ne by done.
  by rewrite lookup_insert_eq.
Qed.

(** C1.  [restore] on a network without [_original_forward] returns the
    network as it is (and, being a function, raises nothing).  [hook] then
    [restore] gives back the [forward] that the network had before [hook],
    so that calling it gives the same outputs (and leaves the same state) on
    the same inputs, and leaves no [_original_forward]. *)
Theorem hook_restore (model : UNetModel) :
  (attrs model !! "_original_forward" = None -> restore model = model) /\
  get_forward (restore (hook model)) = get_forward model /\
  attrs (restore (hook model)) !! "_original_forward" = None /\
  forall opts (w : world) x timesteps context,
    call (get_forward (restore (hook model))) opts w x timesteps context
    = call (get_forward model) opts w x timesteps context.
Proof.
  assert (H : get_forward (restore (hook model)) = get_forward model).
  { unfold restore. rewrite original_forward_hook. unfold get_forward at 1.
    simpl. rewrite lookup_delete_ne by done. by rewrite lookup_insert_eq. }
  split_and!.
  - intros Hno. unfold restore. by rewrite Hno.
  - exact H.
  - unfold restore. rewrite original_forward_hook. simpl.
    apply lookup_delete_eq.
  - intros. by rewrite H.
Qed.

(** C10.  [notify] sets [hint_cond] and [weight] and nothing else: the
    other fields of the wrapper, the host network with its hook state, and
    the device of the control network are as before. *)
Theorem notify_frame (w : world) (cond_like : option (Tensor Scalar))
    (new_weight : Scalar) :
  let w' := do_notify cond_like new_weight w in
  hint_cond (wrapper w') = cond_like /\
  weight (wrapper w') = new_weight /\
  only_mid_control (wrapper w') = only_mid_control (wrapper w) /\
  lowvram (wrapper w') = lowvram (wrapper w) /\
  control (wrapper w') = control (wrapper w) /\
  control_model (wrapper w') = control_model (wrapper w) /\
  unet w' = unet w /\
  control_device w' = control_device w.
Proof. by repeat split. Qed.

(** C5.  With [xw] the last dimension of the latent and [hw] the last
    dimension of [hint_cond]: when [|xw - hw // 8| > 8] the flag used for
    the call is the setting [control_net_only_midctrl_hires] (true when the
    setting is absent), whatever the wrapper's flag; otherwise it is the
    wrapper's [only_mid_control]. *)
Theorem hires_only_mid_control_cases (opts : gmap string bool)
    (outer : PlugableControlModel Scalar) (x hint : Tensor Scalar)
    (xw hw : nat) :
  hint_cond outer = Some hint ->
  last (shape x) = Some xw ->
  last (shape hint) = Some hw ->
  ((Z.abs (Z.of_nat xw - Z.of_nat hw / 8) > 8)%Z ->
   hires_only_mid_control opts outer x
   = Ok (default true (opts !! "control_net_only_midctrl_hires"))) /\
  ((Z.abs (Z.of_nat xw - Z.of_nat hw / 8) <= 8)%Z ->
   hires_only_mid_control opts outer x = Ok (only_mid_control outer)).
Proof.
  intros Hh Hx Hw. unfold hires_only_mid_control, last_dim.
  rewrite Hh, Hx. simpl. rewrite Hw. simpl.
  split; intros H.
  - by rewrite (proj2 (Z.gtb_gt _ _)) by lia.
  - destruct (Z.gtb_spec (Z.abs (Z.of_nat xw - Z.of_nat hw / 8)) 8); [lia|done].
Qed.

End HostingFacts.

(** ** Python lists *)

Section ListFacts.
Import PyList.
Context {A : Type}.

Lemma pop_snoc (l : list A) (x : A) : pop (l ++ [x]) = Ok (x, l).
Proof.
  induction l as [|a l IH]; [done|].
  change (pop ((a :: l) ++ [x]))
    with (match l ++ [x] with
          | [] => Ok (a, [])
          | _ :: _ => '(y, r) ← pop (l ++ [x]); Ok (y, a :: r)
          end).
  rewrite IH. by destruct l.
Qed.

Lemma pop_Ok (l r : list A) (x : A) : pop l = Ok (x, r) -> l = r ++ [x].
Proof.
  destruct l as [|a l] using rev_ind; [discriminate|].
  rewrite pop_snoc. by intros [= -> ->].
Qed.

Lemma for_each_invariant {S B : Type} (P : S -> Prop)
    (f : S -> B -> result S) (l : list B) (s s' : S) :
  (forall s a s', P s -> f s a = Ok s' -> P s') ->
  P s -> for_each f l s = Ok s' -> P s'.
Proof.
  intros Hf. revert s. induction l as [|a l IH]; intros s Hs H; simpl in H.
  - by inversion H; subst.
  - apply bind_Ok in H as (s1 & Ha & H). eauto.
Qed.

End ListFacts.

(** ** The control network *)

Section NetworkFacts.
Import PyList Torch Cldm.
Variable Scalar : Type.
Variable szero : Scalar.
Variables sadd smul : Scalar -> Scalar -> Scalar.
Variable init : list nat -> Tensor Scalar.

#[local] Abbreviation zeroed := (Cldm.zeroed Scalar szero).
#[local] Abbreviation is_zero_conv := (Cldm.is_zero_conv Scalar szero).
#[local] Abbreviation paired := (Cldm.paired Scalar szero).

Lemma zero_module_zeroed (c : conv Scalar) : zeroed (zero_module szero c).
Proof. repeat constructor. Qed.

Lemma make_zero_conv_Ok (n_dims channels : Z) (m : sequential Scalar) :
  make_zero_conv Scalar szero init n_dims channels = Ok m -> is_zero_conv m.
Proof.
  unfold make_zero_conv. intros (c & _ & [= <-])%bind_Ok.
  eexists. split; [done | apply zero_module_zeroed].
Qed.

Lemma paired_snoc (st : locals Scalar) (layers zc : sequential Scalar)
    (fs : Z) (chans : list Z) (ch ds nh : Z) :
  paired st -> is_zero_conv zc ->
  paired {| l_input_blocks := l_input_blocks Scalar st ++ [layers];
            l_zero_convs := l_zero_convs Scalar st ++ [zc];
            l_feature_size := fs;
            l_input_block_chans := chans;
            l_ch := ch;
            l_ds := ds;
            l_num_heads := nh |}.
Proof.
  intros [Hlen Hz] Hzc. split; simpl.
  - rewrite !length_app. simpl. lia.
  - apply Forall_app. split; [done | by constructor].
Qed.

Lemma res_step_paired cfg ted level mult (st st' : locals Scalar) nr :
  paired st ->
  res_step Scalar szero init cfg ted level mult st nr = Ok st' ->
  paired st'.
Proof.
  intros Hst H. unfold res_step in H.
  apply bind_Ok in H as ([layers nh] & _ & H).
  apply bind_Ok in H as (zc & Hzc%make_zero_conv_Ok & [= <-]).
  by apply paired_snoc.
Qed.

Lemma down_step_paired cfg ted (st st' : locals Scalar) :
  paired st ->
  down_step Scalar szero init cfg ted st = Ok st' ->
  paired st'.
Proof.
  intros Hst H. unfold down_step in H.
  apply bind_Ok in H as (zc & Hzc%make_zero_conv_Ok & [= <-]).
  by apply paired_snoc.
Qed.

Lemma level_step_paired cfg ted res_blocks (st st' : locals Scalar) lm :
  paired st ->
  level_step Scalar szero init cfg ted res_blocks st lm = Ok st' ->
  paired st'.
Proof.
  intros Hst H. unfold level_step in H. destruct lm as [level mult].
  apply bind_Ok in H as (n & _ & H).
  apply bind_Ok in H as (st1 & Hres & H).
  assert (paired st1).
  { eapply (for_each_invariant paired); [|exact Hst|exact Hres].
    intros ? ? ? ?. by apply res_step_paired. }
  destruct (negb _); [by eapply down_step_paired | by inversion H; subst].
Qed.

(** What the constructor establishes. *)
Lemma ControlNet_init_Ok cfg (net : ControlNet Scalar) :
  ControlNet_init Scalar szero init cfg = Ok net ->
  length (zero_convs net) = length (input_blocks net) /\
  Forall is_zero_conv (zero_convs net) /\
  is_zero_conv (middle_block_out net) /\
  exists pre c, input_hint_block net = pre ++ [Conv c] /\ zeroed c.
Proof.
  unfold ControlNet_init. intros H.
  apply bind_Ok in H as (res_blocks & _ & H).
  apply bind_Ok in H as (c0 & _ & H).
  apply bind_Ok in H as (zc0 & Hzc0%make_zero_conv_Ok & H).
  apply bind_Ok in H as (hint_block & Hhint & H).
  apply bind_Ok in H as (st & Hloop & H).
  apply bind_Ok in H as ([nh dh] & _ & H).
  apply bind_Ok in H as (zc_mid & Hmid%make_zero_conv_Ok & [= <-]). simpl.
  assert (paired st) as [Hlen Hz].
  { eapply (for_each_invariant paired); [|  |exact Hloop].
    - intros ? ? ? ?. by apply level_step_paired.
    - split; simpl; [done | by repeat constructor]. }
  split_and!; [done..|].
  unfold make_input_hint_block in Hhint.
  repeat (apply bind_Ok in Hhint as (? & _ & Hhint)).
  injection Hhint as <-.
  eexists (_ :: _ :: _ :: _ :: _ :: _ :: _ :: _ :: _ :: _ :: _ :: _ :: _ :: [_]), _.
  split; [reflexivity | apply zero_module_zeroed].
Qed.

Section ZeroOutput.
Variables Emb Ctx : Type.
Variable run_ext :
  layer Scalar -> Tensor Scalar -> Emb -> Ctx -> result (Tensor Scalar).

(** What the arithmetic of the tensor entries is assumed to satisfy, as
    floating-point arithmetic does: the product of zero and a finite number
    is a zero (of either sign), and the sum of two zeros is a zero.  Nothing
    is assumed of the product of zero and a number that is not finite. *)
Variables finite is_zero : Scalar -> Prop.
Hypothesis zero_is_zero : is_zero szero.
Hypothesis zero_finite : finite szero.
Hypothesis smul_zero_l : forall s, finite s -> is_zero (smul szero s).
Hypothesis sadd_zero : forall a b, is_zero a -> is_zero b -> is_zero (sadd a b).

Lemma sum_zeros (l : list Scalar) :
  Forall is_zero l -> is_zero (sum Scalar szero sadd l).
Proof.
  induction 1 as [|s l Hs _ IH]; simpl; [exact zero_is_zero|].
  by apply sadd_zero.
Qed.

Lemma conv_entry_zero (c : conv Scalar) (x : Tensor Scalar)
    (lead : list nat) (o : nat) (pos : list nat) :
  zeroed c -> valued finite x ->
  is_zero (conv_entry Scalar szero sadd smul c x lead o pos).
Proof.
  unfold zeroed, parameters. intros Hz Hx.
  apply Forall_cons in Hz as [Hw Hz]. apply Forall_cons in Hz as [Hb _].
  unfold conv_entry. apply sadd_zero; [|rewrite Hb; exact zero_is_zero].
  apply sum_zeros, Forall_forall. intros s Hs.
  apply list_elem_of_In, in_flat_map in Hs as (ci & _ & Hs).
  apply in_map_iff in Hs as (off & <- & _).
  rewrite Hw. apply smul_zero_l.
  destruct (taps _ _ _ _ _); [apply Hx | exact zero_finite].
Qed.

Lemma conv_forward_zero (c : conv Scalar) (x y : Tensor Scalar) :
  zeroed c -> valued finite x ->
  conv_forward szero sadd smul c x = Ok y -> valued is_zero y.
Proof.
  intros Hz Hx. unfold conv_forward.
  destruct (_ && _); [|discriminate]. intros [= <-] idx. simpl.
  destruct (drop _ idx); [exact zero_is_zero | by apply conv_entry_zero].
Qed.

Lemma run_zero_conv (m : sequential Scalar) (x y : Tensor Scalar)
    (emb : Emb) (context : Ctx) :
  is_zero_conv m -> valued finite x ->
  run Scalar szero sadd smul Emb Ctx run_ext m x emb context = Ok y ->
  valued is_zero y.
Proof.
  intros (c & -> & Hz) Hx H. unfold run in H. simpl in H.
  apply bind_Ok in H as (y' & Hc & [= <-]).
  by apply (conv_forward_zero c x).
Qed.


End ZeroOutput.

Section Forward.
Variables Timesteps TEmb Emb Ctx : Type.
Variable timestep_embedding : option Timesteps -> Z -> result TEmb.
Variable run_embed : sequential Scalar -> TEmb -> result Emb.
Variable run_ext :
  layer Scalar -> Tensor Scalar -> Emb -> Ctx -> result (Tensor Scalar).
Variable cast : torch_dtype -> Tensor Scalar -> result (Tensor Scalar).
Variable tadd : Tensor Scalar -> Tensor Scalar -> result (Tensor Scalar).
Variable tscale : Tensor Scalar -> Scalar -> result (Tensor Scalar).
Variable cat : Tensor Scalar -> Tensor Scalar -> result (Tensor Scalar).
Variable interpolate : Tensor Scalar -> list nat -> result (Tensor Scalar).
Variable Fwd : Type.

#[local] Abbreviation run := (Cldm.run Scalar szero sadd smul Emb Ctx run_ext).
#[local] Abbreviation encoder_step :=
  (Cldm.encoder_step Scalar szero sadd smul Emb Ctx run_ext tadd).
#[local] Abbreviation ControlNet_align :=
  (Cldm.ControlNet_align Scalar interpolate).
#[local] Abbreviation ControlNet_forward :=
  (Cldm.ControlNet_forward Scalar szero sadd smul Timesteps TEmb Emb Ctx
     timestep_embedding run_embed run_ext cast tadd interpolate).
#[local] Abbreviation decoder_step :=
  (Cldm.decoder_step Scalar Emb Ctx tadd tscale cat interpolate).
#[local] Abbreviation forward_encoder :=
  (Cldm.forward_encoder Scalar szero sadd smul Timesteps TEmb Emb Ctx
     timestep_embedding run_embed run_ext cast tadd interpolate Fwd).
#[local] Abbreviation UNetModel := (Cldm.UNetModel Scalar TEmb Emb Ctx Fwd).
#[local] Abbreviation activations :=
  (Cldm.activations Scalar szero sadd smul Emb Ctx run_ext tadd).
#[local] Abbreviation control_emb :=
  (Cldm.control_emb Scalar Timesteps TEmb Emb timestep_embedding run_embed).
#[local] Abbreviation output_activations :=
  (Cldm.output_activations Scalar szero sadd smul Emb Ctx run_ext cast tadd).
#[local] Abbreviation ordered_outputs :=
  (Cldm.ordered_outputs Scalar szero sadd smul Emb Ctx run_ext cast tadd).
#[local] Abbreviation host_middle :=
  (Cldm.host_middle Scalar TEmb Emb Ctx cast Fwd).

Lemma length_activations emb context blocks h g acts :
  activations emb context h g blocks = Ok acts -> length acts = length blocks.
Proof.
  revert h g acts.
  induction blocks as [|b bs IH]; intros h g acts H; simpl in H.
  - by injection H as <-.
  - apply bind_Ok in H as (h1 & _ & H). apply bind_Ok in H as (h2 & _ & H).
    apply bind_Ok in H as (rest & Hr & [= <-]). simpl. f_equal. by eapply IH.
Qed.

Lemma last_cons_default {B : Type} (x y : B) (l : list B) :
  default x (last (y :: l)) = default y (last l).
Proof.
  revert x y. induction l as [|a l IH]; intros x y; [done|].
  change (last (y :: a :: l)) with (last (a :: l)).
  by rewrite !(IH _ a).
Qed.

(** The loop of lines 442-449, over paired blocks and zero convolutions. *)
Lemma encoder_fold emb context ib zc h g outs h' g' outs' :
  length zc = length ib ->
  for_each (encoder_step emb context) (zip ib zc) (h, g, outs)
    = Ok (h', g', outs') ->
  exists acts os,
    activations emb context h g ib = Ok acts /\
    h' = default h (last acts) /\
    Forall2 (fun (za : sequential Scalar * Tensor Scalar) o =>
               run za.1 za.2 emb context = Ok o)
            (zip zc acts) os /\
    outs' = outs ++ os.
Proof.
  revert zc h g outs.
  induction ib as [|b bs IH]; intros [|z zs] h g outs Hlen H;
    simpl in Hlen; try discriminate.
  - simpl in H. injection H as <- <- <-. exists [], []. simpl.
    split_and!; [done | done | constructor | by rewrite app_nil_r].
  - injection Hlen as Hlen.
    cbn [zip_with for_each] in H.
    apply bind_Ok in H as ([[h1 g1] outs1] & Hstep & H).
    unfold Cldm.encoder_step in Hstep.
    apply bind_Ok in Hstep as (hb & Hb & Hstep).
    apply bind_Ok in Hstep as (h2 & Hg & Hstep).
    apply bind_Ok in Hstep as (o & Ho & [= <- <- <-]).
    destruct (IH zs h2 None (outs ++ [o]) Hlen H)
      as (acts & os & Hacts & Hh & Hos & Houts).
    exists (h2 :: acts), (o :: os). split_and!.
    + cbn [Cldm.activations]. rewrite Hb. simpl. rewrite Hg. simpl.
      by rewrite Hacts.
    + by rewrite last_cons_default.
    + simpl. by constructor.
    + by rewrite Houts, <- app_assoc.
Qed.

(** What [ordered_outputs] holds when it returns. *)
Lemma ordered_outputs_Ok net x guided_hint emb context outs :
  length (zero_convs net) = length (input_blocks net) ->
  ordered_outputs net x guided_hint emb context = Ok outs ->
  exists acts,
    output_activations net x guided_hint emb context = Ok acts /\
    length acts = length (input_blocks net) + 1 /\
    Forall2 (fun (za : sequential Scalar * Tensor Scalar) o =>
               run za.1 za.2 emb context = Ok o)
            (zip (zero_convs net ++ [middle_block_out net]) acts) outs /\
    length outs = length (input_blocks net) + 1.
Proof.
  intros Hlen H. unfold Cldm.ordered_outputs in H.
  apply bind_Ok in H as (acts & Hacts & H). apply mapM_Ok in H.
  exists acts.
  assert (length acts = length (input_blocks net) + 1) as Hl.
  { unfold Cldm.output_activations in Hacts.
    apply bind_Ok in Hacts as (h0 & _ & Hacts).
    apply bind_Ok in Hacts as (a & Ha & Hacts).
    apply bind_Ok in Hacts as (hm & _ & [= <-]).
    rewrite length_app. simpl. by rewrite (length_activations _ _ _ _ _ _ Ha). }
  split_and!; [done..|].
  apply Forall2_length in H.
  rewrite <- H, length_zip_with, length_app. simpl. lia.
Qed.

Lemma ControlNet_forward_Ok net x hint timesteps context outs :
  length (zero_convs net) = length (input_blocks net) ->
  ControlNet_forward net x hint timesteps context = Ok outs ->
  exists emb guided_hint,
    control_emb net timesteps = Ok emb /\
    ordered_outputs net x guided_hint emb context = Ok outs.
Proof.
  intros Hlen H. unfold Cldm.ControlNet_forward in H.
  apply bind_Ok in H as (t_emb & Ht & H).
  apply bind_Ok in H as (emb & Hemb & H).
  apply bind_Ok in H as (gh0 & _ & H).
  apply bind_Ok in H as ([h1 w1] & _ & H).
  apply bind_Ok in H as (guided_hint & _ & H).
  apply bind_Ok in H as (h0 & Hcast & H).
  apply bind_Ok in H as ([[h g'] outs0] & Hloop & H).
  apply bind_Ok in H as (hm & Hm & H).
  apply bind_Ok in H as (o & Ho & [= <-]).
  apply encoder_fold in Hloop as (acts & os & Hacts & -> & Hos & ->);
    [|done].
  exists emb, guided_hint. split.
  - unfold Cldm.control_emb. rewrite Ht. exact Hemb.
  - unfold Cldm.ordered_outputs, Cldm.output_activations.
    rewrite Hcast. simpl. rewrite Hacts. simpl. rewrite Hm. simpl.
    apply mapM_Ok.
    rewrite zip_with_app
      by (rewrite Hlen; symmetry; by eapply length_activations).
    apply Forall2_app; [done|]. simpl. by repeat constructor.
Qed.

(** One decoder block pops one control element, unless [only_mid_control]
    is on. *)
Lemma decoder_step_control outer omc emb context h hs control module
    h' hs' control' :
  decoder_step outer omc emb context (h, hs, control) module
    = Ok (h', hs', control') ->
  if omc then control' = control
  else exists c, control = control' ++ [c].
Proof.
  unfold Cldm.decoder_step. intros H.
  apply bind_Ok in H as ([[h1 hs1] control1] & H & H2).
  apply bind_Ok in H2 as (h2 & _ & [= _ <- <-]).
  destruct omc.
  - apply bind_Ok in H as ([e hs2] & _ & H).
    apply bind_Ok in H as (h3 & _ & [= _ _ <-]). done.
  - apply bind_Ok in H as ([hs_input hs2] & _ & H).
    apply bind_Ok in H as ([control_input control2] & Hpop & H).
    apply bind_Ok in H as (h3 & _ & H).
    apply bind_Ok in H as (scaled & _ & H).
    apply bind_Ok in H as (added & _ & H).
    apply bind_Ok in H as (h4 & _ & [= _ _ <-]).
    apply pop_Ok in Hpop. eauto.
Qed.

(** The decoder loop of lines 142-149 over any blocks. *)
Lemma decoder_loop_control outer omc emb context blocks h hs control
    h' hs' control' :
  for_each (decoder_step outer omc emb context) blocks (h, hs, control)
    = Ok (h', hs', control') ->
  if omc then control' = control
  else length blocks <= length control /\
       control' = take (length control - length blocks) control.
Proof.
  revert h hs control.
  induction blocks as [|b bs IH]; intros h hs control H; simpl in H.
  - injection H as _ _ <-. destruct omc; [done|].
    split; [simpl; lia|]. rewrite Nat.sub_0_r. by rewrite take_ge.
  - apply bind_Ok in H as ([[h1 hs1] control1] & Hstep & H).
    apply decoder_step_control in Hstep. apply IH in H.
    destruct omc; [congruence|].
    destruct Hstep as [c ->], H as [Hle ->].
    rewrite length_app. simpl. split; [lia|].
    replace (length control1 + 1 - S (length bs))
      with (length control1 - length bs) by lia.
    rewrite take_app_le by lia. done.
Qed.

Lemma forward_encoder_Ok opts outer (self : UNetModel) x timesteps context
    omc emb h hs control :
  forward_encoder opts outer self x timesteps context
    = Ok (omc, emb, (h, hs, control)) ->
  hires_only_mid_control opts outer x = Ok omc /\
  exists hint outs c hm,
    hint_cond outer = Some hint /\
    ControlNet_forward (control_model outer) x hint timesteps context
      = Ok outs /\
    outs = control ++ [c] /\
    host_middle self x emb context = Ok hm /\
    tadd hm c = Ok h.
Proof.
  unfold Cldm.forward_encoder. intros H.
  apply bind_Ok in H as (omc' & Homc & H).
  apply bind_Ok in H as (hint & Hhint & H).
  apply bind_Ok in H as (outs & Hfwd & H).
  apply bind_Ok in H as (u & _ & H).
  apply bind_Ok in H as (t_emb & Ht & H).
  apply bind_Ok in H as (emb' & Hemb & H).
  apply bind_Ok in H as (h0 & Hcast & H).
  apply bind_Ok in H as ([h_enc hs_enc] & Henc & H).
  apply bind_Ok in H as (hm & Hm & H).
  apply bind_Ok in H as ([c control0] & Hpop & H).
  apply bind_Ok in H as (h1 & Hadd & H).
  injection H as -> -> -> -> ->.
  split; [done|]. exists hint, outs, c, hm.
  destruct (hint_cond outer); [|discriminate]. injection Hhint as ->.
  split_and!; [done | done | by apply pop_Ok | | done].
  unfold Cldm.host_middle. rewrite Hcast. simpl. rewrite Henc. exact Hm.
Qed.


End Forward.
End NetworkFacts.

(** *** The theorems on the small network *)

Lemma hook_restore_witness :
  Cldm.restore NetworkExamples.host = NetworkExamples.host /\
  Cldm.get_forward (Cldm.restore (Cldm.hook NetworkExamples.host))
  = Cldm.Foreign tt.
Proof.
  destruct (hook_restore Z 0%Z Z.add Z.mul nat unit unit unit
              NetworkExamples.timestep_embedding NetworkExamples.run_embed
              NetworkExamples.run_ext NetworkExamples.cast
              (fun _ => Cldm.float32) NetworkExamples.add
              NetworkExamples.scale NetworkExamples.cat1
              NetworkExamples.nearest unit (fun _ x _ _ => Ok x) bool false
              NetworkExamples.host) as (H1 & H2 & _).
  split; [apply H1; reflexivity | exact H2].
Defined.

Lemma hires_only_mid_control_cases_witness :
  Cldm.hires_only_mid_control ∅ NetworkExamples.outer
    NetworkExamples.latent_hires = Ok true /\
  Cldm.hires_only_mid_control ∅ NetworkExamples.outer
    NetworkExamples.latent = Ok false.
Proof.
  split.
  - rewrite (proj1 (hires_only_mid_control_cases Z ∅ NetworkExamples.outer
                      NetworkExamples.latent_hires NetworkExamples.hint 32 64
                      eq_refl eq_refl eq_refl)); reflexivity.
  - rewrite (proj2 (hires_only_mid_control_cases Z ∅ NetworkExamples.outer
                      NetworkExamples.latent NetworkExamples.hint 8 64
                      eq_refl eq_refl eq_refl)); [reflexivity | discriminate].
Defined.





(** ** The annotators *)

Section ScribbleFacts.
Import Processor.
Variable HWC3 : image -> image.
Variable resize_image : image -> Z -> image.

#[local] Abbreviation simple_scribble :=
  (Processor.simple_scribble HWC3 resize_image).

Lemma scribble_rows (p : image) (mins : list (list Z)) :
  Forall2 (Forall2 (fun px m => np_min px = Ok m)) p mins ->
  set_where (map (map (fun m => (m <? 127)%Z)) mins) 255 (zeros_like p)
  = map (map scribble_pixel) p.
Proof.
  unfold set_where, zeros_like.
  induction 1 as [|row ms p mins Hrow _ IH]; simpl; [done|].
  f_equal; [|exact IH]. clear IH.
  induction Hrow as [|px m row ms Hpx _ IH]; simpl; [done|].
  f_equal; [|exact IH].
  unfold scribble_pixel. rewrite Hpx.
  destruct (m <? 127)%Z; rewrite ?map_map; done.
Qed.

(** What [simple_scribble] returns, and when. *)
Lemma simple_scribble_Ok (img : image) (res : Z) (r : image) :
  simple_scribble img res = Ok r <->
  Forall (Forall (fun px => px <> [])) (resize_image (HWC3 img) res) /\
  r = map (map scribble_pixel) (resize_image (HWC3 img) res).
Proof.
  unfold Processor.simple_scribble.
  set (p := resize_image (HWC3 img) res). split.
  - intros H. apply bind_Ok in H as (mins & Hm & [= <-]).
    apply mapM_Ok in Hm.
    assert (Forall2 (Forall2 (fun px m => np_min px = Ok m)) p mins) as H2.
    { eapply Forall2_impl; [exact Hm|]. intros row ms. apply mapM_Ok. }
    split; [|by apply scribble_rows].
    clear Hm. induction H2 as [|row ms p' mins' Hrow _ IH]; constructor; [|done].
    clear IH. induction Hrow as [|px m ? ? Hpx _ IH]; constructor; [|done].
    by destruct px.
  - intros [Hne ->].
    assert (exists mins,
               Forall2 (Forall2 (fun px m => np_min px = Ok m)) p mins)
      as [mins H2].
    { clear -Hne. induction Hne as [|row p' Hrow _ [mins IH]].
      - exists []. constructor.
      - assert (exists ms, Forall2 (fun px m => np_min px = Ok m) row ms)
          as [ms Hms].
        { clear -Hrow. induction Hrow as [|px row Hpx _ [ms IH]].
          - exists []. constructor.
          - destruct px as [|v px]; [done|].
            eexists (_ :: ms). constructor; [reflexivity | exact IH]. }
        exists (ms :: mins). by constructor. }
    assert (mapM (mapM np_min) p = Ok mins) as ->.
    { apply mapM_Ok. eapply Forall2_impl; [exact H2|].
      intros row ms. apply mapM_Ok. }
    simpl. by rewrite (scribble_rows _ _ H2).
Qed.

Lemma fold_min_const (v : Z) (l : list Z) :
  Forall (fun x => x = v) l -> fold_left Z.min l v = v.
Proof.
  induction 1 as [|x l -> _ IH]; simpl; [done|]. by rewrite Z.min_id.
Qed.

(** On a pixel of the output, the threshold gives the complement. *)
Lemma scribble_pixel_twice (px : list Z) :
  px <> [] ->
  scribble_pixel (scribble_pixel px)
  = map (fun v => (255 - v)%Z) (scribble_pixel px).
Proof.
  intros Hne. destruct px as [|v px]; [done|].
  unfold scribble_pixel at 2 3.
  change (np_min (v :: px)) with (Ok (fold_left Z.min px v)).
  set (m := fold_left Z.min px v).
  set (w := if (m <? 127)%Z then 255%Z else 0%Z).
  unfold scribble_pixel. cbn [map np_min].
  rewrite fold_min_const
    by (apply Forall_forall; intros x (? & -> & _)%list_elem_of_fmap; done).
  cbn [map]. rewrite !map_map.
  unfold w. destruct (m <? 127)%Z; reflexivity.
Qed.

Lemma scribble_pixel_nonempty (px : list Z) :
  px <> [] -> scribble_pixel px <> [].
Proof. by destruct px. Qed.

Lemma complement_not_fixed (px : list Z) :
  px <> [] -> map (fun v => (255 - v)%Z) px <> px.
Proof. destruct px as [|v px]; [done|]. intros _ [= ? _]. lia. Qed.

Lemma map_fixed {A : Type} (f : A -> A) (l : list A) :
  map f l = l -> Forall (fun x => f x = x) l.
Proof.
  induction l as [|x l IH]; simpl; [constructor|].
  intros [= Hx Hl]. constructor; [done | by apply IH].
Qed.

(** C7, amended.  On its own output (which the external utilities leave
    as it is) [simple_scribble] returns the complement of that output: the
    pixels at 255 become 0 and the pixels at 0 become 255.  So applying it
    twice never gives the result of applying it once on an image with a
    pixel; applying it three times does. *)
Theorem simple_scribble_twice (img : image) (res : Z) (r : image) :
  simple_scribble img res = Ok r ->
  resize_image (HWC3 r) res = r ->
  simple_scribble r res = Ok (invert r) /\
  (has_pixel r -> simple_scribble r res <> Ok r) /\
  (resize_image (HWC3 (invert r)) res = invert r ->
   simple_scribble (invert r) res = Ok r).
Proof.
  intros [Hne ->]%simple_scribble_Ok Hid.
  set (p := resize_image (HWC3 img) res) in *.
  set (r := map (map scribble_pixel) p) in *.
  assert (Hr : Forall (Forall (fun px => px <> [])) r).
  { unfold r. apply Forall_fmap. eapply Forall_impl; [exact Hne|].
    intros row Hrow. apply Forall_fmap. eapply Forall_impl; [exact Hrow|].
    intros px. apply scribble_pixel_nonempty. }
  assert (Hinv : map (map scribble_pixel) r = invert r).
  { unfold r, invert. rewrite !map_map.
    apply Forall_fmap_ext. eapply Forall_impl; [exact Hne|].
    intros row Hrow. rewrite !map_map.
    apply Forall_fmap_ext. eapply Forall_impl; [exact Hrow|].
    intros px. apply scribble_pixel_twice. }
  assert (Htwice : simple_scribble r res = Ok (invert r)).
  { apply simple_scribble_Ok. rewrite Hid. by split. }
  split_and!; [exact Htwice | |].
  - intros (row & px & Hrow & Hpx) Heq. rewrite Htwice in Heq.
    injection Heq as Heq. unfold invert in Heq.
    apply map_fixed in Heq.
    pose proof (map_fixed _ _ (proj1 (Forall_forall _ _) Heq row Hrow))
      as Hfix.
    apply (complement_not_fixed px).
    + apply (proj1 (Forall_forall _ _)
                   (proj1 (Forall_forall _ _) Hr row Hrow) px Hpx).
    + apply (proj1 (Forall_forall _ _) Hfix px Hpx).
  - intros Hid'. apply simple_scribble_Ok. rewrite Hid'. split.
    + unfold invert. apply Forall_fmap. eapply Forall_impl; [exact Hr|].
      intros row Hrow. apply Forall_fmap. eapply Forall_impl; [exact Hrow|].
      intros px. by destruct px.
    + rewrite <- Hinv. unfold r. rewrite !map_map.
      symmetry. apply Forall_fmap_ext. eapply Forall_impl; [exact Hne|].
      intros row Hrow. simpl. rewrite !map_map.
      apply Forall_fmap_ext. eapply Forall_impl; [exact Hrow|].
      intros px Hpx. simpl.
      rewrite scribble_pixel_twice by by apply scribble_pixel_nonempty.
      rewrite scribble_pixel_twice by done.
      rewrite map_map. rewrite <- (map_id (scribble_pixel px)) at 2.
      apply map_ext. intros v. lia.
Qed.

End ScribbleFacts.

Lemma simple_scribble_twice_witness :
  ProcessorExamples.simple_scribble ProcessorExamples.scribble_once 512
  = Ok ProcessorExamples.scribble_twice.
Proof.
  exact (proj1 (simple_scribble_twice ProcessorExamples.HWC3
                  ProcessorExamples.resize_image ProcessorExamples.two_pixels
                  512 ProcessorExamples.scribble_once eq_refl eq_refl)).
Defined.

(** C7 as stated fails: on the two-pixel image, with utilities that leave
    the output as it is, the second application turns the white pixel
    black and the black pixel white. *)
Lemma simple_scribble_counterexample :
  ProcessorExamples.simple_scribble ProcessorExamples.two_pixels 512
  = Ok ProcessorExamples.scribble_once /\
  ProcessorExamples.resize_image
    (ProcessorExamples.HWC3 ProcessorExamples.scribble_once) 512
  = ProcessorExamples.scribble_once /\
  ProcessorExamples.simple_scribble ProcessorExamples.scribble_once 512
  = Ok ProcessorExamples.scribble_twice /\
  ProcessorExamples.scribble_twice <> ProcessorExamples.scribble_once.
Proof. repeat split. discriminate. Qed.

Section UnloadFacts.
Import Processor.
Variable HWC3 : image -> image.
Variable resize_image : image -> Z -> image.
Variable Float : Type.
Variable Pose : Type.
Variable hed_fn : image -> image.
Variable mlsd_fn : image -> Float -> Float -> image.
Variable midas_fn : image -> Float -> option Float -> image * image.
Variable openpose_fn : image -> bool -> image * Pose.
Variable uniformer_fn : image -> image.
Variable nms : image -> Z -> Float -> image.
Variable GaussianBlur : image -> Float -> image.
Variable f3_0 : Float.

Variable canny_fn : image -> Z -> Z -> image.

#[local] Abbreviation detect :=
  (Processor.detect HWC3 resize_image Float Pose hed_fn mlsd_fn midas_fn
     openpose_fn uniformer_fn nms GaussianBlur f3_0).
#[local] Abbreviation step :=
  (Processor.step HWC3 resize_image Float Pose canny_fn hed_fn mlsd_fn
     midas_fn openpose_fn uniformer_fn nms GaussianBlur f3_0).
#[local] Abbreviation run_calls :=
  (Processor.run_calls HWC3 resize_image Float Pose canny_fn hed_fn mlsd_fn
     midas_fn openpose_fn uniformer_fn nms GaussianBlur f3_0).
#[local] Abbreviation call := (Processor.call Float).

Lemma unload_unfold (m : modality) (g : globals) :
  unload m g = unload_if_loaded (slot_name m) (detector_of m) g.
Proof. by destruct m. Qed.

Lemma detect_unfold (op : detection) img res a b has_hand (g : globals) :
  detect op img res a b has_hand g
  = emit (Call (detector_of (modality_of op)))
         (load_once (slot_name (modality_of op))
                    (detector_of (modality_of op)) g).
Proof. by destruct op. Qed.

Lemma load_once_loaded name d (g : globals) :
  is_Some (slots g !! name) -> load_once name d g = g.
Proof. intros [d' H]. unfold load_once. by rewrite H. Qed.

Lemma load_once_slot name d (g : globals) :
  is_Some (slots (load_once name d g) !! name).
Proof.
  unfold load_once. destruct (slots g !! name) eqn:E; [by rewrite E|].
  simpl. rewrite lookup_insert_eq. by eexists.
Qed.

Lemma unload_slots (m : modality) (g : globals) :
  slots (unload m g) = slots g.
Proof.
  rewrite unload_unfold. unfold unload_if_loaded.
  by destruct (slots g !! _).
Qed.

Lemma load_once_other name name' d (g : globals) :
  name <> name' ->
  slots (load_once name d g) !! name' = slots g !! name'.
Proof.
  intros Hne. unfold load_once. destruct (slots g !! name); [done|].
  simpl. by rewrite lookup_insert_ne.
Qed.

Lemma slot_name_inj (m m' : modality) : slot_name m = slot_name m' -> m = m'.
Proof. by destruct m, m'. Qed.

(** A call that is not a detection operation of [m] leaves the slot of [m]
    as it is. *)
Lemma step_other (m : modality) (c : call) (g : globals) :
  ~ detects Float m c ->
  slots (step g c) !! slot_name m = slots g !! slot_name m.
Proof.
  destruct c as [img res l h|op img res a b has_hand|m']; simpl; intros Hc.
  - apply load_once_other. by destruct m.
  - rewrite detect_unfold. simpl. apply load_once_other.
    intros ?%slot_name_inj. done.
  - by rewrite unload_slots.
Qed.

Lemma run_calls_other (m : modality) (cs : list call) (g : globals) :
  Forall (fun c => ~ detects Float m c) cs ->
  slots (run_calls cs g) !! slot_name m = slots g !! slot_name m.
Proof.
  intros H. revert g. induction H as [|c cs Hc _ IH]; intros g; [done|].
  simpl. rewrite IH. by apply step_other.
Qed.

(** C6, amended.  An unload operation on a state whose slot is unloaded
    returns the state as it is; the slot is unloaded after any calls since
    the module was imported among which there is no detection operation of
    the modality.  After a detection operation of the modality the slot is
    loaded; the unload operation then calls the detector's
    [unload_*_model] and leaves every slot as it is, so the slot stays
    loaded; and the next detection operation of the modality calls the
    cached detector without importing it again. *)
Theorem unload_keeps_slot (m : modality) (g : globals) :
  (slots g !! slot_name m = None -> unload m g = g) /\
  (forall cs : list call,
     Forall (fun c => ~ detects Float m c) cs ->
     unload m (run_calls cs initial) = run_calls cs initial) /\
  forall op img res a b has_hand,
    modality_of op = m ->
    let g1 := detect op img res a b has_hand g in
    let g2 := unload m g1 in
    is_Some (slots g1 !! slot_name m) /\
    slots g2 = slots g1 /\
    trace g2 = trace g1 ++ [UnloadModel (detector_of m)] /\
    forall op' img' res' a' b' has_hand',
      modality_of op' = m ->
      let g3 := detect op' img' res' a' b' has_hand' g2 in
      slots g3 = slots g1 /\
      trace g3 = trace g2 ++ [Call (detector_of m)].
Proof.
  split_and!.
  - intros H. rewrite unload_unfold. unfold unload_if_loaded. by rewrite H.
  - intros cs Hcs. rewrite unload_unfold. unfold unload_if_loaded.
    by rewrite (run_calls_other m cs initial Hcs).
  - intros op img res a b has_hand <- g1 g2.
    assert (H1 : is_Some (slots g1 !! slot_name (modality_of op))).
    { unfold g1. rewrite detect_unfold. apply load_once_slot. }
    assert (H2 : g2 = emit (UnloadModel (detector_of (modality_of op))) g1).
    { unfold g2. rewrite unload_unfold. unfold unload_if_loaded.
      by destruct H1 as [d ->]. }
    split_and!; [done | by rewrite H2 | by rewrite H2 |].
    intros op' img' res' a' b' has_hand' Hop' g3.
    unfold g3. rewrite detect_unfold, Hop', load_once_loaded; [|by rewrite H2].
    by rewrite H2.
Qed.

End UnloadFacts.

Lemma unload_keeps_slot_witness :
  Processor.unload_hed Processor.initial = Processor.initial /\
  Processor.slots
    (Processor.unload_hed
       (ProcessorExamples.hed ProcessorExamples.two_pixels 512
          Processor.initial).1) !! "model_hed"
  = Some Processor.apply_hed.
Proof.
  destruct (unload_keeps_slot ProcessorExamples.HWC3
              ProcessorExamples.resize_image unit unit (fun img => img)
              (fun img _ _ => img) (fun img _ _ => (img, img))
              (fun img _ => (img, tt)) (fun img => img)
              (fun img _ _ => img) (fun img _ => img) tt
              (fun img _ _ => img)
              Processor.Hed Processor.initial) as (H0 & _ & H).
  split; [apply H0; reflexivity|].
  destruct (H Processor.DHed ProcessorExamples.two_pixels 512%Z tt tt false eq_refl)
    as (_ & Hslots & _).
  exact (eq_trans (f_equal (fun s => s !! "model_hed") Hslots) eq_refl).
Defined.

(** C6 as stated fails in its second half: after [hed] has loaded its
    slot, [unload_hed] leaves [model_hed] holding the detector, not
    unloaded as in the initial state, and the next [hed] calls the cached
    detector with no new import. *)
Lemma unload_hed_counterexample :
  let g1 := (ProcessorExamples.hed ProcessorExamples.two_pixels 512
               Processor.initial).1 in
  let g2 := Processor.unload_hed g1 in
  let g3 := (ProcessorExamples.hed ProcessorExamples.two_pixels 512 g2).1 in
  Processor.slots Processor.initial !! "model_hed" = None /\
  Processor.slots g1 !! "model_hed" = Some Processor.apply_hed /\
  Processor.slots g2 !! "model_hed" = Some Processor.apply_hed /\
  Processor.slots g2 !! "model_hed" <> None /\
  Processor.trace g3
  = [Processor.Import Processor.apply_hed; Processor.Call Processor.apply_hed;
     Processor.UnloadModel Processor.apply_hed;
     Processor.Call Processor.apply_hed].
Proof. repeat split. discriminate. Qed.

(* ================================================================== *)
(** * Further properties of the code *)

(** ** Node names and lookup keys *)

Section NodeNameFacts.
Import PyStr Cldm.

Lemma slice_split (n : nat) (s : string) :
  s = slice_to n s +:+ slice_from n s.
Proof.
  revert s. induction n as [|n IH]; intros [|c s]; simpl; try done.
  change (String c s = String c (slice_to n s +:+ slice_from n s)).
  f_equal. apply IH.
Qed.

Lemma slice_to_prefix (p r : string) : slice_to (String.length p) (p +:+ r) = p.
Proof.
  induction p as [|c p IH]; [by destruct r|].
  change (String c (slice_to (String.length p) (p +:+ r)) = String c p).
  by rewrite IH.
Qed.

Lemma slice_from_prefix (p r : string) :
  slice_from (String.length p) (p +:+ r) = r.
Proof. induction p as [|c p IH]; [by destruct r | exact IH]. Qed.

Lemma length_append (p r : string) :
  String.length (p +:+ r) = String.length p + String.length r.
Proof.
  induction p as [|c p IH]; [done|].
  change (S (String.length (p +:+ r)) = S (String.length p + String.length r)).
  by rewrite IH.
Qed.

(** X1.  [get_node_name] splits a name at its parent: a name made of the
    parent and a non-empty rest gives [(True, rest)]; whenever the answer is
    [True], the name is the parent followed by the returned, non-empty,
    rest; and in every other case - the parent itself included - the answer
    is [(False, '')]. *)
Theorem get_node_name_splits (name parent_name : string) :
  (forall rest, rest <> "" ->
     get_node_name (parent_name +:+ rest) parent_name = (true, rest)) /\
  (forall node_name,
     get_node_name name parent_name = (true, node_name) ->
     name = parent_name +:+ node_name /\ node_name <> "") /\
  ((forall rest, rest <> "" -> name <> parent_name +:+ rest) ->
   get_node_name name parent_name = (false, "")) /\
  get_node_name parent_name parent_name = (false, "").
Proof.
  assert (H1 : forall rest, rest <> "" ->
             get_node_name (parent_name +:+ rest) parent_name = (true, rest)).
  { intros rest Hne. unfold get_node_name.
    rewrite length_append, slice_to_prefix, slice_from_prefix, String.eqb_refl.
    destruct (Nat.leb_spec (String.length parent_name + String.length rest)
                           (String.length parent_name)) as [Hle|]; [|done].
    destruct rest; [done | simpl in Hle; lia]. }
  assert (H2 : forall node_name,
             get_node_name name parent_name = (true, node_name) ->
             name = parent_name +:+ node_name /\ node_name <> "").
  { unfold get_node_name. intros node_name H.
    destruct (Nat.leb_spec (String.length name) (String.length parent_name))
      as [|Hlt]; [discriminate|].
    destruct (String.eqb_spec (slice_to (String.length parent_name) name)
                              parent_name) as [Heq|]; [|discriminate].
    injection H as <-. split.
    - rewrite <- Heq at 1. apply slice_split.
    - intros Hnil.
      pose proof (slice_split (String.length parent_name) name) as Hs.
      rewrite Heq, Hnil in Hs. apply (f_equal String.length) in Hs.
      rewrite length_append in Hs. simpl in Hs. lia. }
  split_and!; [exact H1 | exact H2 | |].
  - intros Hno. destruct (get_node_name name parent_name) as [[|] r] eqn:E.
    + destruct (H2 r eq_refl) as [-> Hr]. by destruct (Hno r Hr).
    + unfold get_node_name in E.
      destruct (_ <=? _); [congruence|].
      destruct (negb _); congruence.
  - unfold get_node_name. by rewrite Nat.leb_refl.
Qed.

(** X2.  For a key prefixed [control_model.] the test of line 81 always
    succeeds, so the [else key] of line 82 is never taken: the lookup key is
    the rest of the key with every [model.] removed, and it is the rest
    itself when [model.] does not occur in it. *)
Theorem control_key_lookup (rest : string) :
  get_node_name ("control_model." +:+ rest) "control_"
  = (true, "model." +:+ rest) /\
  key_name_of ("control_model." +:+ rest) = replace rest "model." "" /\
  (~ occurs_in "model." rest ->
   key_name_of ("control_model." +:+ rest) = rest).
Proof.
  assert (Hk : control_key ("control_model." +:+ rest))
    by apply startswith_app.
  assert (Hr : slice_from 14 ("control_model." +:+ rest) = rest)
    by apply (slice_from_prefix "control_model.").
  split_and!.
  - reflexivity.
  - by rewrite key_name_of_stripped, Hr.
  - intros Hno. rewrite key_name_of_stripped, Hr by done.
    by apply replace_absent.
Qed.

End NodeNameFacts.

Lemma get_node_name_splits_witness :
  Cldm.get_node_name "control_model.time_embed.0.weight" "control_"
  = (true, "model.time_embed.0.weight") /\
  Cldm.get_node_name "control_" "control_" = (false, "") /\
  Cldm.get_node_name "model.diffusion_model.out.2.bias" "control_"
  = (false, "").
Proof.
  destruct (get_node_name_splits "model.diffusion_model.out.2.bias"
              "control_") as (H1 & _ & _ & H4).
  split; [apply (H1 "model.time_embed.0.weight"); discriminate|].
  split; [exact H4 | reflexivity].
Defined.

Lemma control_key_lookup_witness :
  Cldm.key_name_of "control_model.input_blocks.1.0.in_layers.0.weight"
  = "input_blocks.1.0.in_layers.0.weight".
Proof.
  apply (control_key_lookup "input_blocks.1.0.in_layers.0.weight").
  intros [i Hi].
  do 36 (destruct i as [|i]; [discriminate Hi|]).
  destruct i; discriminate Hi.
Defined.

(** ** Reconciliation: the other paths *)

Section ReconcileMore.
Import PyStr Cldm.
Variable Tensor : Type.
Variables tadd tsub : Tensor -> Tensor -> result Tensor.

#[local] Abbreviation transfer_entry := (Cldm.transfer_entry Tensor tadd tsub).
#[local] Abbreviation transfer_control := (Cldm.transfer_control Tensor tadd tsub).
#[local] Abbreviation strip_control_prefix := (Cldm.strip_control_prefix Tensor).
#[local] Abbreviation reconcile := (Cldm.reconcile Tensor tadd tsub).
#[local] Abbreviation strip_step := (Cldm.strip_step Tensor).
#[local] Abbreviation bundled := (Cldm.bundled Tensor).
#[local] Abbreviation has_base_keys := (Cldm.has_base_keys Tensor).

(** X3.  For a bundled checkpoint, when no base model is supplied, or the
    checkpoint has no [difference] key and transfer is off or the checkpoint
    has no key prefixed [model.diffusion_model.], no value is changed: what
    is loaded is line 99 applied to the checkpoint as it was read. *)
Theorem bundled_without_transfer (opts : gmap string bool)
    (base_model : option (dict Tensor)) (state_dict : dict Tensor) :
  bundled state_dict ->
  base_model = None \/
  (dict_mem "difference" state_dict = false /\
   (opts_get opts "control_net_control_transfer" false = false \/
    ~ has_base_keys state_dict)) ->
  reconcile opts base_model state_dict
  = Ok (strip_control_prefix state_dict).
Proof.
  unfold bundled, Cldm.bundled, has_base_keys, Cldm.has_base_keys,
    Cldm.reconcile.
  intros -> [->|[-> Hoff]]; [done|].
  destruct base_model as [unet|]; [|done].
  destruct Hoff as [->|Hno]; [done|].
  destruct (existsb _ _); [done|]. by rewrite andb_false_r.
Qed.

Lemma strip_fold_keys (d acc : dict Tensor) (n : string) :
  n ∈ keys (fold_left strip_step d acc) <->
  n ∈ keys acc \/ exists k, k ∈ keys d /\ control_key k /\ stripped k = n.
Proof.
  revert acc. induction d as [|[k v] d IH]; intros acc; simpl.
  - split; [by left|]. intros [|(k & Hk%elem_of_nil & _)]; done.
  - rewrite IH. unfold Cldm.strip_step. simpl.
    destruct (startswith k "control_model.") eqn:E.
    + rewrite !elem_of_keys, dict_get_set.
      destruct (String.eqb_spec (stripped k) n) as [Hn|Hn]; split.
      * intros _. right. exists k. split_and!; [apply elem_of_cons; by left|done..].
      * intros _. left. by eexists.
      * intros [|(k' & Hin & Hk' & Hs)]; [by left|].
        right. exists k'. split_and!; [apply elem_of_cons; by right|done..].
      * intros [|(k' & Hin & Hk' & Hs)]; [by left|].
        apply elem_of_cons in Hin as [->|Hin]; [done|].
        right. by exists k'.
    + split.
      * intros [|(k' & Hin & Hk' & Hs)]; [by left|].
        right. exists k'. split_and!; [apply elem_of_cons; by right|done..].
      * intros [|(k' & Hin & Hk' & Hs)]; [by left|].
        apply elem_of_cons in Hin as [->|Hin];
          [unfold control_key in Hk'; congruence|].
        right. by exists k'.
Qed.

Lemma strip_fold_well_formed (d acc : dict Tensor) :
  well_formed acc -> well_formed (fold_left strip_step d acc).
Proof.
  revert acc. induction d as [|[k v] d IH]; intros acc Hacc; simpl; [done|].
  apply IH. unfold Cldm.strip_step. simpl.
  destruct (startswith k "control_model."); [|done].
  by apply well_formed_dict_set.
Qed.

(** X6.  Line 99 keeps exactly the keys prefixed [control_model.], each
    under its name with every [control_model.] removed, and no name twice;
    where several control keys get the same name, the value of the last one
    in the order of the checkpoint is the one kept. *)
Theorem strip_control_prefix_keeps (state_dict : dict Tensor) :
  (forall n,
     n ∈ keys (strip_control_prefix state_dict) <->
     exists k, k ∈ keys state_dict /\ control_key k /\ stripped k = n) /\
  well_formed (strip_control_prefix state_dict) /\
  forall d1 k v d2,
    state_dict = d1 ++ (k, v) :: d2 ->
    control_key k ->
    (forall k', k' ∈ keys d2 -> control_key k' -> stripped k' <> stripped k) ->
    dict_get (strip_control_prefix state_dict) (stripped k) = Some v.
Proof.
  split_and!.
  - intros n. rewrite strip_control_prefix_fold, strip_fold_keys.
    split; [intros [Hn%elem_of_nil|]; done | by right].
  - rewrite strip_control_prefix_fold. apply strip_fold_well_formed.
    apply NoDup_nil_2.
  - intros d1 k v d2 -> Hk Hlast.
    rewrite strip_control_prefix_fold, fold_left_app. simpl.
    rewrite strip_fold_other by done.
    unfold Cldm.strip_step at 1. simpl. unfold control_key in Hk. rewrite Hk.
    apply dict_get_set_eq.
Qed.

(** X4.  Reconciliation fails only in the loop of lines 76-94, at a
    control key whose lookup key is in the supplied base model: what it
    raises, the addition of the key's value and base value raised, or, with
    no [difference] key, it is the [KeyError] of the recorded base value
    that the checkpoint lacks, or what the subtraction of the recorded base
    value raised.  No other lookup fails. *)
Theorem reconcile_failures (opts : gmap string bool)
    (base_model : option (dict Tensor)) (state_dict : dict Tensor) (e : exn) :
  reconcile opts base_model state_dict = Raise e ->
  exists unet_state_dict key p B,
    base_model = Some unet_state_dict /\
    key ∈ keys state_dict /\ control_key key /\
    dict_get state_dict key = Some p /\
    dict_get unet_state_dict (key_name_of key) = Some B /\
    (tadd p B = Raise e \/
     exists s,
       tadd p B = Ok s /\
       dict_mem "difference" state_dict = false /\
       match dict_get state_dict
               ("model.diffusion_model." +:+ key_name_of key) with
       | None => e = KeyError ("model.diffusion_model." +:+ key_name_of key)
       | Some B_ref => tsub s B_ref = Raise e
       end).
Proof.
  unfold Cldm.reconcile. intros H.
  destruct (existsb _ (keys state_dict)); [|discriminate].
  destruct base_model as [unet|]; simpl in H; [|discriminate].
  destruct (_ || _); simpl in H; [|discriminate].
  destruct (transfer_control _ state_dict unet) as [[final c]|e'] eqn:E;
    simpl in H; [discriminate|].
  injection H as ->.
  apply for_each_Raise in E as (key & st & Hin & Hraise).
  apply transfer_entry_Raise in Hraise as (Hk & p & b & Hp & Hb & Hcase);
    [|done].
  exists unet, key, p, b. split_and!; [done..|].
  destruct Hcase as [Ha|(s & Ha & Hd & Hr)]; [by left|].
  right. by exists s.
Qed.

Lemma transfer_entry_counter d sd unet final counter key final' counter' :
  transfer_entry d sd unet (final, counter) key = Ok (final', counter') ->
  counter' = counter
             + (if startswith key "control_model."
                   && dict_mem (key_name_of key) unet then 1 else 0).
Proof.
  unfold Cldm.transfer_entry.
  destruct (startswith key "control_model."); simpl;
    [|intros [= _ <-]; lia].
  intros H. apply bind_Ok in H as (p & _ & H).
  destruct (dict_mem (key_name_of key) unet); [|injection H as _ <-; lia].
  apply bind_Ok in H as (b & _ & H).
  destruct d.
  - apply bind_Ok in H as (v & _ & [= _ <-]). lia.
  - apply bind_Ok in H as (s & _ & H).
    apply bind_Ok in H as (r & _ & H).
    apply bind_Ok in H as (v & _ & [= _ <-]). lia.
Qed.

Lemma transfer_loop_counter d sd unet ks final counter final' counter' :
  for_each (transfer_entry d sd unet) ks (final, counter)
    = Ok (final', counter') ->
  counter' = counter
             + length (List.filter
                         (fun k => startswith k "control_model."
                                   && dict_mem (key_name_of k) unet) ks).
Proof.
  revert final counter. induction ks as [|k ks IH]; intros final counter H;
    simpl in H.
  - injection H as _ <-. simpl. lia.
  - apply bind_Ok in H as ([f1 c1] & Hstep & H).
    apply transfer_entry_counter in Hstep. apply IH in H. simpl.
    destruct (startswith k "control_model." && dict_mem (key_name_of k) unet);
      simpl; lia.
Qed.

(** X5.  The count printed by line 96 is the number of control keys whose
    lookup key is in the base model's state dict - the keys whose value was
    offset - in difference mode and in transfer mode alike. *)
Theorem offset_counter (is_diff_model : bool)
    (state_dict unet_state_dict final_state_dict : dict Tensor)
    (counter : nat) :
  transfer_control is_diff_model state_dict unet_state_dict
    = Ok (final_state_dict, counter) ->
  counter = length (List.filter
                      (fun k => startswith k "control_model."
                                && dict_mem (key_name_of k) unet_state_dict)
                      (keys state_dict)).
Proof. intros H. by apply transfer_loop_counter in H. Qed.

End ReconcileMore.

Lemma bundled_without_transfer_witness :
  Cldm.reconcile Z ReconcileExamples.zadd ReconcileExamples.zsub ∅
    (Some ReconcileExamples.base_sd) ReconcileExamples.bundled_sd
  = Ok [("time_embed.0.weight", 5%Z); ("zero_convs.0.0.weight", 7%Z)].
Proof.
  apply (bundled_without_transfer Z ReconcileExamples.zadd
           ReconcileExamples.zsub ∅
           (Some ReconcileExamples.base_sd) ReconcileExamples.bundled_sd).
  - reflexivity.
  - right. split; [reflexivity | left; reflexivity].
Defined.

Lemma strip_control_prefix_keeps_witness :
  dict_get (Cldm.strip_control_prefix Z ExtraExamples.colliding_sd) "a"
  = Some 3%Z.
Proof.
  destruct (strip_control_prefix_keeps Z ExtraExamples.colliding_sd)
    as (_ & _ & H).
  apply (H [("control_model.a", 1%Z); ("x", 2%Z)]
           "control_model.control_model.a" 3%Z []);
    [reflexivity | reflexivity |].
  intros k' Hk'. by apply elem_of_nil in Hk'.
Defined.

Lemma reconcile_failures_witness :
  Cldm.reconcile (list Z) ReconcileExamples.vadd ReconcileExamples.vsub
    ReconcileExamples.transfer_on (Some ReconcileExamples.long_base_sd)
    ReconcileExamples.short_sd
  = Raise RuntimeError /\
  exists unet key p B,
    Some ReconcileExamples.long_base_sd = Some unet /\
    key ∈ keys ReconcileExamples.short_sd /\
    dict_get ReconcileExamples.short_sd key = Some p /\
    dict_get unet (Cldm.key_name_of key) = Some B.
Proof.
  split; [reflexivity|].
  destruct (reconcile_failures (list Z) ReconcileExamples.vadd
              ReconcileExamples.vsub
              ReconcileExamples.transfer_on
              (Some ReconcileExamples.long_base_sd)
              ReconcileExamples.short_sd RuntimeError eq_refl)
    as (unet & key & p & B & H1 & H2 & _ & H3 & H4 & _).
  by exists unet, key, p, B.
Defined.

Lemma offset_counter_witness :
  exists final,
    Cldm.transfer_control Z ReconcileExamples.zadd ReconcileExamples.zsub true
      ReconcileExamples.diff_sd ReconcileExamples.base_sd = Ok (final, 1).
Proof.
  destruct (Cldm.transfer_control Z ReconcileExamples.zadd
              ReconcileExamples.zsub true
              ReconcileExamples.diff_sd ReconcileExamples.base_sd)
    as [[final counter]|e] eqn:E; [|discriminate E].
  exists final.
  by rewrite (offset_counter Z ReconcileExamples.zadd ReconcileExamples.zsub
                true ReconcileExamples.diff_sd
                ReconcileExamples.base_sd final counter E).
Defined.

(** ** The hook: what else it does *)

Section HookMore.
Import PyList Torch Cldm.
Variable Scalar : Type.
Variable szero : Scalar.
Variables sadd smul : Scalar -> Scalar -> Scalar.
Variables Timesteps TEmb Emb Ctx : Type.
Variable timestep_embedding : option Timesteps -> Z -> result TEmb.
Variable run_embed : sequential Scalar -> TEmb -> result Emb.
Variable run_ext :
  layer Scalar -> Tensor Scalar -> Emb -> Ctx -> result (Tensor Scalar).
Variable cast : torch_dtype -> Tensor Scalar -> result (Tensor Scalar).
Variable dtype_of : Tensor Scalar -> torch_dtype.
Variable tadd : Tensor Scalar -> Tensor Scalar -> result (Tensor Scalar).
Variable tscale : Tensor Scalar -> Scalar -> result (Tensor Scalar).
Variable cat : Tensor Scalar -> Tensor Scalar -> result (Tensor Scalar).
Variable interpolate : Tensor Scalar -> list nat -> result (Tensor Scalar).
Variable Fwd : Type.
Variable device : Type.
Variable cpu : device.

#[local] Abbreviation UNetModel := (Cldm.UNetModel Scalar TEmb Emb Ctx Fwd).
#[local] Abbreviation world := (Cldm.world Scalar TEmb Emb Ctx Fwd device).
#[local] Abbreviation decoder_step :=
  (Cldm.decoder_step Scalar Emb Ctx tadd tscale cat interpolate).
#[local] Abbreviation forward_encoder :=
  (Cldm.forward_encoder Scalar szero sadd smul Timesteps TEmb Emb Ctx
     timestep_embedding run_embed run_ext cast tadd interpolate Fwd).
#[local] Abbreviation forward_decoder :=
  (Cldm.forward_decoder Scalar szero sadd smul Timesteps TEmb Emb Ctx
     timestep_embedding run_embed run_ext cast tadd tscale cat interpolate
     Fwd).
#[local] Abbreviation forward :=
  (Cldm.forward Scalar szero sadd smul Timesteps TEmb Emb Ctx
     timestep_embedding run_embed run_ext cast dtype_of tadd tscale cat
     interpolate Fwd).
#[local] Abbreviation forward2 :=
  (Cldm.forward2 Scalar szero sadd smul Timesteps TEmb Emb Ctx
     timestep_embedding run_embed run_ext cast dtype_of tadd tscale cat
     interpolate Fwd device cpu).

Lemma restore_unhooked (model : UNetModel) :
  attrs model !! "_original_forward" = None -> restore model = model.
Proof. intros H. unfold restore. by rewrite H. Qed.

Lemma restore_drops_original (model : UNetModel) :
  attrs (restore model) !! "_original_forward" = None.
Proof.
  unfold restore. destruct (attrs model !! "_original_forward") eqn:E;
    [simpl; apply lookup_delete_eq | done].
Qed.

(** X7.  [hook] does not look for an earlier hook: after two [hook]s in a
    row the saved reference is the first hook's [forward2], so [restore]
    puts that one back, not the forward the network had at first, and drops
    the saved reference; any further [restore] then changes nothing. *)
Theorem double_hook_restores_hooked (model : UNetModel) :
  attrs (hook (hook model)) !! "_original_forward" = Some Forward2 /\
  get_forward (restore (hook (hook model))) = Forward2 /\
  attrs (restore (hook (hook model))) !! "_original_forward" = None /\
  restore (restore model) = restore model.
Proof.
  assert (H : attrs (hook (hook model)) !! "_original_forward" = Some Forward2).
  { unfold hook at 1. simpl. rewrite lookup_insert_ne by done.
    rewrite lookup_insert_eq. unfold get_forward, hook. simpl.
    by rewrite lookup_insert_eq. }
  split_and!; [exact H | | apply restore_drops_original |].
  - unfold restore. rewrite H. unfold get_forward. simpl.
    rewrite lookup_delete_ne by done. by rewrite lookup_insert_eq.
  - apply restore_unhooked, restore_drops_original.
Qed.


Lemma decoder_step_hs outer omc emb context h hs control module
    h' hs' control' :
  decoder_step outer omc emb context (h, hs, control) module
    = Ok (h', hs', control') ->
  exists e, hs = hs' ++ [e].
Proof.
  unfold Cldm.decoder_step. intros H.
  apply bind_Ok in H as ([[h1 hs1] control1] & H & H2).
  apply bind_Ok in H2 as (h2 & _ & [= _ <- _]).
  destruct omc.
  - apply bind_Ok in H as ([e hs2] & Hpop & H).
    apply bind_Ok in H as (h3 & _ & [= _ <- _]).
    apply pop_Ok in Hpop. eauto.
  - apply bind_Ok in H as ([hs_input hs2] & Hpop & H).
    apply bind_Ok in H as ([control_input control2] & _ & H).
    apply bind_Ok in H as (h3 & _ & H).
    apply bind_Ok in H as (scaled & _ & H).
    apply bind_Ok in H as (added & _ & H).
    apply bind_Ok in H as (h4 & _ & [= _ <- _]).
    apply pop_Ok in Hpop. eauto.
Qed.

Lemma decoder_loop_hs outer omc emb context blocks h hs control
    h' hs' control' :
  for_each (decoder_step outer omc emb context) blocks (h, hs, control)
    = Ok (h', hs', control') ->
  length blocks <= length hs /\
  hs' = take (length hs - length blocks) hs.
Proof.
  revert h hs control.
  induction blocks as [|b bs IH]; intros h hs control H; simpl in H.
  - injection H as _ <- _. split; [simpl; lia|].
    rewrite Nat.sub_0_r. by rewrite take_ge.
  - apply bind_Ok in H as ([[h1 hs1] control1] & Hstep & H).
    apply decoder_step_hs in Hstep as [e ->]. apply IH in H as [Hle ->].
    rewrite length_app. simpl. split; [lia|].
    replace (length hs1 + 1 - S (length bs))
      with (length hs1 - length bs) by lia.
    by rewrite take_app_le by lia.
Qed.

(** The loop of lines 135-137 appends one output per encoder block. *)
Lemma host_encoder_length (emb : Emb) (context : Ctx)
    (blocks : list (block Scalar Emb Ctx))
    (st st' : Tensor Scalar * list (Tensor Scalar)) :
  for_each (host_step Scalar Emb Ctx emb context) blocks st = Ok st' ->
  length st'.2 = length st.2 + length blocks.
Proof.
  revert st. induction blocks as [|b bs IH]; intros st H; simpl in H.
  - injection H as <-. simpl. lia.
  - apply bind_Ok in H as (st1 & Hstep & H). apply IH in H. rewrite H.
    unfold host_step in Hstep.
    apply bind_Ok in Hstep as (h1 & _ & [= <-]).
    simpl. rewrite length_app. simpl. lia.
Qed.

(** X9.  The hook keeps one encoder output of the host per encoder block
    and every decoder block pops one, with [only_mid_control] on or off.  So
    a call that gets through the decoder had no more decoder blocks than
    encoder blocks and leaves the outputs that were not popped; and on a
    host with more decoder blocks than encoder blocks no call gets through
    the decoder. *)
Theorem decoder_pops_host_outputs (opts : gmap string bool)
    (outer : PlugableControlModel Scalar) (self : UNetModel)
    (x : Tensor Scalar) (timesteps : option Timesteps) (context : Ctx)
    (omc : bool) (emb : Emb) (h : Tensor Scalar)
    (hs control : list (Tensor Scalar)) :
  forward_encoder opts outer self x timesteps context
    = Ok (omc, emb, (h, hs, control)) ->
  length hs = length (u_input_blocks self) /\
  (forall h' hs' control',
     forward_decoder opts outer self x timesteps context
       = Ok (h', hs', control') ->
     length (u_output_blocks self) <= length (u_input_blocks self) /\
     hs' = take (length (u_input_blocks self)
                 - length (u_output_blocks self)) hs) /\
  (length (u_input_blocks self) < length (u_output_blocks self) ->
   ~ succeeds (forward_decoder opts outer self x timesteps context)).
Proof.
  intros Henc.
  assert (Hdec : forward_decoder opts outer self x timesteps context
                 = for_each (decoder_step outer omc emb context)
                            (u_output_blocks self) (h, hs, control)).
  { unfold Cldm.forward_decoder. by rewrite Henc. }
  assert (Hlen : length hs = length (u_input_blocks self)).
  { unfold Cldm.forward_encoder in Henc.
    apply bind_Ok in Henc as (omc' & _ & Henc).
    apply bind_Ok in Henc as (hint & _ & Henc).
    apply bind_Ok in Henc as (outs & _ & Henc).
    apply bind_Ok in Henc as (u & _ & Henc).
    apply bind_Ok in Henc as (t_emb & _ & Henc).
    apply bind_Ok in Henc as (emb' & _ & Henc).
    apply bind_Ok in Henc as (h0 & _ & Henc).
    apply bind_Ok in Henc as ([h_enc hs_enc] & Hloop & Henc).
    apply bind_Ok in Henc as (hm & _ & Henc).
    apply bind_Ok in Henc as ([c control0] & _ & Henc).
    apply bind_Ok in Henc as (h1 & _ & Henc).
    injection Henc as _ _ _ <- _.
    by apply host_encoder_length in Hloop. }
  assert (Hthrough : forall h' hs' control',
            forward_decoder opts outer self x timesteps context
              = Ok (h', hs', control') ->
            length (u_output_blocks self) <= length (u_input_blocks self) /\
            hs' = take (length (u_input_blocks self)
                        - length (u_output_blocks self)) hs).
  { intros h' hs' control' H. rewrite Hdec in H.
    apply decoder_loop_hs in H. by rewrite Hlen in H. }
  split_and!; [exact Hlen | exact Hthrough |].
  intros Hlt [[[h' hs'] control'] H].
  apply Hthrough in H as [Hle _]. lia.
Qed.

End HookMore.

(** ** The constructor of the control network *)

Section InitMore.
Import PyList Torch Cldm.
Variable Scalar : Type.
Variable szero : Scalar.
Variable init : list nat -> Tensor Scalar.

#[local] Abbreviation ControlNet_init := (Cldm.ControlNet_init Scalar szero init).
#[local] Abbreviation check_config := (Cldm.check_config Scalar).
#[local] Abbreviation res_step := (Cldm.res_step Scalar szero init).
#[local] Abbreviation down_step := (Cldm.down_step Scalar szero init).
#[local] Abbreviation level_step := (Cldm.level_step Scalar szero init).
#[local] Abbreviation heads_given := (Cldm.heads_given Scalar).

Lemma assert_Ok (c : bool) (u : unit) : assert c = Ok u -> c = true.
Proof. by destruct c. Qed.

Lemma check_config_Ok cfg (res_blocks : list Z) :
  check_config cfg = Ok res_blocks ->
  Cfg.use_spatial_transformer cfg = exists_ (Cfg.context_dim cfg) /\
  heads_given cfg /\
  res_blocks =
    match Cfg.num_res_blocks cfg with
    | inl n => replicate (length (Cfg.channel_mult cfg)) n
    | inr l => l
    end /\
  length res_blocks = length (Cfg.channel_mult cfg).
Proof.
  unfold Cldm.check_config, Cldm.heads_given. intros H.
  apply bind_Ok in H as (u1 & H1 & H).
  apply bind_Ok in H as (u2 & H2 & H).
  apply bind_Ok in H as (u3 & H3 & H).
  apply bind_Ok in H as (u4 & H4 & H).
  apply bind_Ok in H as (rb & H5 & H).
  apply bind_Ok in H as (_ & _ & H).
  apply bind_Ok in H as (_ & _ & [= <-]).
  split_and!.
  - destruct (Cfg.use_spatial_transformer cfg), (Cfg.context_dim cfg);
      simpl in *; done.
  - intros [Hn Hc]. rewrite Hn in H3. simpl in H3.
    apply assert_Ok in H3. rewrite Hc in H3. done.
  - destruct (Cfg.num_res_blocks cfg) as [n|l]; [congruence|].
    destruct (negb (length l =? length (Cfg.channel_mult cfg)));
      [discriminate | congruence].
  - destruct (Cfg.num_res_blocks cfg) as [n|l].
    + injection H5 as <-. apply length_replicate.
    + destruct (length l =? length (Cfg.channel_mult cfg)) eqn:E;
        simpl in H5; [|discriminate].
      injection H5 as <-. by apply Nat.eqb_eq.
Qed.

(** X11.  The constructor rejects an inconsistent configuration before it
    builds anything: a spatial transformer without a context dimension, or
    a context dimension without a spatial transformer, or neither head
    count given, is an [AssertionError]; a list of residual-block counts
    whose length is not the number of levels is a [ValueError]; and a
    network is only ever built from a configuration that passes all four
    checks. *)
Theorem constructor_checks cfg :
  (Cfg.use_spatial_transformer cfg = true -> Cfg.context_dim cfg = None ->
   ControlNet_init cfg = Raise AssertionError) /\
  (Cfg.use_spatial_transformer cfg = false ->
   is_Some (Cfg.context_dim cfg) ->
   ControlNet_init cfg = Raise AssertionError) /\
  (Cfg.use_spatial_transformer cfg = exists_ (Cfg.context_dim cfg) ->
   ~ heads_given cfg ->
   ControlNet_init cfg = Raise AssertionError) /\
  (Cfg.use_spatial_transformer cfg = exists_ (Cfg.context_dim cfg) ->
   heads_given cfg ->
   forall l, Cfg.num_res_blocks cfg = inr l ->
             length l <> length (Cfg.channel_mult cfg) ->
             ControlNet_init cfg = Raise ValueError) /\
  (forall net, ControlNet_init cfg = Ok net ->
     Cfg.use_spatial_transformer cfg = exists_ (Cfg.context_dim cfg) /\
     heads_given cfg /\
     forall l, Cfg.num_res_blocks cfg = inr l ->
               length l = length (Cfg.channel_mult cfg)).
Proof.
  unfold Cldm.ControlNet_init, Cldm.check_config, Cldm.heads_given.
  split_and!.
  - by intros -> ->.
  - intros -> [c ->]. done.
  - intros Hst Hh.
    assert (Cfg.num_heads cfg = (-1)%Z /\ Cfg.num_head_channels cfg = (-1)%Z)
      as [-> ->].
    { destruct (Z.eq_dec (Cfg.num_heads cfg) (-1)%Z),
        (Z.eq_dec (Cfg.num_head_channels cfg) (-1)%Z); tauto. }
    rewrite Hst. by destruct (Cfg.context_dim cfg).
  - intros Hst Hh l -> Hl. rewrite Hst.
    assert (((Cfg.num_heads cfg =? -1)%Z
             && (Cfg.num_head_channels cfg =? -1)%Z) = false) as Hb.
    { apply andb_false_iff.
      destruct (Z.eqb_spec (Cfg.num_heads cfg) (-1)%Z),
        (Z.eqb_spec (Cfg.num_head_channels cfg) (-1)%Z); tauto. }
    apply Nat.eqb_neq in Hl. rewrite Hl.
    destruct (Cfg.context_dim cfg); simpl;
      destruct (Cfg.num_heads cfg =? -1)%Z,
        (Cfg.num_head_channels cfg =? -1)%Z; simpl in *; done.
  - intros net H. apply bind_Ok in H as (rb & Hc & _).
    apply check_config_Ok in Hc as (Hst & Hh & Hrb & Hlen).
    split_and!; [done..|]. intros l Hl. by rewrite Hl in Hrb; subst.
Qed.

Lemma res_loop_length cfg ted level mult ks (st st' : locals Scalar) :
  for_each (res_step cfg ted level mult) ks st = Ok st' ->
  length (l_input_blocks Scalar st')
  = length (l_input_blocks Scalar st) + length ks.
Proof.
  revert st. induction ks as [|k ks IH]; intros st H; simpl in H.
  - injection H as <-. simpl. lia.
  - apply bind_Ok in H as (st1 & Hstep & H). apply IH in H. rewrite H.
    unfold Cldm.res_step in Hstep.
    apply bind_Ok in Hstep as ([layers nh] & _ & Hstep).
    apply bind_Ok in Hstep as (zc & _ & [= <-]).
    simpl. rewrite length_app. simpl. lia.
Qed.

Lemma down_step_length cfg ted (st st' : locals Scalar) :
  down_step cfg ted st = Ok st' ->
  length (l_input_blocks Scalar st') = length (l_input_blocks Scalar st) + 1.
Proof.
  unfold Cldm.down_step. intros H.
  apply bind_Ok in H as (zc & _ & [= <-]). simpl. by rewrite length_app.
Qed.

(** The levels from [i] on add their residual blocks and, all but the
    last, one downsampling block. *)
Lemma level_loop_length cfg ted (rb : list Z) (ms : list Z) (i : nat)
    (st st' : locals Scalar) :
  i + length ms = length (Cfg.channel_mult cfg) ->
  for_each (level_step cfg ted rb) (zip (seq i (length ms)) ms) st = Ok st' ->
  length (l_input_blocks Scalar st')
  = length (l_input_blocks Scalar st)
    + sum_list (Z.to_nat <$> take (length ms) (drop i rb))
    + (length ms - 1).
Proof.
  revert i st. induction ms as [|m ms IH]; intros i st Hi H.
  - injection H as <-. simpl. lia.
  - cbn [length seq zip zip_with for_each] in H.
    apply bind_Ok in H as (st1 & Hlevel & H).
    apply IH in H; [|simpl in Hi; lia]. rewrite H. clear H IH.
    unfold Cldm.level_step in Hlevel.
    apply bind_Ok in Hlevel as (n & Hn & Hlevel).
    apply bind_Ok in Hlevel as (st2 & Hres & Hlevel).
    apply res_loop_length in Hres. unfold range in Hres.
    rewrite length_seq in Hres.
    unfold index in Hn. destruct (rb !! i) as [n'|] eqn:Ei; [|discriminate].
    injection Hn as ->.
    rewrite (drop_S _ _ _ Ei). cbn [length take fmap list_fmap sum_list].
    change (list_fmap Z nat Z.to_nat (take (length ms) (drop (S i) rb)))
      with (Z.to_nat <$> take (length ms) (drop (S i) rb)).
    destruct (Z.eqb_spec (Z.of_nat i)
                (Z.of_nat (length (Cfg.channel_mult cfg)) - 1)) as [Hlast|Hnl];
      simpl in Hlevel.
    + injection Hlevel as <-.
      assert (length ms = 0) as Hz by (simpl in Hi; lia).
      rewrite Hz in *. simpl. lia.
    + apply down_step_length in Hlevel.
      assert (length ms <> 0) by (simpl in Hi; lia). simpl. lia.
Qed.

(** X10.  A constructed control network has one first block, then for each
    level as many blocks as the level's residual-block count (none for a
    negative count) and, for every level but the last, one downsampling
    block; it has as many zero convolutions.  The per-level counts are the
    given list, or the given number repeated for every level. *)
Theorem encoder_block_count cfg (net : ControlNet Scalar) :
  ControlNet_init cfg = Ok net ->
  num_res_blocks net =
    match Cfg.num_res_blocks cfg with
    | inl n => replicate (length (Cfg.channel_mult cfg)) n
    | inr l => l
    end /\
  length (input_blocks net)
  = 1 + sum_list (Z.to_nat <$> num_res_blocks net)
    + (length (Cfg.channel_mult cfg) - 1) /\
  length (zero_convs net) = length (input_blocks net).
Proof.
  intros Hinit.
  destruct (ControlNet_init_Ok _ _ _ _ _ Hinit) as (Hz & _).
  unfold Cldm.ControlNet_init in Hinit.
  apply bind_Ok in Hinit as (rb & Hc & H).
  apply check_config_Ok in Hc as (_ & _ & Hrb & Hlen).
  apply bind_Ok in H as (c0 & _ & H).
  apply bind_Ok in H as (zc0 & _ & H).
  apply bind_Ok in H as (hint_block & _ & H).
  apply bind_Ok in H as (st & Hloop & H).
  apply bind_Ok in H as ([nh dh] & _ & H).
  apply bind_Ok in H as (zc_mid & _ & [= <-]). simpl in *.
  split_and!; [done | | done].
  unfold enumerate in Hloop.
  apply (level_loop_length cfg _ rb (Cfg.channel_mult cfg) 0) in Hloop;
    [|done].
  rewrite Hloop. simpl. rewrite drop_0, <- Hlen, firstn_all. lia.
Qed.

Section FreshOutputs.
Variables sadd smul : Scalar -> Scalar -> Scalar.
Variables Timesteps TEmb Emb Ctx : Type.
Variable timestep_embedding : option Timesteps -> Z -> result TEmb.
Variable run_embed : sequential Scalar -> TEmb -> result Emb.
Variable run_ext :
  layer Scalar -> Tensor Scalar -> Emb -> Ctx -> result (Tensor Scalar).
Variable cast : torch_dtype -> Tensor Scalar -> result (Tensor Scalar).
Variable tadd : Tensor Scalar -> Tensor Scalar -> result (Tensor Scalar).
Variable interpolate : Tensor Scalar -> list nat -> result (Tensor Scalar).

(** The arithmetic of the entries: zero times a finite number is a zero,
    and a sum of zeros is a zero. *)
Variables finite is_zero : Scalar -> Prop.
Hypothesis zero_is_zero : is_zero szero.
Hypothesis zero_finite : finite szero.
Hypothesis smul_zero_l : forall s, finite s -> is_zero (smul szero s).
Hypothesis sadd_zero : forall a b, is_zero a -> is_zero b -> is_zero (sadd a b).

#[local] Abbreviation run := (Cldm.run Scalar szero sadd smul Emb Ctx run_ext).
#[local] Abbreviation ControlNet_forward :=
  (Cldm.ControlNet_forward Scalar szero sadd smul Timesteps TEmb Emb Ctx
     timestep_embedding run_embed run_ext cast tadd interpolate).
#[local] Abbreviation control_emb :=
  (Cldm.control_emb Scalar Timesteps TEmb Emb timestep_embedding run_embed).
#[local] Abbreviation output_activations :=
  (Cldm.output_activations Scalar szero sadd smul Emb Ctx run_ext cast tadd).

Lemma zero_convs_outputs (emb : Emb) (context : Ctx)
    (zcs : list (sequential Scalar)) (acts outs : list (Tensor Scalar)) :
  Forall (Cldm.is_zero_conv Scalar szero) zcs ->
  length zcs = length acts ->
  Forall2 (fun (za : sequential Scalar * Tensor Scalar) o =>
             run za.1 za.2 emb context = Ok o)
          (zip zcs acts) outs ->
  Forall2 (fun a o => valued finite a -> valued is_zero o) acts outs.
Proof.
  intros Hz. revert acts outs.
  induction Hz as [|z zcs Hz _ IH]; intros [|a acts] outs Hlen H;
    simpl in Hlen; try discriminate.
  - inversion H. constructor.
  - inversion H as [|? o ? os Ho Hos]; subst. constructor.
    + intros Ha.
      by apply (run_zero_conv Scalar szero sadd smul Emb Ctx run_ext
                  finite is_zero zero_is_zero zero_finite smul_zero_l
                  sadd_zero z a o emb context).
    + apply IH; [lia | done].
Qed.


End FreshOutputs.
End InitMore.

(** *** The hook and the constructor on the small network *)


Lemma decoder_pops_host_outputs_witness :
  ~ succeeds
      (NetworkExamples.forward_decoder ∅ NetworkExamples.outer
         ExtraExamples.tall_host NetworkExamples.latent_hires (Some 0) tt).
Proof.
  destruct (NetworkExamples.forward_encoder ∅ NetworkExamples.outer
              ExtraExamples.tall_host NetworkExamples.latent_hires (Some 0) tt)
    as [[[omc emb] [[h hs] control]]|e] eqn:E; [|discriminate E].
  apply (proj2 (proj2 (decoder_pops_host_outputs Z 0%Z Z.add Z.mul
                         nat unit unit unit
                         NetworkExamples.timestep_embedding
                         NetworkExamples.run_embed
                         NetworkExamples.run_ext NetworkExamples.cast
                         NetworkExamples.add NetworkExamples.scale
                         NetworkExamples.cat1 NetworkExamples.nearest unit
                         ∅ NetworkExamples.outer ExtraExamples.tall_host
                         NetworkExamples.latent_hires (Some 0) tt
                         omc emb h hs control E))).
  simpl. lia.
Defined.

Lemma constructor_checks_witness :
  Cldm.ControlNet_init Z 0%Z NetworkExamples.ones
    (ExtraExamples.cfg_of [1%Z] (inl 1%Z) (-1) (-1)) = Raise AssertionError /\
  Cldm.ControlNet_init Z 0%Z NetworkExamples.ones
    (ExtraExamples.cfg_of [1%Z; 2%Z] (inr [1%Z]) 1 (-1)) = Raise ValueError.
Proof.
  split.
  - apply (constructor_checks Z 0%Z NetworkExamples.ones
             (ExtraExamples.cfg_of [1%Z] (inl 1%Z) (-1) (-1)));
      [reflexivity|].
    intros H. apply H. by split.
  - apply (constructor_checks Z 0%Z NetworkExamples.ones
             (ExtraExamples.cfg_of [1%Z; 2%Z] (inr [1%Z]) 1 (-1))
          ) with (l := [1%Z]); [reflexivity | | reflexivity | discriminate].
    intros [H _]. discriminate H.
Defined.

Lemma encoder_block_count_witness :
  exists net,
    Cldm.ControlNet_init Z 0%Z NetworkExamples.ones
      (ExtraExamples.cfg_of [1%Z; 2%Z] (inl 2%Z) 1 (-1)) = Ok net /\
    length (Cldm.input_blocks net) = 6 /\
    length (Cldm.zero_convs net) = 6.
Proof.
  destruct (Cldm.ControlNet_init Z 0%Z NetworkExamples.ones
              (ExtraExamples.cfg_of [1%Z; 2%Z] (inl 2%Z) 1 (-1)))
    as [net|e] eqn:E; [|discriminate E].
  exists net. split; [reflexivity|].
  destruct (encoder_block_count Z 0%Z NetworkExamples.ones _ net E)
    as (Hrb & Hlen & Hz).
  rewrite Hz, Hlen, Hrb. split; reflexivity.
Defined.


(** ** Loading a checkpoint *)

Section LoadFacts.
Import Cldm.
Variable V : Type.
Variable splitext : string -> string * string.
Variable lower : string -> string.
Variable load_file : string -> string -> pyobj V.
Variable torch_load : string -> string -> pyobj V.

#[local] Abbreviation load_state_dict :=
  (Cldm.load_state_dict V splitext lower load_file torch_load).

(** X13.  Let [items] be a state dict (no key ['state_dict']), [outer1] a
    dict that holds it under ['state_dict'] and [outer2] a dict that holds
    [outer1] under ['state_dict'].  A file whose extension is not
    [.safetensors] (in any case) loads to [items] whether it holds [items],
    [outer1] or [outer2]; a [.safetensors] file is unwrapped once only; and
    a file of the first kind that holds a bare tensor raises
    [AttributeError]. *)
Theorem load_state_dict_unwraps (ckpt_path location : string)
    (items outer1 outer2 : list (string * pyobj V)) :
  dict_get items "state_dict" = None ->
  dict_get outer1 "state_dict" = Some (PyDict items) ->
  dict_get outer2 "state_dict" = Some (PyDict outer1) ->
  (lower (splitext ckpt_path).2 <> ".safetensors" ->
   (torch_load ckpt_path location ∈ [PyDict items; PyDict outer1; PyDict outer2] ->
    load_state_dict ckpt_path location = Ok (PyDict items)) /\
   (forall t, torch_load ckpt_path location = PyTensor t ->
              load_state_dict ckpt_path location = Raise AttributeError)) /\
  (lower (splitext ckpt_path).2 = ".safetensors" ->
   (load_file ckpt_path location ∈ [PyDict items; PyDict outer1] ->
    load_state_dict ckpt_path location = Ok (PyDict items)) /\
   (load_file ckpt_path location = PyDict outer2 ->
    load_state_dict ckpt_path location = Ok (PyDict outer1))).
Proof.
  intros H0 H1 H2. unfold Cldm.load_state_dict.
  destruct (splitext ckpt_path) as [root extension]. simpl.
  assert (G0 : get_state_dict (PyDict items) = Ok (PyDict items))
    by (simpl; by rewrite H0).
  assert (G1 : get_state_dict (PyDict outer1) = Ok (PyDict items))
    by (simpl; by rewrite H1).
  assert (G2 : get_state_dict (PyDict outer2) = Ok (PyDict outer1))
    by (simpl; by rewrite H2).
  split.
  - intros Hext. apply String.eqb_neq in Hext. rewrite Hext. split.
    + intros Hin. repeat (apply elem_of_cons in Hin as [->|Hin]).
      * by rewrite G0.
      * rewrite G1. simpl. exact G0.
      * rewrite G2. simpl. exact G1.
      * by apply elem_of_nil in Hin.
    + intros t ->. reflexivity.
  - intros Hext. apply String.eqb_eq in Hext. rewrite Hext. split.
    + intros Hin. repeat (apply elem_of_cons in Hin as [->|Hin]).
      * exact G0.
      * exact G1.
      * by apply elem_of_nil in Hin.
    + intros ->. exact G2.
Qed.

End LoadFacts.

Lemma load_state_dict_unwraps_witness :
  Cldm.load_state_dict Z ExtraExamples.pth_splitext (fun e => e)
    (fun _ _ => Cldm.PyDict []) (fun _ _ => Cldm.PyDict ExtraExamples.training_ckpt)
    "control_sd15_canny.pth" "cpu"
  = Ok (Cldm.PyDict ExtraExamples.flat_sd).
Proof.
  destruct (load_state_dict_unwraps Z ExtraExamples.pth_splitext
              (fun e => e) (fun _ _ => Cldm.PyDict [])
              (fun _ _ => Cldm.PyDict ExtraExamples.training_ckpt)
              "control_sd15_canny.pth" "cpu" ExtraExamples.flat_sd
              ExtraExamples.training_ckpt
              [("state_dict", Cldm.PyDict ExtraExamples.training_ckpt)]
              eq_refl eq_refl eq_refl) as [H _].
  destruct H as [H _]; [discriminate|].
  apply H. apply elem_of_cons. right. apply elem_of_cons. by left.
Defined.

(** ** The annotators: loading on first use *)

Section AnnotatorMore.
Import Processor.
Variable HWC3 : image -> image.
Variable resize_image : image -> Z -> image.
Variable Float : Type.
Variable Pose : Type.
Variable canny_fn : image -> Z -> Z -> image.
Variable hed_fn : image -> image.
Variable mlsd_fn : image -> Float -> Float -> image.
Variable midas_fn : image -> Float -> option Float -> image * image.
Variable openpose_fn : image -> bool -> image * Pose.
Variable uniformer_fn : image -> image.
Variable nms : image -> Z -> Float -> image.
Variable GaussianBlur : image -> Float -> image.
Variable f3_0 : Float.

#[local] Abbreviation step :=
  (Processor.step HWC3 resize_image Float Pose canny_fn hed_fn mlsd_fn
     midas_fn openpose_fn uniformer_fn nms GaussianBlur f3_0).
#[local] Abbreviation run_calls :=
  (Processor.run_calls HWC3 resize_image Float Pose canny_fn hed_fn mlsd_fn
     midas_fn openpose_fn uniformer_fn nms GaussianBlur f3_0).
#[local] Abbreviation call := (Processor.call Float).
#[local] Abbreviation hed := (Processor.hed HWC3 resize_image hed_fn).
#[local] Abbreviation fake_scribble :=
  (Processor.fake_scribble HWC3 resize_image Float hed_fn nms GaussianBlur
     f3_0).
#[local] Abbreviation simple_scribble :=
  (Processor.simple_scribble HWC3 resize_image).

Lemma slot_of_inj (d d' : detector) : slot_of d = slot_of d' -> d = d'.
Proof. by destruct d, d'. Qed.

(** Every call loads a detector on first use and calls it, or calls its
    [unload_*_model] if it is loaded. *)
Lemma step_cases (g : globals) (c : call) :
  (exists d, step g c = emit (Call d) (load_once (slot_of d) d g)) \/
  (exists d, step g c = unload_if_loaded (slot_of d) d g).
Proof.
  destruct c as [img res l h|op img res a b has_hand|m].
  - left. by exists apply_canny.
  - left. exists (detector_of (modality_of op)). by destruct op.
  - right. exists (detector_of m). by destruct m.
Qed.

Lemma initial_lazily : lazily_loaded initial.
Proof.
  split_and!; simpl.
  - intros name d H. by rewrite lookup_empty in H.
  - intros d. rewrite lookup_empty. split; [by intros [? ?]|].
    by intros ?%elem_of_nil.
  - intros d i j H. by rewrite lookup_nil in H.
  - intros i d e H. by rewrite lookup_nil in H.
Qed.

Lemma emit_lazily (e : event) (g : globals) :
  lazily_loaded g ->
  (forall d, e <> Import d) ->
  (forall d, e = Call d \/ e = UnloadModel d ->
             is_Some (slots g !! slot_of d)) ->
  lazily_loaded (emit e g).
Proof.
  intros (H1 & H2 & H3 & H4) Hne He. split_and!; simpl.
  - exact H1.
  - intros d. rewrite H2, elem_of_app, list_elem_of_singleton.
    split; [by left|]. intros [?|?]; [done|]. by destruct (Hne d).
  - intros d i j [[_ Hi]|[_ Hi]]%lookup_snoc_Some
      [[_ Hj]|[_ Hj]]%lookup_snoc_Some;
      try by destruct (Hne d).
    by apply (H3 d).
  - intros i d e' [[Hlt Hi]|[-> <-]]%lookup_snoc_Some Hcall.
    + destruct (H4 i d e' Hi Hcall) as (j & Hj & Hjd).
      exists j. split; [done|]. rewrite lookup_app_l; [done|].
      by apply lookup_lt_Some in Hjd.
    + apply He, H2, list_elem_of_lookup in Hcall as [j Hj].
      exists j. split; [by apply lookup_lt_Some in Hj|].
      rewrite lookup_app_l; [done|]. by apply lookup_lt_Some in Hj.
Qed.

Lemma load_once_lazily (d : detector) (g : globals) :
  lazily_loaded g -> lazily_loaded (load_once (slot_of d) d g).
Proof.
  intros Hg. unfold load_once.
  destruct (slots g !! slot_of d) eqn:E; [done|].
  destruct Hg as (H1 & H2 & H3 & H4).
  assert (Hfresh : Import d ∉ trace g).
  { intros H. apply H2 in H as [? H]. by rewrite E in H. }
  split_and!; simpl.
  - intros name d' [[<- <-]|[_ H]]%lookup_insert_Some; [done|].
    by apply H1 in H.
  - intros d'. rewrite elem_of_app, list_elem_of_singleton.
    destruct (decide (slot_of d = slot_of d')) as [Heq|Hne].
    + apply slot_of_inj in Heq as <-. rewrite lookup_insert_eq.
      split; [by right | by eexists].
    + rewrite lookup_insert_ne by done. rewrite H2.
      split; [by left|]. intros [?|[= <-]]; done.
  - intros d' i j [[_ Hi]|[-> Hi]]%lookup_snoc_Some
      [[_ Hj]|[-> Hj]]%lookup_snoc_Some; [by apply (H3 d') | | | done].
    + injection Hj as <-. by apply list_elem_of_lookup_2 in Hi.
    + injection Hi as <-. by apply list_elem_of_lookup_2 in Hj.
  - intros i d' e [[_ Hi]|[_ <-]]%lookup_snoc_Some Hcall.
    + destruct (H4 i d' e Hi Hcall) as (j & Hj & Hjd).
      exists j. split; [done|]. rewrite lookup_app_l; [done|].
      by apply lookup_lt_Some in Hjd.
    + by destruct Hcall.
Qed.

Lemma unload_if_loaded_lazily (d : detector) (g : globals) :
  lazily_loaded g -> lazily_loaded (unload_if_loaded (slot_of d) d g).
Proof.
  intros Hg. unfold unload_if_loaded.
  destruct (slots g !! slot_of d) eqn:E; [|done].
  apply emit_lazily; [done | done |].
  intros d' [[=]|[= <-]]. by rewrite E.
Qed.

Lemma step_lazily (g : globals) (c : call) :
  lazily_loaded g -> lazily_loaded (step g c).
Proof.
  intros Hg. destruct (step_cases g c) as [[d ->]|[d ->]].
  - apply emit_lazily; [by apply load_once_lazily | done |].
    intros d' [[= <-]|[=]]. unfold load_once.
    destruct (slots g !! slot_of d) eqn:E; [by rewrite E|].
    simpl. rewrite lookup_insert_eq. by eexists.
  - by apply unload_if_loaded_lazily.
Qed.

Lemma run_calls_lazily (cs : list call) (g : globals) :
  lazily_loaded g -> lazily_loaded (run_calls cs g).
Proof.
  revert g. induction cs as [|c cs IH]; intros g Hg; [done|].
  simpl. by apply IH, step_lazily.
Qed.

(** X14.  After any calls since the module was imported, a cache slot
    holds nothing but its own detector; it holds it exactly when the
    detector's import has happened; and no detector is imported twice,
    whatever detections and unloads came between. *)
Theorem detector_imported_once (cs : list call) :
  let g := run_calls cs initial in
  (forall name d, slots g !! name = Some d -> name = slot_of d) /\
  (forall d, slots g !! slot_of d = Some d <-> Import d ∈ trace g) /\
  (forall d, slots g !! slot_of d = None <-> Import d ∉ trace g) /\
  (forall d i j,
     trace g !! i = Some (Import d) -> trace g !! j = Some (Import d) ->
     i = j).
Proof.
  intros g.
  destruct (run_calls_lazily cs initial initial_lazily)
    as (H1 & H2 & H3 & _).
  fold g in H1, H2, H3.
  split_and!; [exact H1 | | | exact H3].
  - intros d. rewrite <- H2. split; [by eexists|].
    intros [d' H]. pose proof (H1 _ _ H) as ->%slot_of_inj. done.
  - intros d. rewrite <- H2, eq_None_not_Some. done.
Qed.

(** X15.  After any calls since the module was imported, every call of a
    detector and every call of a detector's [unload_*_model] comes after
    the import of that detector. *)
Theorem call_after_import (cs : list call) (i : nat) (d : detector)
    (e : event) :
  trace (run_calls cs initial) !! i = Some e ->
  e = Call d \/ e = UnloadModel d ->
  exists j, j < i /\ trace (run_calls cs initial) !! j = Some (Import d).
Proof.
  destruct (run_calls_lazily cs initial initial_lazily) as (_ & _ & _ & H4).
  apply H4.
Qed.

(** *** The thresholds *)

Lemma set_below_above (a : image) :
  set_below 255 0 (set_above 10 255 a) = binarise a.
Proof.
  unfold set_below, set_above, binarise. rewrite map_map.
  apply map_ext. intros row. rewrite map_map.
  apply map_ext. intros px. rewrite map_map.
  apply map_ext. intros x.
  destruct (Z.gtb_spec x 10) as [Hgt|Hle]; [done|].
  destruct (Z.ltb_spec x 255); [done | lia].
Qed.

(** X16.  [fake_scribble] leaves the globals as [hed] does, and the two
    masked assignments of lines 49-50 binarise the blurred edges at 10: the
    second one resets no entry the first one has set, no entry keeps its
    value, and the array keeps its dimensions. *)
Theorem fake_scribble_binary (img : image) (res : Z) (g : globals) :
  let blurred := GaussianBlur (nms (hed img res g).2 127 f3_0) f3_0 in
  (fake_scribble img res g).1 = (hed img res g).1 /\
  (fake_scribble img res g).2 = binarise blurred /\
  map (map length) (fake_scribble img res g).2 = map (map length) blurred /\
  Forall (Forall (Forall (fun v => v = 0%Z \/ v = 255%Z)))
         (fake_scribble img res g).2.
Proof.
  intros blurred.
  assert (Hr : (fake_scribble img res g).2 = binarise blurred).
  { unfold Processor.fake_scribble, blurred. simpl. apply set_below_above. }
  split_and!; [done | done | |]; rewrite Hr; unfold binarise.
  - rewrite map_map. apply map_ext. intros row. rewrite map_map.
    apply map_ext. intros px. apply length_map.
  - apply Forall_fmap, Forall_forall. intros row _.
    apply Forall_fmap, Forall_forall. intros px _.
    apply Forall_fmap, Forall_forall. intros x _. simpl.
    destruct (x >? 10)%Z; [by right | by left].
Qed.

Lemma fold_min_lt (t : Z) (l : list Z) (v : Z) :
  (fold_left Z.min l v < t)%Z <-> (v < t)%Z \/ Exists (fun x => (x < t)%Z) l.
Proof.
  revert v. induction l as [|x l IH]; intros v; simpl.
  - split; [by left|]. intros [?|H]; [done | by inversion H].
  - rewrite IH, Exists_cons. pose proof (Z.min_spec v x). intuition lia.
Qed.

Lemma scribble_pixel_thresholded (px : list Z) :
  px <> [] -> thresholded px (scribble_pixel px).
Proof.
  destruct px as [|v px]; [done|]. intros _.
  unfold thresholded, scribble_pixel.
  change (np_min (v :: px)) with (Ok (fold_left Z.min px v)).
  set (m := fold_left Z.min px v).
  split; [apply length_map|].
  destruct (Z.ltb_spec m 127) as [Hlt|Hge].
  - left. split.
    + apply fold_min_lt in Hlt. rewrite Exists_cons. done.
    + apply Forall_fmap, Forall_forall. done.
  - right. split.
    + apply Forall_forall. intros x Hx.
      destruct (Z.lt_ge_cases x 127) as [Hx'|]; [|done].
      assert (m < 127)%Z; [|lia]. apply fold_min_lt.
      apply elem_of_cons in Hx as [->|Hx]; [by left|].
      right. apply Exists_exists. eauto.
    + apply Forall_fmap, Forall_forall. done.
Qed.

(** X17.  On an image whose pixels all have a channel (after the external
    channel coercion and resize) [simple_scribble] returns an array of the
    same dimensions in which a pixel is 255 on every channel where some
    channel of the input pixel is below 127, and 0 on every channel where
    all are 127 or above. *)
Theorem simple_scribble_threshold (img : image) (res : Z) :
  Forall (Forall (fun px => px <> [])) (resize_image (HWC3 img) res) ->
  exists r, simple_scribble img res = Ok r /\
            Forall2 (Forall2 thresholded) (resize_image (HWC3 img) res) r.
Proof.
  intros Hne.
  exists (map (map scribble_pixel) (resize_image (HWC3 img) res)).
  split; [by apply simple_scribble_Ok|].
  apply Forall2_fmap_r, Forall_Forall2_diag.
  eapply Forall_impl; [exact Hne|]. intros row Hrow.
  apply Forall2_fmap_r, Forall_Forall2_diag.
  eapply Forall_impl; [exact Hrow|]. intros px.
  apply scribble_pixel_thresholded.
Qed.

End AnnotatorMore.

Lemma detector_imported_once_witness :
  Processor.trace (ExtraExamples.run_calls ExtraExamples.session
                     Processor.initial)
  = [Processor.Import Processor.apply_hed; Processor.Call Processor.apply_hed;
     Processor.UnloadModel Processor.apply_hed;
     Processor.Call Processor.apply_hed;
     Processor.Import Processor.apply_canny;
     Processor.Call Processor.apply_canny] /\
  Processor.slots (ExtraExamples.run_calls ExtraExamples.session
                     Processor.initial) !! "model_hed"
  = Some Processor.apply_hed.
Proof.
  split; [reflexivity|].
  apply (proj1 (proj2 (detector_imported_once ProcessorExamples.HWC3
                  ProcessorExamples.resize_image unit unit
                  (fun img _ _ => img) (fun img => img) (fun img _ _ => img)
                  (fun img _ _ => (img, img)) (fun img _ => (img, tt))
                  (fun img => img) (fun img _ _ => img) (fun img _ => img) tt
                  ExtraExamples.session)) Processor.apply_hed).
  apply elem_of_cons. by left.
Defined.

Lemma call_after_import_witness :
  exists j, j < 3 /\
    Processor.trace (ExtraExamples.run_calls ExtraExamples.session
                       Processor.initial) !! j
    = Some (Processor.Import Processor.apply_hed).
Proof.
  exact (call_after_import ProcessorExamples.HWC3
           ProcessorExamples.resize_image unit unit
           (fun img _ _ => img) (fun img => img) (fun img _ _ => img)
           (fun img _ _ => (img, img)) (fun img _ => (img, tt))
           (fun img => img) (fun img _ _ => img) (fun img _ => img) tt
           ExtraExamples.session 3 Processor.apply_hed
           (Processor.Call Processor.apply_hed) eq_refl
           (or_introl eq_refl)).
Defined.

Lemma simple_scribble_threshold_witness :
  exists r,
    ProcessorExamples.simple_scribble ProcessorExamples.two_pixels 512 = Ok r /\
    Forall2 (Forall2 Processor.thresholded) ProcessorExamples.two_pixels r.
Proof.
  apply (simple_scribble_threshold ProcessorExamples.HWC3
           ProcessorExamples.resize_image ProcessorExamples.two_pixels 512).
  repeat constructor; discriminate.
Defined.

(** ** The size of the hint *)

Section AlignFacts.
Import Torch Cldm.
Variable Scalar : Type.
Variable interpolate : Tensor Scalar -> list nat -> result (Tensor Scalar).

#[local] Abbreviation ControlNet_align :=
  (Cldm.ControlNet_align Scalar interpolate).

(** X18.  With an interpolation that gives a batch of the requested size,
    [ControlNet.align] returns a hint of the latent's height and width and
    of the channels it was given; a hint that has that size already is
    returned as it is, so aligning a second time changes nothing. *)
Theorem ControlNet_align_size (hint : Tensor Scalar) (c h1 w1 h w : nat) :
  (forall t n k y x,
     shape t = [n; k; y; x] ->
     exists r, interpolate t [h; w] = Ok r /\ shape r = [n; k; h; w]) ->
  shape hint = [c; h1; w1] ->
  exists r,
    ControlNet_align hint h w = Ok r /\
    shape r = [c; h; w] /\
    (h = h1 -> w = w1 -> r = hint) /\
    ControlNet_align r h w = Ok r.
Proof.
  intros Hi Hs.
  assert (Hsame : forall r : Tensor Scalar,
             shape r = [c; h; w] -> ControlNet_align r h w = Ok r).
  { intros r Hr. unfold Cldm.ControlNet_align. rewrite Hr.
    by rewrite !Nat.eqb_refl. }
  unfold Cldm.ControlNet_align at 1. rewrite Hs.
  destruct (negb (h =? h1) || negb (w =? w1)) eqn:E.
  - unfold Cldm.align.
    change (shape (unsqueeze0 hint)) with (1 :: shape hint).
    rewrite Hs, E.
    destruct (Hi (unsqueeze0 hint) 1 c h1 w1) as (t & -> & Ht);
      [simpl; by rewrite Hs|].
    simpl.
    assert (Hr : shape (squeeze0 t) = [c; h; w]).
    { unfold squeeze0. by rewrite Ht. }
    exists (squeeze0 t). split_and!; [done | done | | by apply Hsame].
    intros -> ->. by rewrite !Nat.eqb_refl in E.
  - apply orb_false_elim in E as [E1 E2].
    apply negb_false_iff, Nat.eqb_eq in E1, E2. subst h1 w1.
    exists hint. split_and!; [done | done | done | by apply Hsame].
Qed.

End AlignFacts.

Lemma ControlNet_align_size_witness :
  exists r,
    Cldm.ControlNet_align Z NetworkExamples.nearest
      (NetworkExamples.ones [3; 2; 2]) 4 4 = Ok r /\
    Torch.shape r = [3; 4; 4].
Proof.
  destruct (ControlNet_align_size Z NetworkExamples.nearest
              (NetworkExamples.ones [3; 2; 2]) 3 2 2 4 4) as (r & H & Hr & _).
  - intros t n k y x Ht. unfold NetworkExamples.nearest.
    rewrite Ht. eexists. split; reflexivity.
  - reflexivity.
  - exists r. split; [exact H | exact Hr].
Defined.
